(** * Nine Men's Morris: the rules engine of [nine_mens_morris.py]

    A shallow embedding of the classes [Player], [BoardManager] and [Game]
    and the properties of the engine stated in the specification.

    Conventions of the embedding.
    - A Python [int] is a [Z]; a one-character cell or a player symbol is a
      [string]; the board is a [list string] read and written through
      Python's indexing rules ([getitem], [setitem]): an index in
      [-len, -1] counts from the end, an index outside [-len, len-1]
      raises [IndexError].
    - A method that only reads returns a [result]: a value or [IndexError].
    - A method that mutates returns an [outcome]: the returned value with
      the state after the call, or the state in which the exception left
      the object (mutations done before a raise persist, as in Python).
    - [current_player] is a reference to one of the two player objects of
      the game; it is modelled by the slot it points to ([Player1] or
      [Player2]), and the counters live in the slots.
    - The two players of a game are two objects, as [NineMensMorrisUI]
      builds them.
    - [print] calls write to the console only and are left out. *)

From Stdlib Require Import Sorted.
From stdpp Require Import base numbers list strings gmap.

Local Open Scope string_scope.
Local Open Scope list_scope.
Local Open Scope Z_scope.

(** ** Results and outcomes *)

Inductive result (A : Type) : Type :=
| Ok (a : A)
| IndexError.
Arguments Ok {A} a.
Arguments IndexError {A}.

Inductive outcome (S A : Type) : Type :=
| Returned (a : A) (s : S)
| Raised (s : S).
Arguments Returned {S A} a s.
Arguments Raised {S A} s.

Definition rbind {A B} (r : result A) (k : A → result B) : result B :=
  match r with
  | Ok a => k a
  | IndexError => IndexError
  end.

Notation "'let?' x := r 'in' k" := (rbind r (λ x, k))
  (at level 10, x name, r at level 100, k at level 200, only parsing).

(** [read s r k]: evaluate the read [r] in state [s]; an exception leaves
    the state as it is. *)
Definition read {S A B} (s : S) (r : result A) (k : A → outcome S B) : outcome S B :=
  match r with
  | Ok a => k a
  | IndexError => Raised s
  end.

Definition obind {S A B} (o : outcome S A) (k : A → S → outcome S B) : outcome S B :=
  match o with
  | Returned a s => k a s
  | Raised s => Raised s
  end.

(** The state an outcome leaves behind, returned or raised. *)
Definition final_state {S A} (o : outcome S A) : S :=
  match o with
  | Returned _ s => s
  | Raised s => s
  end.

(** ** Python list indexing *)

Definition py_index (len : nat) (i : Z) : option nat :=
  if (0 <=? i) && (i <? Z.of_nat len) then Some (Z.to_nat i)
  else if (- Z.of_nat len <=? i) && (i <? 0) then Some (Z.to_nat (Z.of_nat len + i))
  else None.

Definition getitem {A} (l : list A) (i : Z) : result A :=
  match py_index (length l) i with
  | Some k => match l !! k with Some x => Ok x | None => IndexError end
  | None => IndexError
  end.

Definition setitem {A} (l : list A) (i : Z) (x : A) : result (list A) :=
  match py_index (length l) i with
  | Some k => Ok (<[k := x]> l)
  | None => IndexError
  end.

(** [range(n)] *)
Definition range (n : nat) : list Z := map Z.of_nat (seq 0 n).

(** [x in xs] on a list of ints *)
Definition contains (xs : list Z) (x : Z) : bool := existsb (Z.eqb x) xs.

(** [for x in xs: if cond(x): acc.append(x)] *)
Fixpoint collect (cond : Z → result bool) (xs : list Z) (acc : list Z) : result (list Z) :=
  match xs with
  | [] => Ok acc
  | x :: xs' =>
      let? b := cond x in
      collect cond xs' (if b then acc ++ [x] else acc)
  end.

(** ** class Player *)

Record Player : Type := mkPlayer {
  name : string;
  player_symbol : string;
  pieces_in_hand : Z;
  pieces_on_board : Z;
  player_type : string
}.

Definition Player_init (n sym ty : string) : Player :=
  mkPlayer n sym 9 0 ty.

Definition with_counters (p : Player) (hand onboard : Z) : Player :=
  mkPlayer (name p) (player_symbol p) hand onboard (player_type p).

Definition place_piece (p : Player) : bool * Player :=
  if 0 <? pieces_in_hand p
  then (true, with_counters p (pieces_in_hand p - 1) (pieces_on_board p + 1))
  else (false, p).

Definition remove_piece (p : Player) : bool * Player :=
  if 0 <? pieces_on_board p
  then (true, with_counters p (pieces_in_hand p) (pieces_on_board p - 1))
  else (false, p).

(** ** class BoardManager *)

Record BoardManager : Type := mkBoard { board : list string }.

Definition make_new_board : list string := replicate 24 ".".

Definition BoardManager_init : BoardManager := mkBoard make_new_board.

Definition is_position_empty (bm : BoardManager) (position : Z) : result bool :=
  let? c := getitem (board bm) position in Ok (String.eqb c ".").

Definition who_on_position (bm : BoardManager) (position : Z) : result string :=
  getitem (board bm) position.

Definition get_players_positions (bm : BoardManager) (sym : string) : result (list Z) :=
  collect (λ i, let? c := who_on_position bm i in Ok (String.eqb c sym))
          (range (length (board bm))) [].

Definition adjacent_arrays : list (list Z) :=
  [ [1; 9]; [0; 2; 4]; [1; 14];
    [10; 4]; [1; 3; 7; 5]; [4; 13];
    [7; 11]; [4; 6; 8]; [7; 12];
    [0; 10; 21]; [3; 9; 18; 11]; [6; 10; 15];
    [8; 13; 17]; [5; 12; 20; 14]; [2; 13; 23];
    [11; 16]; [15; 17; 19]; [12; 16];
    [10; 19]; [16; 18; 22; 20]; [13; 19];
    [9; 22]; [19; 21; 23]; [14; 22] ].

Definition get_empty_positions (bm : BoardManager) : result (list Z) :=
  collect (is_position_empty bm) (range (length (board bm))) [].

Definition get_empty_adjacent_positions (bm : BoardManager) (position : Z) : result (list Z) :=
  let? adj := getitem adjacent_arrays position in
  collect (is_position_empty bm) adj [].

Definition add_player_piece (bm : BoardManager) (position : Z) (sym : string)
  : outcome BoardManager bool :=
  read bm (is_position_empty bm position) (λ e,
    if e then read bm (setitem (board bm) position sym) (λ b, Returned true (mkBoard b))
    else Returned false bm).

Definition remove_player_piece (bm : BoardManager) (position : Z)
  : outcome BoardManager bool :=
  read bm (is_position_empty bm position) (λ e,
    if negb e then read bm (setitem (board bm) position ".") (λ b, Returned true (mkBoard b))
    else Returned false bm).

(** The two assignments shared by [move_player_piece] and
    [fly_player_piece]; the second one runs on the board the first one
    left. *)
Definition relocate (bm : BoardManager) (from_position to_position : Z) (sym : string)
  : outcome BoardManager bool :=
  read bm (setitem (board bm) from_position ".") (λ b1,
    read (mkBoard b1) (setitem b1 to_position sym) (λ b2,
      Returned true (mkBoard b2))).

Definition move_player_piece (bm : BoardManager) (from_position to_position : Z) (sym : string)
  : outcome BoardManager bool :=
  read bm (getitem (board bm) from_position) (λ c,
    if String.eqb c sym then
      read bm (is_position_empty bm to_position) (λ e,
        if e then
          read bm (getitem adjacent_arrays from_position) (λ adj,
            if contains adj to_position
            then relocate bm from_position to_position sym
            else Returned false bm)
        else Returned false bm)
    else Returned false bm).

Definition fly_player_piece (bm : BoardManager) (from_position to_position : Z) (sym : string)
  : outcome BoardManager bool :=
  read bm (getitem (board bm) from_position) (λ c,
    if String.eqb c sym then
      read bm (is_position_empty bm to_position) (λ e,
        if e then relocate bm from_position to_position sym
        else Returned false bm)
    else Returned false bm).

(** ** class GamePhase *)

Inductive GamePhase : Type :=
| PLACING
| MOVING
| FLYING
| REMOVING_PIECE
| GAME_OVER.

Definition GamePhase_eqb (a b : GamePhase) : bool :=
  match a, b with
  | PLACING, PLACING | MOVING, MOVING | FLYING, FLYING
  | REMOVING_PIECE, REMOVING_PIECE | GAME_OVER, GAME_OVER => true
  | _, _ => false
  end.

(** ** class Game *)

(** The two player objects of a game; [current_player] and the player
    stored in a snapshot are references to one of them. *)
Inductive PlayerRef : Type :=
| Player1
| Player2.

Definition other (r : PlayerRef) : PlayerRef :=
  match r with
  | Player1 => Player2
  | Player2 => Player1
  end.

(** One entry of [game_history]:
    [[board.copy(), current_player, current_phase, position]]. *)
Record Snapshot : Type := mkSnapshot {
  snap_board : list string;
  snap_player : PlayerRef;
  snap_phase : GamePhase;
  snap_position : Z
}.

Record Game : Type := mkGame {
  player1 : Player;
  player2 : Player;
  board_manager : BoardManager;
  current_player : PlayerRef;
  current_phase : GamePhase;
  selected_piece : option Z;
  game_history : list Snapshot;
  legal_moves : list Z
}.

Definition Game_init (player_1 player_2 : Player) : Game :=
  mkGame (with_counters player_1 9 0) (with_counters player_2 9 0)
         BoardManager_init Player1 PLACING None [] [].

Definition player (g : Game) (r : PlayerRef) : Player :=
  match r with
  | Player1 => player1 g
  | Player2 => player2 g
  end.

Definition set_player (g : Game) (r : PlayerRef) (p : Player) : Game :=
  match r with
  | Player1 => mkGame p (player2 g) (board_manager g) (current_player g)
                      (current_phase g) (selected_piece g) (game_history g) (legal_moves g)
  | Player2 => mkGame (player1 g) p (board_manager g) (current_player g)
                      (current_phase g) (selected_piece g) (game_history g) (legal_moves g)
  end.

Definition set_board_manager (g : Game) (bm : BoardManager) : Game :=
  mkGame (player1 g) (player2 g) bm (current_player g)
         (current_phase g) (selected_piece g) (game_history g) (legal_moves g).

Definition set_current_player (g : Game) (r : PlayerRef) : Game :=
  mkGame (player1 g) (player2 g) (board_manager g) r
         (current_phase g) (selected_piece g) (game_history g) (legal_moves g).

Definition set_current_phase (g : Game) (ph : GamePhase) : Game :=
  mkGame (player1 g) (player2 g) (board_manager g) (current_player g)
         ph (selected_piece g) (game_history g) (legal_moves g).

Definition set_selected_piece (g : Game) (s : option Z) : Game :=
  mkGame (player1 g) (player2 g) (board_manager g) (current_player g)
         (current_phase g) s (game_history g) (legal_moves g).

Definition set_game_history (g : Game) (h : list Snapshot) : Game :=
  mkGame (player1 g) (player2 g) (board_manager g) (current_player g)
         (current_phase g) (selected_piece g) h (legal_moves g).

(** [self.current_player] and the property [self.opponent_player] *)
Definition current (g : Game) : Player := player g (current_player g).
Definition opponent_player (g : Game) : Player := player g (other (current_player g)).

Definition switch_player (g : Game) : Game :=
  set_current_player g (other (current_player g)).

Definition get_allowed_moves (g : Game) (position_just_placed : Z) : result (list Z) :=
  match current_phase g with
  | PLACING => get_empty_positions (board_manager g)
  | FLYING => get_empty_positions (board_manager g)
  | MOVING => get_empty_adjacent_positions (board_manager g) position_just_placed
  | _ => Ok []
  end.

Definition mills_arrays : list (list Z) :=
  [ [0; 1; 2]; [3; 4; 5]; [6; 7; 8]; [9; 10; 11];
    [12; 13; 14]; [15; 16; 17]; [18; 19; 20]; [21; 22; 23];
    [0; 9; 21]; [3; 10; 18]; [6; 11; 15]; [1; 4; 7];
    [16; 19; 22]; [8; 12; 17]; [5; 13; 20]; [2; 14; 23] ].

(** [all(board[pos] == symbol_at_pos for pos in mill)]: the generator
    stops at the first cell that differs. *)
Fixpoint all_match (b : list string) (sym : string) (mill : list Z) : result bool :=
  match mill with
  | [] => Ok true
  | pos :: rest =>
      let? c := getitem b pos in
      if String.eqb c sym then all_match b sym rest else Ok false
  end.

(** The loop [for mill in self.mills_arrays] of
    [is_position_part_of_mill], leaving at the first completed mill. *)
Fixpoint scan_mills (b : list string) (sym : string) (location : Z) (mills : list (list Z))
  : result bool :=
  match mills with
  | [] => Ok false
  | mill :: rest =>
      if contains mill location then
        let? a := all_match b sym mill in
        if a then Ok true else scan_mills b sym location rest
      else scan_mills b sym location rest
  end.

Definition is_position_part_of_mill (g : Game) (location : Z) : result bool :=
  let? symbol_at_pos := who_on_position (board_manager g) location in
  if String.eqb symbol_at_pos "." then Ok false
  else scan_mills (board (board_manager g)) symbol_at_pos location mills_arrays.

Definition get_allowed_removals (g : Game) : result (list Z) :=
  let? opponent_positions :=
    get_players_positions (board_manager g) (player_symbol (opponent_player g)) in
  let? non_mill_positions :=
    collect (λ pos, let? m := is_position_part_of_mill g pos in Ok (negb m))
            opponent_positions [] in
  match non_mill_positions with
  | [] => Ok opponent_positions
  | _ :: _ => Ok non_mill_positions
  end.

(** The loop [for pos in opponent_positions] of [check_win_condition]:
    [Ok true] when it runs to its end, [Ok false] when some position has an
    allowed move (the function returns [False] there). *)
Fixpoint no_allowed_moves (g : Game) (positions : list Z) : result bool :=
  match positions with
  | [] => Ok true
  | pos :: rest =>
      let? moves := get_allowed_moves g pos in
      match moves with
      | [] => no_allowed_moves g rest
      | _ :: _ => Ok false
      end
  end.

Definition check_win_condition (g : Game) : result bool :=
  let blockade :=
    let? opponent_positions :=
      get_players_positions (board_manager g) (player_symbol (opponent_player g)) in
    match opponent_positions with
    | [] => Ok false
    | _ :: _ =>
        let? blocked := no_allowed_moves g opponent_positions in
        if negb blocked then Ok false
        else if (0 <=? pieces_in_hand (current g)) || (0 <=? pieces_in_hand (opponent_player g))
        then Ok false
        else Ok true
    end in
  if (pieces_in_hand (current g) =? 0) && (pieces_in_hand (opponent_player g) =? 0)
  then if pieces_on_board (opponent_player g) <? 3 then Ok true else blockade
  else blockade.

Definition update_game_phase (g : Game) : outcome Game unit :=
  read g (check_win_condition g) (λ won,
    if won then Returned tt (set_current_phase g GAME_OVER)
    else if 0 <? pieces_in_hand (current g) then Returned tt (set_current_phase g PLACING)
    else if pieces_on_board (current g) =? 3 then Returned tt (set_current_phase g FLYING)
    else Returned tt (set_current_phase g MOVING)).

Definition finalize_turn (g : Game) (position : Z) : outcome Game unit :=
  read g (check_win_condition g) (λ won,
    if won then Returned tt (set_current_phase g GAME_OVER)
    else
      read g (is_position_part_of_mill g position) (λ mill,
        if mill then Returned tt (set_current_phase g REMOVING_PIECE)
        else update_game_phase (switch_player g))).

(** A call of a [BoardManager] method on [self.board_manager]: the board
    manager is left as the method left it, also when it raised. *)
Definition on_board_manager {A B} (g : Game) (o : outcome BoardManager A)
    (k : A → Game → outcome Game B) : outcome Game B :=
  match o with
  | Returned a bm => k a (set_board_manager g bm)
  | Raised bm => Raised (set_board_manager g bm)
  end.

Definition handle_placing (g : Game) (position : Z) : outcome Game bool :=
  on_board_manager g
    (add_player_piece (board_manager g) position (player_symbol (current g)))
    (λ added g1,
      if added then
        let g2 := set_player g1 (current_player g1) (snd (place_piece (current g1))) in
        obind (finalize_turn g2 position) (λ _ g3, Returned true g3)
      else Returned false g1).

Definition handle_moving (g : Game) (position : Z) : outcome Game bool :=
  match selected_piece g with
  | None =>
      read g (who_on_position (board_manager g) position) (λ c,
        if String.eqb c (player_symbol (current g)) then
          read g (get_empty_adjacent_positions (board_manager g) position) (λ adj,
            match adj with
            | _ :: _ => Returned true (set_selected_piece g (Some position))
            | [] => Returned false g
            end)
        else Returned false g)
  | Some selected =>
      if position =? selected then Returned true (set_selected_piece g None)
      else
        on_board_manager g
          (move_player_piece (board_manager g) selected position (player_symbol (current g)))
          (λ moved g1,
            if moved then
              obind (finalize_turn g1 position) (λ _ g2,
                Returned true (set_selected_piece g2 None))
            else Returned false g1)
  end.

Definition handle_flying (g : Game) (position : Z) : outcome Game bool :=
  match selected_piece g with
  | None =>
      read g (who_on_position (board_manager g) position) (λ c,
        if String.eqb c (player_symbol (current g))
        then Returned true (set_selected_piece g (Some position))
        else Returned false g)
  | Some selected =>
      if position =? selected then Returned true (set_selected_piece g None)
      else
        on_board_manager g
          (fly_player_piece (board_manager g) selected position (player_symbol (current g)))
          (λ flown g1,
            if flown then
              obind (finalize_turn g1 position) (λ _ g2,
                Returned true (set_selected_piece g2 None))
            else Returned false g1)
  end.

Definition handle_removing_piece (g : Game) (position : Z) : outcome Game bool :=
  read g (get_allowed_removals g) (λ allowed,
    if contains allowed position then
      on_board_manager g (remove_player_piece (board_manager g) position) (λ removed g1,
        if removed then
          let g2 := set_player g1 (other (current_player g1))
                               (snd (remove_piece (opponent_player g1))) in
          read g2 (check_win_condition g2) (λ _,
            obind (finalize_turn g2 position) (λ _ g3, Returned true g3))
        else Returned false g1)
    else Returned false g).

Definition record_game_action (g : Game) (position : Z) : Game :=
  set_game_history g
    (game_history g ++
       [mkSnapshot (board (board_manager g)) (current_player g) (current_phase g) position]).

Definition handle_action (g : Game) (position : Z) : outcome Game bool :=
  match current_phase g with
  | PLACING => handle_placing (record_game_action g position) position
  | MOVING => handle_moving (record_game_action g position) position
  | REMOVING_PIECE => handle_removing_piece (record_game_action g position) position
  | FLYING => handle_flying (record_game_action g position) position
  | GAME_OVER => Returned false g
  end.

(** [list.pop()]: the list without its last entry, and that entry. *)
Fixpoint pop {A} (l : list A) : option (list A * A) :=
  match l with
  | [] => None
  | x :: rest =>
      match pop rest with
      | None => Some ([], x)
      | Some (rest', y) => Some (x :: rest', y)
      end
  end.

Definition undo_action (g : Game) : bool * Game :=
  match pop (game_history g) with
  | None => (false, g)
  | Some (history, last_state) =>
      let g1 := set_game_history g history in
      let g2 := set_board_manager g1 (mkBoard (snap_board last_state)) in
      let g3 := set_current_player g2 (snap_player last_state) in
      (true, set_current_phase g3 (snap_phase last_state))
  end.

(** ** Running the model *)

Definition player_X : Player := Player_init "Player 1" "X" "human".
Definition player_O : Player := Player_init "AI" "O" "ai".
Definition new_game : Game := Game_init player_X player_O.

(** Feed the positions to [handle_action] one after the other, as the game
    loop does; stop at the first exception. *)
Fixpoint play (g : Game) (positions : list Z) : outcome Game bool :=
  match positions with
  | [] => Returned true g
  | p :: rest =>
      match handle_action g p with
      | Returned _ g' => play g' rest
      | Raised g' => Raised g'
      end
  end.

(** The calls the game loop and a test can make on a [Game]. *)
Inductive Call : Type :=
| action (position : Z)
| undo.

(** Make the calls one after the other; an exception ends the run in the
    state it left. *)
Fixpoint run (g : Game) (calls : list Call) : Game :=
  match calls with
  | [] => g
  | action p :: rest =>
      match handle_action g p with
      | Returned _ g' => run g' rest
      | Raised g' => g'
      end
  | undo :: rest => run (snd (undo_action g)) rest
  end.

(** * Predicates and states of the statements *)

(** ** The board: 24 cells *)

(** The board list always has the 24 entries [make_new_board] gave it:
    [setitem] keeps the length, and [undo_action] installs a copy of a
    recorded board. *)
Definition board_ok (bm : BoardManager) : Prop := length (board bm) = 24%nat.

(** The cell [p] of board [b] holds the symbol [sym]. *)
Definition holds (b : list string) (sym : string) (p : Z) : bool :=
  match b !! Z.to_nat p with
  | Some c => String.eqb c sym
  | None => false
  end.

Ltac position_cases p :=
  let H := fresh "Hcase" in
  assert (H : p = 0 ∨ p = 1 ∨ p = 2 ∨ p = 3 ∨ p = 4 ∨ p = 5 ∨ p = 6 ∨ p = 7
              ∨ p = 8 ∨ p = 9 ∨ p = 10 ∨ p = 11 ∨ p = 12 ∨ p = 13 ∨ p = 14
              ∨ p = 15 ∨ p = 16 ∨ p = 17 ∨ p = 18 ∨ p = 19 ∨ p = 20 ∨ p = 21
              ∨ p = 22 ∨ p = 23) by lia;
  repeat (destruct H as [H|H]; [subst p|]); [..|subst p].

Definition in_board (p : Z) : Prop := 0 ≤ p < 24.

(** ** Completed mills *)

(** Some mill of [mills] contains [location] and has all its cells on [sym]. *)
Definition completed_mill (b : list string) (sym : string) (location : Z)
    (mills : list (list Z)) : bool :=
  existsb (λ mill, contains mill location && forallb (holds b sym) mill) mills.

(** ** The win condition *)

(** The first test of [check_win_condition]: both hands are empty and the
    opponent has fewer than three pieces on the board. *)
Definition material_loss (g : Game) : bool :=
  (pieces_in_hand (current g) =? 0) && (pieces_in_hand (opponent_player g) =? 0)
  && (pieces_on_board (opponent_player g) <? 3).

(** Hands are counters that start at 9 and are only decremented while
    positive. *)
Definition hands_ok (g : Game) : Prop :=
  0 ≤ pieces_in_hand (player1 g) ∧ 0 ≤ pieces_in_hand (player2 g).

Arguments mills_arrays : simpl never.
Arguments adjacent_arrays : simpl never.

(** ** A completed mill (C8) *)

(** A board position of the source's scenario: X on the line [0, 1, 2]
    after X placed at 0, O at 3, X at 1, O at 4, X at 2. *)
Definition mill_game : Game :=
  Eval vm_compute in final_state (play new_game [0; 3; 1; 4; 2]).

(** ** The legal-removal set (C7) *)

(** The position [p] lies on a completed mill of the pieces [sym]: a mill
    triple through [p] whose three cells hold [sym]. Empty cells form no
    mill. *)
Definition in_completed_mill (b : list string) (sym : string) (p : Z) : Prop :=
  sym ≠ "." ∧ ∃ mill, mill ∈ mills_arrays ∧ p ∈ mill
                      ∧ ∀ q, q ∈ mill → b !! Z.to_nat q = Some sym.

(** The cell [p] of the board holds a piece [sym]. *)
Definition occupies (b : list string) (sym : string) (p : Z) : Prop :=
  0 ≤ p < Z.of_nat (length b) ∧ b !! Z.to_nat p = Some sym.

Definition protected (b : list string) (sym : string) (p : Z) : bool :=
  negb (String.eqb sym ".") && completed_mill b sym p mills_arrays.

Definition removal_list (b : list string) (sym : string) : list Z :=
  let opponent_positions := List.filter (holds b sym) (range (length b)) in
  match List.filter (λ p, negb (protected b sym p)) opponent_positions with
  | [] => opponent_positions
  | p :: ps => p :: ps
  end.

(** ** Moving a piece (C6) *)

(** [to_position] is a neighbour of [from_position] in [adjacent_arrays]. *)
Definition adjacent (from_position to_position : Z) : Prop :=
  ∃ adj, adjacent_arrays !! Z.to_nat from_position = Some adj ∧ to_position ∈ adj.

(** ** The end of a turn *)

(** The phase [update_game_phase] computes for the current player. *)
Definition phase_for (g : Game) : GamePhase :=
  if material_loss g then GAME_OVER
  else if 0 <? pieces_in_hand (current g) then PLACING
  else if pieces_on_board (current g) =? 3 then FLYING
  else MOVING.

(** The state [finalize_turn] leaves, [mill] telling whether the acted-on
    position is part of a completed mill. *)
Definition turn_result (g : Game) (mill : bool) : Game :=
  if material_loss g then set_current_phase g GAME_OVER
  else if mill then set_current_phase g REMOVING_PIECE
  else set_current_phase (switch_player g) (phase_for (switch_player g)).

(** ** An empty hand in the placing phase (C10) *)

(** Player 1 places at 0 and the placement is undone, nine times over:
    the board is empty again, it is still player 1's turn to place, and
    the hand of player 1 is empty. *)
Definition empty_hand_game : Game :=
  Eval vm_compute in
    run new_game (concat (replicate 9 [action 0; undo])).

(** ** Rejected actions (C3) and positions off the board (C2) *)

(** A [BoardManager] method that does not return [True] leaves the board
    as it was, whether it returned [False] or raised. *)
Definition untouched {S} (s : S) (o : outcome S bool) : Prop :=
  match o with
  | Returned true _ => True
  | Returned false s' => s' = s
  | Raised s' => s' = s
  end.

(** The state a rejected call of [handle_action] leaves: the snapshot
    recorded before the dispatch stays in the log. *)
Definition after_rejection (g : Game) (position : Z) : Game :=
  match current_phase g with
  | GAME_OVER => g
  | _ => record_game_action g position
  end.

(** X has placed at 0; it is O's turn to place. *)
Definition placed_game : Game :=
  Eval vm_compute in run new_game [action 0].

(** The selected piece is a position at which the board was read when it
    was selected. *)
Definition selection_ok (g : Game) : Prop :=
  ∀ s, selected_piece g = Some s → -24 ≤ s < 24.

(** The positions at which a 24-cell list raises [IndexError]. *)
Definition off_board (p : Z) : Prop := p < -24 ∨ 23 < p.

(** What the statements below assume of a game state; it holds of a new
    game and is kept by [handle_action] and [undo_action]. *)
Record wf_game (g : Game) : Prop := mk_wf_game {
  wf_board : board_ok (board_manager g);
  wf_hands : hands_ok g;
  wf_selection : selection_ok g;
  wf_history : Forall (λ s, length (snap_board s) = 24%nat) (game_history g)
}.

(** ** The turn after a placement, a move or a flight (C5) *)

(** The first test of [check_win_condition], read for the player [r]. *)
Definition wins_on_material (g : Game) (r : PlayerRef) : bool :=
  (pieces_in_hand (player g r) =? 0) && (pieces_in_hand (player g (other r)) =? 0)
  && (pieces_on_board (player g (other r)) <? 3).

(** A placement, or the second step of a move or of a flight: what
    [handle_action] is asked to do at [position] relocates a piece. *)
Definition relocating (g : Game) (position : Z) : Prop :=
  current_phase g = PLACING
  ∨ ((current_phase g = MOVING ∨ current_phase g = FLYING)
     ∧ ∃ s, selected_piece g = Some s ∧ s ≠ position).

(** What the turn looks like in the state [g'] after the player [actor],
    playing [sym], relocated a piece to [position]. *)
Definition turn_outcome (actor : PlayerRef) (sym : string) (position : Z) (g' : Game) : Prop :=
  let b' := board (board_manager g') in
  b' !! Z.to_nat position = Some sym
  ∧ (is_position_part_of_mill g' position = Ok true ↔ in_completed_mill b' sym position)
  ∧ (wins_on_material g' actor = true →
     current_phase g' = GAME_OVER ∧ current_player g' = actor)
  ∧ (wins_on_material g' actor = false → in_completed_mill b' sym position →
     current_phase g' = REMOVING_PIECE ∧ current_player g' = actor)
  ∧ (wins_on_material g' actor = false → ¬ in_completed_mill b' sym position →
     current_player g' = other actor ∧ current_phase g' = phase_for g').

(** X on 0 and 1, O on 3 and 4, X to place. *)
Definition before_mill_game : Game :=
  Eval vm_compute in run new_game [action 0; action 3; action 1; action 4].

(** A state with consistent counters in which X, having selected the
    piece at 14, is about to move; both hands are empty and O is down to
    two pieces. *)
Definition endgame : Game :=
  mkGame (mkPlayer "Player 1" "X" 0 4 "human") (mkPlayer "AI" "O" 0 2 "ai")
         (mkBoard ["X"; "X"; "."; "O"; "O"; "."; "."; "."; "."; "."; "."; ".";
                   "."; "."; "X"; "."; "."; "."; "."; "."; "."; "."; "X"; "."])
         Player1 MOVING (Some 14) [] [].

(** Calls that lead from a new game to a state like [endgame]:
    [undo_action] restores the board but not the counters, so placements
    and removals that were undone have emptied both hands and brought O's
    counter down to two; X has then selected the piece at 14. *)
Definition endgame_calls : list Call :=
  [action 0; action 3; action 1; action 4]
  ++ concat (replicate 7 [action 2; undo])
  ++ [action 14]
  ++ concat (replicate 7 [action 6; undo])
  ++ [action 6; action 14; action 2]
  ++ concat (replicate 7 [action 3; undo])
  ++ [undo; action 14].

(** ** Win by blocking (C1) *)

(** Both hands are empty, it is X's turn to move, and each of O's four
    pieces (0, 1, 2, 14) has all its neighbours occupied. *)
Definition blockade_game : Game :=
  mkGame (mkPlayer "Player 1" "X" 0 4 "human") (mkPlayer "AI" "O" 0 4 "ai")
         (mkBoard ["O"; "O"; "O"; "."; "X"; "."; "."; "."; "."; "X"; "."; ".";
                   "."; "X"; "O"; "."; "."; "."; "."; "."; "."; "."; "."; "X"])
         Player1 MOVING None [] [].

(** ** Occupied cells and the players' counters (C4) *)

(** The number of cells of the board that satisfy [P]. *)
Fixpoint count_cells (P : string → bool) (b : list string) : Z :=
  match b with
  | [] => 0
  | c :: rest => (if P c then 1 else 0) + count_cells P rest
  end.

Definition is_occupied (c : string) : bool := negb (String.eqb c ".").
Definition is_piece_of (sym : string) (c : string) : bool := String.eqb c sym.

Definition occupied_cells (b : list string) : Z := count_cells is_occupied b.
Definition pieces_of (sym : string) (b : list string) : Z := count_cells (is_piece_of sym) b.

(** The invariant of the specification. *)
Definition cell_count_invariant (g : Game) : Prop :=
  occupied_cells (board (board_manager g))
  = pieces_on_board (player1 g) + pieces_on_board (player2 g).

(** The counters agree with the board, player by player. *)
Record counts_ok (g : Game) : Prop := mk_counts_ok {
  counts_board : board_ok (board_manager g);
  counts_hands : hands_ok g;
  counts_symbol : ∀ r, player_symbol (player g r) ≠ ".";
  counts_distinct : player_symbol (player1 g) ≠ player_symbol (player2 g);
  counts_pieces : ∀ r, pieces_of (player_symbol (player g r)) (board (board_manager g))
                       = pieces_on_board (player g r);
  counts_occupied : cell_count_invariant g
}.

(** Along a play, the player to place has a piece in hand. *)
Record consistent (g : Game) : Prop := mk_consistent {
  consistent_counts : counts_ok g;
  consistent_placing : current_phase g = PLACING → 0 < pieces_in_hand (current g)
}.

(** ** Undo and the identity of the board lists (C9) *)

(** The board of the [BoardManager] and the board stored in a snapshot are
    Python list objects: two references can denote one list, and a write
    through one is then seen through the other. Here the lists live in a
    heap and the game holds references to them, so that "a copy that does
    not alias" can be stated. *)
Module Store.

Definition loc : Type := positive.

(** [[board.copy(), current_player, current_phase, position]], the first
    entry being a reference to a list object. *)
Record SnapshotRef : Type := mkSnapshotRef {
  ref_board : loc;
  ref_player : PlayerRef;
  ref_phase : GamePhase;
  ref_position : Z
}.

Record GameRef : Type := mkGameRef {
  heap : gmap loc (list string);
  board_ref : loc;
  history : list SnapshotRef;
  first_player : Player;
  second_player : Player;
  turn : PlayerRef;
  phase : GamePhase;
  selection : option Z;
  moves : list Z
}.

(** [l.copy()]: a new list object with the entries of the object at [l]. *)
Definition copy (σ : gmap loc (list string)) (l : loc) : gmap loc (list string) * loc :=
  let l' := fresh (dom σ) in (<[l' := σ !!! l]> σ, l').

Definition record_game_action (h : GameRef) (position : Z) : GameRef :=
  let '(σ, l) := copy (heap h) (board_ref h) in
  mkGameRef σ (board_ref h)
            (history h ++ [mkSnapshotRef l (turn h) (phase h) position])
            (first_player h) (second_player h) (turn h) (phase h)
            (selection h) (moves h).

Definition undo_action (h : GameRef) : bool * GameRef :=
  match pop (history h) with
  | None => (false, h)
  | Some (log, last_state) =>
      let '(σ, l) := copy (heap h) (ref_board last_state) in
      (true, mkGameRef σ l log (first_player h) (second_player h)
                       (ref_player last_state) (ref_phase last_state)
                       (selection h) (moves h))
  end.

(** [self.board[k] = sym]: the list object of the board is updated in
    place. *)
Definition write_board (h : GameRef) (k : nat) (sym : string) : GameRef :=
  mkGameRef (<[board_ref h := <[k := sym]> (heap h !!! board_ref h)]> (heap h))
            (board_ref h) (history h) (first_player h) (second_player h)
            (turn h) (phase h) (selection h) (moves h).

(** The game the references denote. *)
Definition snapshot_of (σ : gmap loc (list string)) (s : SnapshotRef) : Snapshot :=
  mkSnapshot (σ !!! ref_board s) (ref_player s) (ref_phase s) (ref_position s).

Definition game_of (h : GameRef) : Game :=
  mkGame (first_player h) (second_player h) (mkBoard (heap h !!! board_ref h))
         (turn h) (phase h) (selection h)
         (snapshot_of (heap h) <$> history h) (moves h).

(** Every reference of the game denotes a list object. *)
Definition live (h : GameRef) : Prop :=
  board_ref h ∈ dom (heap h) ∧ ∀ s, s ∈ history h → ref_board s ∈ dom (heap h).

End Store.

(** A game with one snapshot in its log: the board is the list at 1, the
    snapshot holds the list at 2. *)
Definition logged_game : Store.GameRef :=
  Store.mkGameRef
    (<[2%positive := make_new_board]> (<[1%positive := <[0%nat := "X"]> make_new_board]> ∅))
    1%positive
    [Store.mkSnapshotRef 2%positive Player1 PLACING 0]
    (with_counters player_X 8 1) player_O Player2 PLACING None [].

(** No snapshot of the log shares its list with the board. *)
Definition unaliased (h : Store.GameRef) : Prop :=
  ∀ s, s ∈ Store.history h → Store.ref_board s ≠ Store.board_ref h.

(** ** The moves offered to the players *)

(** [list(set(possible_moves))] lists the distinct positions in the order
    in which CPython iterates the set; the model keeps the set. *)
Definition possible_legal_moves (g : Game) : result (gset Z) :=
  let bm := board_manager g in
  let? possible_moves :=
    match current_phase g with
    | PLACING => get_empty_positions bm
    | MOVING =>
        let? player_positions := get_players_positions bm (player_symbol (current g)) in
        match selected_piece g with
        | None =>
            collect (λ pos, let? adj := get_empty_adjacent_positions bm pos in
                            Ok (0 <? Z.of_nat (length adj)))
                    player_positions []
        | Some selected => get_empty_adjacent_positions bm selected
        end
    | FLYING =>
        match selected_piece g with
        | None =>
            let? player_positions :=
              get_players_positions bm (player_symbol (current g)) in
            collect (λ _, Ok true) player_positions []
        | Some _ => get_empty_positions bm
        end
    | REMOVING_PIECE => get_allowed_removals g
    | GAME_OVER => Ok []
    end in
  Ok (list_to_set possible_moves).

(** The index is one a 24-entry list accepts. *)
Definition indexable (p : Z) : Prop := -24 ≤ p < 24.

(** The counters of a player stay within the nine pieces of the game. *)
Definition counters_bounded (p : Player) : Prop :=
  0 ≤ pieces_in_hand p ≤ 9 ∧ 0 ≤ pieces_on_board p
  ∧ pieces_in_hand p + pieces_on_board p ≤ 9.

(** What a call can do to a player: nothing, [place_piece] or
    [remove_piece]. *)
Definition player_step (p p' : Player) : Prop :=
  p' = p ∨ p' = snd (place_piece p) ∨ p' = snd (remove_piece p).

(** A handler leaves the log alone and moves each player by one
    [player_step] at most. *)
Definition handler_frame (g g' : Game) : Prop :=
  game_history g' = game_history g
  ∧ ∀ r, player_step (player g r) (player g' r).

(** Both hands are empty and X is down to three pieces: X may fly. *)
Definition flying_game : Game :=
  mkGame (mkPlayer "Player 1" "X" 0 3 "human") (mkPlayer "AI" "O" 0 4 "ai")
         (mkBoard ["X"; "O"; "X"; "."; "O"; "."; "."; "."; "."; "O"; "."; ".";
                   "."; "."; "O"; "."; "."; "."; "."; "."; "."; "."; "."; "X"])
         Player1 FLYING None [] [].

(** The entry of [adjacent_arrays] that Python reads at [p], and its empty
    cells on the board [b]. *)
Definition neighbours (p : Z) : list Z :=
  match getitem adjacent_arrays p with
  | Ok adj => adj
  | IndexError => []
  end.

Definition free_neighbours (b : list string) (p : Z) : list Z :=
  List.filter (holds b ".") (neighbours p).

(** The positions [possible_legal_moves] collects before it removes the
    duplicates. *)
Definition legal_list (g : Game) : list Z :=
  let b := board (board_manager g) in
  let own := List.filter (holds b (player_symbol (current g))) (range (length b)) in
  let empty := List.filter (holds b ".") (range (length b)) in
  match current_phase g with
  | PLACING => empty
  | MOVING =>
      match selected_piece g with
      | None => List.filter (λ p, 0 <? Z.of_nat (length (free_neighbours b p))) own
      | Some s => free_neighbours b s
      end
  | FLYING =>
      match selected_piece g with
      | None => own
      | Some _ => empty
      end
  | REMOVING_PIECE => removal_list b (player_symbol (opponent_player g))
  | GAME_OVER => []
  end.

(** The selected piece is a piece of the current player. *)
Definition selection_owned (g : Game) : Prop :=
  ∀ s, selected_piece g = Some s →
       getitem (board (board_manager g)) s = Ok (player_symbol (current g)).

(** * Properties *)

Lemma Ok_inj {A} (a b : A) : Ok a = Ok b → a = b.
Proof. congruence. Qed.

(** ** Python indexing *)

Section indexing.
Context {A : Type}.
Implicit Types (l : list A) (i : Z) (k : nat).

Lemma py_index_nonneg (len : nat) i :
  0 ≤ i < Z.of_nat len → py_index len i = Some (Z.to_nat i).
Proof.
  intros [H0 H1]. unfold py_index.
  apply Z.leb_le in H0. apply Z.ltb_lt in H1. by rewrite H0, H1.
Qed.

Lemma py_index_negative (len : nat) i :
  - Z.of_nat len ≤ i < 0 → py_index len i = Some (Z.to_nat (Z.of_nat len + i)).
Proof.
  intros [H0 H1]. unfold py_index.
  assert ((0 <=? i) = false) as -> by (apply Z.leb_gt; lia).
  apply Z.leb_le in H0. apply Z.ltb_lt in H1. by rewrite H0, H1.
Qed.

Lemma py_index_outside (len : nat) i :
  i < - Z.of_nat len ∨ Z.of_nat len ≤ i → py_index len i = None.
Proof.
  intros H. unfold py_index.
  destruct (Z.leb_spec 0 i), (Z.ltb_spec i (Z.of_nat len)),
    (Z.leb_spec (- Z.of_nat len) i), (Z.ltb_spec i 0); simpl; try done; lia.
Qed.

Lemma py_index_inv (len : nat) i k :
  py_index len i = Some k →
  (0 ≤ i < Z.of_nat len ∧ k = Z.to_nat i)
  ∨ (- Z.of_nat len ≤ i < 0 ∧ k = Z.to_nat (Z.of_nat len + i)).
Proof.
  unfold py_index.
  destruct (Z.leb_spec 0 i), (Z.ltb_spec i (Z.of_nat len)),
    (Z.leb_spec (- Z.of_nat len) i), (Z.ltb_spec i 0); simpl;
    intros ?; simplify_eq; (left + right); split; lia.
Qed.

Lemma py_index_lt (len : nat) i k : py_index len i = Some k → (k < len)%nat.
Proof. intros [[? ->]|[? ->]]%py_index_inv; lia. Qed.

Lemma py_index_in_range (len : nat) i :
  - Z.of_nat len ≤ i < Z.of_nat len → ∃ k, py_index len i = Some k ∧ (k < len)%nat.
Proof.
  intros H. destruct (Z.lt_ge_cases i 0).
  - eexists. split; [apply py_index_negative; lia | lia].
  - eexists. split; [apply py_index_nonneg; lia | lia].
Qed.

Lemma getitem_Ok l i x :
  getitem l i = Ok x ↔ ∃ k, py_index (length l) i = Some k ∧ l !! k = Some x.
Proof.
  unfold getitem. split.
  - destruct (py_index (length l) i) as [k|]; [|done].
    destruct (l !! k) as [y|] eqn:E; [|done]. intros [= ->]. eauto.
  - intros (k & -> & ->). done.
Qed.

Lemma getitem_nonneg l i :
  0 ≤ i < Z.of_nat (length l) →
  ∃ x, l !! Z.to_nat i = Some x ∧ getitem l i = Ok x.
Proof.
  intros H. destruct (lookup_lt_is_Some_2 l (Z.to_nat i)) as [x Hx]; [lia|].
  exists x. split; [done|]. apply getitem_Ok. exists (Z.to_nat i).
  split; [by apply py_index_nonneg | done].
Qed.

Lemma getitem_in_range l i :
  - Z.of_nat (length l) ≤ i < Z.of_nat (length l) → ∃ x, getitem l i = Ok x.
Proof.
  intros (k & Hk & Hlt)%py_index_in_range.
  destruct (lookup_lt_is_Some_2 l k Hlt) as [x Hx].
  exists x. apply getitem_Ok. eauto.
Qed.

Lemma getitem_outside l i :
  i < - Z.of_nat (length l) ∨ Z.of_nat (length l) ≤ i → getitem l i = IndexError.
Proof. intros H. unfold getitem. by rewrite py_index_outside. Qed.

Lemma getitem_Ok_in_range l i x :
  getitem l i = Ok x → - Z.of_nat (length l) ≤ i < Z.of_nat (length l).
Proof.
  intros (k & Hk & _)%getitem_Ok.
  apply py_index_inv in Hk as [[? _]|[? _]]; lia.
Qed.

Lemma setitem_length l i x l' : setitem l i x = Ok l' → length l' = length l.
Proof.
  unfold setitem. destruct (py_index (length l) i); [|done].
  intros [= <-]. apply length_insert.
Qed.

Lemma setitem_after_getitem l i x y :
  getitem l i = Ok y → ∃ k, py_index (length l) i = Some k ∧ l !! k = Some y
                           ∧ setitem l i x = Ok (<[k := x]> l).
Proof.
  intros (k & Hk & Hy)%getitem_Ok. exists k. unfold setitem. by rewrite Hk.
Qed.

End indexing.

(** ** The append loop *)

Lemma collect_filter (cond : Z → result bool) (f : Z → bool) (xs acc : list Z) :
  (∀ x, x ∈ xs → cond x = Ok (f x)) →
  collect cond xs acc = Ok (acc ++ List.filter f xs).
Proof.
  revert acc. induction xs as [|x xs IH]; intros acc H; simpl.
  - by rewrite app_nil_r.
  - rewrite (H x) by left. simpl.
    rewrite IH by (intros y Hy; apply H; by right).
    destruct (f x); [by rewrite <- app_assoc | done].
Qed.

Lemma elem_of_range (n : nat) (i : Z) : i ∈ range n ↔ 0 ≤ i < Z.of_nat n.
Proof.
  unfold range. rewrite list_elem_of_fmap. split.
  - intros (k & -> & Hk). apply elem_of_seq in Hk. lia.
  - intros H. exists (Z.to_nat i). split; [lia|]. apply elem_of_seq. lia.
Qed.

Lemma elem_of_List_filter (f : Z → bool) (xs : list Z) (x : Z) :
  x ∈ List.filter f xs ↔ x ∈ xs ∧ f x = true.
Proof. rewrite !list_elem_of_In. apply filter_In. Qed.

(** ** The board: 24 cells, and the two static tables *)

Lemma holds_true (b : list string) (sym : string) (p : Z) :
  holds b sym p = true ↔ b !! Z.to_nat p = Some sym.
Proof.
  unfold holds. destruct (b !! Z.to_nat p) as [c|]; [|done].
  rewrite String.eqb_eq. split; congruence.
Qed.

Lemma adjacent_arrays_spec (p : Z) :
  in_board p →
  ∃ adj, getitem adjacent_arrays p = Ok adj
         ∧ Forall in_board adj ∧ adj ≠ [] ∧ contains adj p = false.
Proof.
  unfold in_board. intros Hp. position_cases p;
    (eexists; split; [reflexivity|]; split; [|split; [done|reflexivity]];
     repeat constructor; lia).
Qed.

Lemma mills_arrays_in_board : Forall (Forall in_board) mills_arrays.
Proof. unfold in_board. repeat constructor; lia. Qed.

Lemma mills_arrays_shape :
  length mills_arrays = 16%nat ∧ Forall (λ mill, length mill = 3%nat) mills_arrays.
Proof. split; [done | repeat constructor]. Qed.

Section board_reads.
Variable bm : BoardManager.
Hypothesis Hlen : board_ok bm.

Lemma who_on_position_in_board (p : Z) :
  in_board p →
  ∃ c, board bm !! Z.to_nat p = Some c ∧ who_on_position bm p = Ok c.
Proof.
  intros Hp. apply getitem_nonneg. rewrite Hlen. unfold in_board in Hp. lia.
Qed.

Lemma is_position_empty_in_board (p : Z) :
  in_board p → is_position_empty bm p = Ok (holds (board bm) "." p).
Proof.
  intros (c & Hc & Hw)%who_on_position_in_board.
  unfold is_position_empty, holds. unfold who_on_position in Hw.
  by rewrite Hw, Hc.
Qed.

Lemma get_empty_adjacent_positions_in_board (p : Z) :
  in_board p →
  ∃ adj, getitem adjacent_arrays p = Ok adj
         ∧ get_empty_adjacent_positions bm p
           = Ok (List.filter (holds (board bm) ".") adj).
Proof.
  intros (adj & Hadj & Hin & _)%adjacent_arrays_spec.
  exists adj. split; [done|]. unfold get_empty_adjacent_positions.
  rewrite Hadj. simpl. rewrite (collect_filter _ (holds (board bm) ".")); [done|].
  intros a Ha. apply is_position_empty_in_board.
  by apply (proj1 (Forall_forall _ _) Hin).
Qed.

End board_reads.

(** These two loops run over [range(len(self.board))] and never raise,
    whatever the length of the board. *)
Lemma get_players_positions_spec (bm : BoardManager) (sym : string) :
  get_players_positions bm sym
  = Ok (List.filter (holds (board bm) sym) (range (length (board bm)))).
Proof.
  unfold get_players_positions.
  rewrite (collect_filter _ (holds (board bm) sym)); [done|].
  intros i Hi%elem_of_range. unfold who_on_position, holds.
  destruct (getitem_nonneg (board bm) i Hi) as (c & -> & ->). done.
Qed.

Lemma get_empty_positions_spec (bm : BoardManager) :
  get_empty_positions bm
  = Ok (List.filter (holds (board bm) ".") (range (length (board bm)))).
Proof.
  unfold get_empty_positions.
  rewrite (collect_filter _ (holds (board bm) ".")); [done|].
  intros i Hi%elem_of_range. unfold is_position_empty, holds.
  destruct (getitem_nonneg (board bm) i Hi) as (c & -> & ->). done.
Qed.

Lemma elem_of_players_positions (b : list string) (sym : string) (p : Z) :
  p ∈ List.filter (holds b sym) (range (length b))
  ↔ 0 ≤ p < Z.of_nat (length b) ∧ b !! Z.to_nat p = Some sym.
Proof. by rewrite elem_of_List_filter, elem_of_range, holds_true. Qed.

(** ** Mill detection without exceptions *)

Section mill_reads.
Variable b : list string.
Hypothesis Hlen : length b = 24%nat.

Lemma all_match_in_board (sym : string) (mill : list Z) :
  Forall in_board mill → all_match b sym mill = Ok (forallb (holds b sym) mill).
Proof.
  induction 1 as [|p mill Hp _ IH]; simpl; [done|].
  destruct (getitem_nonneg b p) as (c & Hc & ->).
  { rewrite Hlen. unfold in_board in Hp. lia. }
  simpl. unfold holds at 1. rewrite Hc.
  destruct (String.eqb c sym); [by rewrite IH | done].
Qed.

Lemma scan_mills_in_board (sym : string) (location : Z) (mills : list (list Z)) :
  Forall (Forall in_board) mills →
  scan_mills b sym location mills = Ok (completed_mill b sym location mills).
Proof.
  induction 1 as [|mill mills Hmill _ IH]; simpl; [done|].
  rewrite IH. destruct (contains mill location); simpl; [|done].
  rewrite all_match_in_board by done. simpl.
  by destruct (forallb (holds b sym) mill).
Qed.

End mill_reads.

Lemma is_position_part_of_mill_spec (g : Game) (location : Z) (c : string) :
  board_ok (board_manager g) →
  getitem (board (board_manager g)) location = Ok c →
  is_position_part_of_mill g location
  = Ok (negb (String.eqb c ".")
        && completed_mill (board (board_manager g)) c location mills_arrays).
Proof.
  intros Hlen Hc. unfold is_position_part_of_mill, who_on_position.
  rewrite Hc. cbn [rbind]. destruct (String.eqb c "."); [done|]. cbn [negb andb].
  apply scan_mills_in_board; [exact Hlen | apply mills_arrays_in_board].
Qed.

Lemma completed_mill_true (b : list string) (sym : string) (p : Z) (mills : list (list Z)) :
  completed_mill b sym p mills = true
  ↔ ∃ mill, mill ∈ mills ∧ p ∈ mill ∧ ∀ q, q ∈ mill → b !! Z.to_nat q = Some sym.
Proof.
  unfold completed_mill. rewrite existsb_exists. split.
  - intros (mill & Hin & [Hc Hall]%andb_true_iff). exists mill.
    split; [by apply list_elem_of_In|]. split.
    + unfold contains in Hc. apply existsb_exists in Hc as (q & Hq & ->%Z.eqb_eq).
      by apply list_elem_of_In.
    + intros q Hq. apply holds_true.
      by apply (proj1 (forallb_forall _ _) Hall), list_elem_of_In.
  - intros (mill & Hin & Hp & Hall). exists mill.
    split; [by apply list_elem_of_In|]. apply andb_true_iff. split.
    + unfold contains. apply existsb_exists. exists p.
      split; [by apply list_elem_of_In | apply Z.eqb_refl].
    + apply forallb_forall. intros q Hq. apply holds_true, Hall.
      by apply list_elem_of_In.
Qed.

(** ** The win condition *)

Lemma get_allowed_moves_in_board (g : Game) (p : Z) :
  board_ok (board_manager g) → in_board p → ∃ moves, get_allowed_moves g p = Ok moves.
Proof.
  intros Hlen Hp. unfold get_allowed_moves.
  destruct (current_phase g); eauto using get_empty_positions_spec.
  destruct (get_empty_adjacent_positions_in_board _ Hlen p Hp) as (adj & _ & ->). eauto.
Qed.

Lemma no_allowed_moves_in_board (g : Game) (positions : list Z) :
  board_ok (board_manager g) → Forall in_board positions →
  ∃ blocked, no_allowed_moves g positions = Ok blocked.
Proof.
  intros Hlen. induction 1 as [|p positions Hp _ [blocked IH]]; simpl; [eauto|].
  destruct (get_allowed_moves_in_board g p Hlen Hp) as [[|m moves] ->]; simpl; eauto.
Qed.

Lemma players_positions_in_board (b : list string) (sym : string) :
  length b = 24%nat → Forall in_board (List.filter (holds b sym) (range (length b))).
Proof.
  intros Hlen. apply Forall_forall. intros p [Hp _]%elem_of_players_positions.
  unfold in_board. lia.
Qed.

(** [check_win_condition] returns [True] exactly on material loss: the
    test after the blockade loop holds for every pair of non-negative
    hands, so the last [return True] is never reached. *)
Lemma check_win_condition_material (g : Game) :
  board_ok (board_manager g) → hands_ok g →
  check_win_condition g = Ok (material_loss g).
Proof.
  intros Hlen [H1 H2]. unfold check_win_condition, material_loss.
  rewrite get_players_positions_spec. simpl.
  set (positions := List.filter _ _).
  assert (Hpos : Forall in_board positions) by by apply players_positions_in_board.
  assert (Hblock :
    match positions with
    | [] => Ok false
    | _ :: _ =>
        let? blocked := no_allowed_moves g positions in
        if negb blocked then Ok false
        else if (0 <=? pieces_in_hand (current g))
                || (0 <=? pieces_in_hand (opponent_player g))
        then Ok false else Ok true
    end = Ok false).
  { destruct positions as [|p ps] eqn:E; [done|]. rewrite <- E in *.
    destruct (no_allowed_moves_in_board g positions Hlen Hpos) as [blocked ->]. simpl.
    destruct blocked; simpl; [|done].
    assert (0 ≤ pieces_in_hand (current g)) as ->%Z.leb_le; [|done].
    unfold current, player. by destruct (current_player g). }
  rewrite Hblock.
  destruct (_ && _); simpl; [|done]. by destruct (_ <? 3).
Qed.

(** ** Mill detection (C8) *)

(** C8. On a 24-cell board: for each of the 16 mill triples, when its three
    cells hold one non-empty symbol, [is_position_part_of_mill] returns
    [True] at each position of the triple; it returns [False] at a position
    whose cell is empty; and it returns [True] only at a position that lies
    on a mill triple whose three cells all hold the symbol of that
    position. *)
Theorem mill_detection (g : Game) :
  board_ok (board_manager g) →
  let b := board (board_manager g) in
  length mills_arrays = 16%nat
  ∧ (∀ mill sym p,
       mill ∈ mills_arrays → sym ≠ "." →
       (∀ q, q ∈ mill → b !! Z.to_nat q = Some sym) →
       p ∈ mill → is_position_part_of_mill g p = Ok true)
  ∧ (∀ pos, getitem b pos = Ok "." → is_position_part_of_mill g pos = Ok false)
  ∧ (∀ pos, is_position_part_of_mill g pos = Ok true →
       ∃ sym mill, getitem b pos = Ok sym ∧ mill ∈ mills_arrays ∧ pos ∈ mill
                   ∧ ∀ q, q ∈ mill → b !! Z.to_nat q = Some sym).
Proof.
  intros Hlen b. split; [reflexivity|]. split; [|split].
  - intros mill sym p Hmill Hsym Hall Hp.
    assert (Hin : in_board p).
    { pose proof mills_arrays_in_board as HF.
      rewrite Forall_forall in HF. specialize (HF mill Hmill).
      rewrite Forall_forall in HF. by apply HF. }
    destruct (who_on_position_in_board _ Hlen p Hin) as (c & Hc & Hw).
    assert (c = sym) as -> by (specialize (Hall p Hp); fold b in Hc; congruence).
    rewrite (is_position_part_of_mill_spec g p sym Hlen Hw).
    apply String.eqb_neq in Hsym. rewrite Hsym. cbn [negb andb]. f_equal.
    apply completed_mill_true. eauto.
  - intros pos Hpos. by rewrite (is_position_part_of_mill_spec g pos "." Hlen Hpos).
  - intros pos Htrue.
    destruct (getitem b pos) as [c|] eqn:Hc.
    2:{ unfold is_position_part_of_mill, who_on_position in Htrue.
        fold b in Htrue. by rewrite Hc in Htrue. }
    rewrite (is_position_part_of_mill_spec g pos c Hlen Hc) in Htrue.
    apply Ok_inj, andb_true_iff in Htrue as [_ Hm].
    apply completed_mill_true in Hm as (mill & ? & ? & ?). eauto 10.
Qed.

Lemma mill_detection_witness :
  is_position_part_of_mill mill_game 1 = Ok true
  ∧ is_position_part_of_mill mill_game 5 = Ok false.
Proof.
  pose proof (mill_detection mill_game eq_refl) as (_ & Hmill & Hempty & _).
  split.
  - apply (Hmill [0; 1; 2] "X" 1).
    + apply list_elem_of_here.
    + discriminate.
    + intros q Hq. apply list_elem_of_In in Hq. simpl in Hq.
      destruct Hq as [<-|[<-|[<-|[]]]]; reflexivity.
    + apply list_elem_of_In. simpl. auto.
  - apply Hempty. reflexivity.
Defined.

(** ** The legal-removal set (C7) *)

Lemma protected_true (b : list string) (sym : string) (p : Z) :
  protected b sym p = true ↔ in_completed_mill b sym p.
Proof.
  unfold protected, in_completed_mill.
  rewrite andb_true_iff, negb_true_iff, String.eqb_neq, completed_mill_true. done.
Qed.

Lemma is_position_part_of_mill_occupied (g : Game) (sym : string) (p : Z) :
  board_ok (board_manager g) →
  occupies (board (board_manager g)) sym p →
  is_position_part_of_mill g p = Ok (protected (board (board_manager g)) sym p).
Proof.
  intros Hlen [Hp Hsym].
  destruct (getitem_nonneg _ p Hp) as (c & Hc & Hget).
  assert (c = sym) as -> by congruence.
  by rewrite (is_position_part_of_mill_spec g p sym Hlen Hget).
Qed.

Lemma get_allowed_removals_spec (g : Game) :
  board_ok (board_manager g) →
  get_allowed_removals g
  = Ok (removal_list (board (board_manager g)) (player_symbol (opponent_player g))).
Proof.
  intros Hlen. unfold get_allowed_removals, removal_list.
  rewrite get_players_positions_spec. cbn [rbind].
  set (b := board (board_manager g)). set (sym := player_symbol (opponent_player g)).
  rewrite (collect_filter _ (λ p, negb (protected b sym p))).
  - cbn [rbind app]. by destruct (List.filter _ _).
  - intros p Hp%elem_of_players_positions.
    by rewrite (is_position_part_of_mill_occupied g sym p Hlen Hp).
Qed.

(** C7. On a 24-cell board [get_allowed_removals] returns the opponent's
    positions that lie on no completed mill of the opponent; when every
    opponent position lies on such a mill, it returns all the opponent's
    positions. *)
Theorem allowed_removals (g : Game) :
  board_ok (board_manager g) →
  let b := board (board_manager g) in
  let sym := player_symbol (opponent_player g) in
  ∃ removals,
    get_allowed_removals g = Ok removals
    ∧ ((∃ p, occupies b sym p ∧ ¬ in_completed_mill b sym p) →
       ∀ p, p ∈ removals ↔ occupies b sym p ∧ ¬ in_completed_mill b sym p)
    ∧ ((∀ p, occupies b sym p → in_completed_mill b sym p) →
       ∀ p, p ∈ removals ↔ occupies b sym p).
Proof.
  intros Hlen b sym. exists (removal_list b sym).
  split; [by apply get_allowed_removals_spec|].
  assert (Hfree : ∀ p,
    p ∈ List.filter (λ p, negb (protected b sym p))
          (List.filter (holds b sym) (range (length b)))
    ↔ occupies b sym p ∧ ¬ in_completed_mill b sym p).
  { intros p. rewrite elem_of_List_filter, elem_of_players_positions.
    rewrite negb_true_iff, <- not_true_iff_false, protected_true. done. }
  unfold removal_list. split.
  - intros (p0 & Hp0). apply Hfree in Hp0.
    destruct (List.filter (λ p, negb (protected b sym p)) _) as [|x xs] eqn:E.
    + by apply elem_of_nil in Hp0.
    + intros p. apply Hfree.
  - intros Hall.
    destruct (List.filter (λ p, negb (protected b sym p)) _) as [|x xs] eqn:E.
    + intros p. apply elem_of_players_positions.
    + exfalso. destruct (proj1 (Hfree x)) as [Hocc Hnot]; [left|].
      by apply Hnot, Hall.
Qed.

Lemma allowed_removals_witness :
  ∃ removals,
    get_allowed_removals mill_game = Ok removals
    ∧ ∀ p, p ∈ removals
           ↔ occupies (board (board_manager mill_game)) "O" p
             ∧ ¬ in_completed_mill (board (board_manager mill_game)) "O" p.
Proof.
  destruct (allowed_removals mill_game eq_refl) as (removals & Hr & Hfree & _).
  exists removals. split; [exact Hr|]. apply Hfree.
  exists 3. split.
  - split; [simpl; lia | reflexivity].
  - intros H%protected_true. revert H. vm_compute. discriminate.
Defined.

(** ** Moving a piece (C6) *)

Lemma relocate_in_board (bm : BoardManager) (from_position to_position : Z) (sym : string) :
  board_ok bm → in_board from_position → in_board to_position →
  relocate bm from_position to_position sym
  = Returned true
      (mkBoard (<[Z.to_nat to_position := sym]>
                  (<[Z.to_nat from_position := "."]> (board bm)))).
Proof.
  unfold board_ok, in_board, relocate, setitem. intros Hlen Hf Ht.
  rewrite py_index_nonneg by lia. cbn [read].
  rewrite length_insert, py_index_nonneg by lia. done.
Qed.

Lemma contains_true (xs : list Z) (x : Z) : contains xs x = true ↔ x ∈ xs.
Proof.
  unfold contains. rewrite existsb_exists. split.
  - intros (y & Hy & ->%Z.eqb_eq). by apply list_elem_of_In.
  - intros Hx. exists x. split; [by apply list_elem_of_In | apply Z.eqb_refl].
Qed.

(** C6. For positions [from_position], [to_position] in [0, 23] of a
    24-cell board and every symbol, [move_player_piece] returns (it does
    not raise); it returns [True] exactly when the cell [from_position]
    holds the symbol, the cell [to_position] is empty and [to_position] is
    in [adjacent_arrays[from_position]]. On success the two positions
    differ, cell [from_position] is empty, cell [to_position] holds the
    symbol and every other cell is as before; on failure the board is
    unchanged. *)
Theorem move_player_piece_spec (bm : BoardManager) (from_position to_position : Z)
    (sym : string) :
  board_ok bm → in_board from_position → in_board to_position →
  ∃ ok bm',
    move_player_piece bm from_position to_position sym = Returned ok bm'
    ∧ (ok = true ↔ board bm !! Z.to_nat from_position = Some sym
                   ∧ board bm !! Z.to_nat to_position = Some "."
                   ∧ adjacent from_position to_position)
    ∧ (ok = true →
       from_position ≠ to_position
       ∧ length (board bm') = length (board bm)
       ∧ board bm' !! Z.to_nat from_position = Some "."
       ∧ board bm' !! Z.to_nat to_position = Some sym
       ∧ ∀ q, q ≠ Z.to_nat from_position → q ≠ Z.to_nat to_position →
              board bm' !! q = board bm !! q)
    ∧ (ok = false → bm' = bm).
Proof.
  intros Hlen Hf Ht. unfold move_player_piece.
  destruct (who_on_position_in_board bm Hlen _ Hf) as (c & Hc & Hgc).
  unfold who_on_position in Hgc. rewrite Hgc. cbn [read].
  rewrite (is_position_empty_in_board bm Hlen _ Ht). cbn [read].
  destruct (adjacent_arrays_spec _ Hf) as (adj & Hadj & _ & _ & Hself).
  rewrite Hadj. cbn [read].
  assert (Hadj' : adjacent_arrays !! Z.to_nat from_position = Some adj).
  { apply getitem_Ok in Hadj as (k & Hk & Hl).
    rewrite py_index_nonneg in Hk by (unfold in_board in Hf; simpl; lia).
    by injection Hk as <-. }
  assert (Hfail : ∀ P : Prop, ¬ P →
    ∃ ok bm', Returned false bm = Returned (S := BoardManager) ok bm'
      ∧ (ok = true ↔ P)
      ∧ (ok = true →
         from_position ≠ to_position
         ∧ length (board bm') = length (board bm)
         ∧ board bm' !! Z.to_nat from_position = Some "."
         ∧ board bm' !! Z.to_nat to_position = Some sym
         ∧ ∀ q, q ≠ Z.to_nat from_position → q ≠ Z.to_nat to_position →
                board bm' !! q = board bm !! q)
      ∧ (ok = false → bm' = bm)).
  { intros P HP. exists false, bm. split; [done|]. split; [|split]; [|done|done].
    split; [done | intros ?; contradiction]. }
  destruct (String.eqb_spec c sym) as [->|Hne].
  2:{ apply Hfail. intros (? & _). congruence. }
  destruct (holds (board bm) "." to_position) eqn:Hempty.
  2:{ apply Hfail. intros (_ & He%holds_true & _). congruence. }
  apply holds_true in Hempty.
  destruct (contains adj to_position) eqn:Hcont.
  2:{ apply Hfail. intros (_ & _ & adj' & Hadj'' & Hin%contains_true). congruence. }
  apply contains_true in Hcont.
  rewrite (relocate_in_board bm _ _ sym Hlen Hf Ht).
  assert (Hneq : from_position ≠ to_position).
  { intros <-. apply contains_true in Hcont. congruence. }
  assert (Hnat : Z.to_nat from_position ≠ Z.to_nat to_position).
  { unfold in_board in *. lia. }
  eexists true, _. split; [reflexivity|]. split; [|split]; [|intros _|done].
  - split; [intros _|done]. split; [done|]. split; [done|]. by exists adj.
  - cbn [board]. unfold board_ok, in_board in *.
    split; [done|]. split; [by rewrite !length_insert|]. split; [|split].
    + rewrite list_lookup_insert_ne by done. apply list_lookup_insert_eq. lia.
    + apply list_lookup_insert_eq. rewrite length_insert. lia.
    + intros q Hq1 Hq2. by rewrite !list_lookup_insert_ne.
Qed.

Lemma move_player_piece_spec_witness :
  ∃ ok bm',
    move_player_piece (board_manager mill_game) 2 14 "X" = Returned ok bm'
    ∧ (ok = true ↔ board (board_manager mill_game) !! Z.to_nat 2 = Some "X"
                   ∧ board (board_manager mill_game) !! Z.to_nat 14 = Some "."
                   ∧ adjacent 2 14).
Proof.
  destruct (move_player_piece_spec (board_manager mill_game) 2 14 "X")
    as (ok & bm' & Hrun & Hiff & _).
  - reflexivity.
  - unfold in_board. lia.
  - unfold in_board. lia.
  - exists ok, bm'. split; [exact Hrun | exact Hiff].
Defined.

(** ** The end of a turn *)

Lemma update_game_phase_spec (g : Game) :
  board_ok (board_manager g) → hands_ok g →
  update_game_phase g = Returned tt (set_current_phase g (phase_for g)).
Proof.
  intros Hlen Hhands. unfold update_game_phase, phase_for.
  rewrite check_win_condition_material by done. cbn [read].
  destruct (material_loss g); [done|].
  destruct (0 <? _); [done|]. by destruct (_ =? 3).
Qed.

Lemma hands_ok_switch_player (g : Game) : hands_ok g → hands_ok (switch_player g).
Proof. done. Qed.

Lemma finalize_turn_spec (g : Game) (position : Z) (c : string) :
  board_ok (board_manager g) → hands_ok g →
  getitem (board (board_manager g)) position = Ok c →
  finalize_turn g position
  = Returned tt (turn_result g (protected (board (board_manager g)) c position)).
Proof.
  intros Hlen Hhands Hc. unfold finalize_turn, turn_result.
  rewrite check_win_condition_material by done. cbn [read].
  destruct (material_loss g); [done|].
  rewrite (is_position_part_of_mill_spec g position c Hlen Hc). cbn [read].
  fold (protected (board (board_manager g)) c position).
  destruct (protected _ _ _); [done|].
  by apply update_game_phase_spec.
Qed.

(** [finalize_turn] touches the phase and the current player only. *)
Lemma turn_result_frame (g : Game) (mill : bool) :
  player1 (turn_result g mill) = player1 g
  ∧ player2 (turn_result g mill) = player2 g
  ∧ board_manager (turn_result g mill) = board_manager g
  ∧ selected_piece (turn_result g mill) = selected_piece g
  ∧ game_history (turn_result g mill) = game_history g.
Proof. unfold turn_result. destruct (material_loss g), mill; done. Qed.

(** ** Placing with an empty hand (C10) *)

(** C10. When [handle_placing] is called while the current player's
    [pieces_in_hand] is 0 and the cell at the position is empty, the
    player's symbol is written to that cell and the call returns [True],
    while both players' counters are as before: the [False] that
    [place_piece] returns is ignored. *)
Theorem handle_placing_empty_hand (g : Game) (position : Z) :
  board_ok (board_manager g) → hands_ok g →
  pieces_in_hand (current g) = 0 →
  getitem (board (board_manager g)) position = Ok "." →
  ∃ g' k,
    handle_placing g position = Returned true g'
    ∧ py_index 24 position = Some k
    ∧ board (board_manager g) !! k = Some "."
    ∧ board (board_manager g')
      = <[k := player_symbol (current g)]> (board (board_manager g))
    ∧ player1 g' = player1 g ∧ player2 g' = player2 g.
Proof.
  intros Hlen Hhands Hhand Hempty.
  destruct (setitem_after_getitem _ position (player_symbol (current g)) _ Hempty)
    as (k & Hk & Hcell & Hset).
  pose proof (py_index_lt _ _ _ Hk) as Hlt.
  unfold handle_placing, add_player_piece, is_position_empty.
  rewrite Hempty. cbn [rbind read String.eqb Ascii.eqb Bool.eqb]. cbn [read].
  rewrite Hset. cbn [read on_board_manager].
  set (g1 := set_board_manager g _).
  assert (Hplace : place_piece (current g1) = (false, current g1)).
  { unfold place_piece. change (current g1) with (current g). by rewrite Hhand. }
  rewrite Hplace. cbn [snd].
  assert (Hsame : set_player g1 (current_player g1) (current g1) = g1).
  { unfold set_player, current, player. destruct g as [? ? ? []]; done. }
  rewrite Hsame.
  assert (Hget : getitem (board (board_manager g1)) position
                 = Ok (player_symbol (current g))).
  { apply getitem_Ok. exists k. cbn [g1 set_board_manager board_manager board].
    rewrite length_insert. split; [done|]. by apply list_lookup_insert_eq. }
  rewrite (finalize_turn_spec g1 position (player_symbol (current g))); try done.
  2:{ unfold board_ok. cbn. by rewrite length_insert. }
  cbn [obind]. eexists _, k. split; [reflexivity|].
  rewrite Hlen in Hk. split; [done|]. split; [done|].
  destruct (turn_result_frame g1 (protected (board (board_manager g1))
                                   (player_symbol (current g)) position))
    as (-> & -> & -> & _). done.
Qed.

Lemma handle_placing_empty_hand_witness :
  ∃ g' k,
    handle_placing empty_hand_game 5 = Returned true g'
    ∧ py_index 24 5 = Some k
    ∧ board (board_manager empty_hand_game) !! k = Some "."
    ∧ board (board_manager g')
      = <[k := player_symbol (current empty_hand_game)]>
          (board (board_manager empty_hand_game))
    ∧ player1 g' = player1 empty_hand_game ∧ player2 g' = player2 empty_hand_game.
Proof.
  apply (handle_placing_empty_hand empty_hand_game 5).
  - reflexivity.
  - split; simpl; lia.
  - reflexivity.
  - reflexivity.
Defined.

(** ** Rejected actions (C3) and positions off the board (C2) *)

Lemma relocate_after_reads (bm : BoardManager) (from_position to_position : Z)
    (sym c d : string) :
  getitem (board bm) from_position = Ok c →
  getitem (board bm) to_position = Ok d →
  ∃ bm', relocate bm from_position to_position sym = Returned true bm'.
Proof.
  intros (k1 & Hk1 & _)%getitem_Ok (k2 & Hk2 & _)%getitem_Ok.
  unfold relocate, setitem. rewrite Hk1. cbn [read].
  rewrite length_insert, Hk2. cbn [read]. eauto.
Qed.

Lemma add_player_piece_untouched (bm : BoardManager) (p : Z) (sym : string) :
  untouched bm (add_player_piece bm p sym).
Proof.
  unfold add_player_piece, is_position_empty, setitem, getitem.
  destruct (py_index _ p) as [k|]; [|done].
  destruct (board bm !! k) as [c|]; [|done]. cbn [rbind read].
  by destruct (String.eqb c ".").
Qed.

Lemma remove_player_piece_untouched (bm : BoardManager) (p : Z) :
  untouched bm (remove_player_piece bm p).
Proof.
  unfold remove_player_piece, is_position_empty, setitem, getitem.
  destruct (py_index _ p) as [k|]; [|done].
  destruct (board bm !! k) as [c|]; [|done]. cbn [rbind read].
  by destruct (String.eqb c ".").
Qed.

Lemma move_player_piece_untouched (bm : BoardManager) (p q : Z) (sym : string) :
  untouched bm (move_player_piece bm p q sym).
Proof.
  unfold move_player_piece, is_position_empty.
  destruct (getitem (board bm) p) as [c|] eqn:Hc; [|done]. cbn [read].
  destruct (String.eqb c sym); [|done].
  destruct (getitem (board bm) q) as [d|] eqn:Hd; [|done]. cbn [rbind read].
  destruct (String.eqb d "."); [|done].
  destruct (getitem adjacent_arrays p) as [adj|]; [|done]. cbn [read].
  destruct (contains adj q); [|done].
  by destruct (relocate_after_reads bm p q sym c d Hc Hd) as [bm' ->].
Qed.

Lemma fly_player_piece_untouched (bm : BoardManager) (p q : Z) (sym : string) :
  untouched bm (fly_player_piece bm p q sym).
Proof.
  unfold fly_player_piece, is_position_empty.
  destruct (getitem (board bm) p) as [c|] eqn:Hc; [|done]. cbn [read].
  destruct (String.eqb c sym); [|done].
  destruct (getitem (board bm) q) as [d|] eqn:Hd; [|done]. cbn [rbind read].
  destruct (String.eqb d "."); [|done].
  by destruct (relocate_after_reads bm p q sym c d Hc Hd) as [bm' ->].
Qed.

Lemma set_board_manager_id (g : Game) : set_board_manager g (board_manager g) = g.
Proof. by destruct g. Qed.

(** The continuation of a handler after a successful board change never
    returns [False]. *)
Lemma obind_true_not_false {A} (o : outcome Game A) (k : Game → Game) (g' : Game) :
  obind o (λ _ g, Returned true (k g)) ≠ Returned false g'.
Proof. by destruct o. Qed.

Lemma handle_placing_false (g : Game) (position : Z) (g' : Game) :
  handle_placing g position = Returned false g' → g' = g.
Proof.
  unfold handle_placing, on_board_manager.
  pose proof (add_player_piece_untouched (board_manager g) position
                (player_symbol (current g))) as Hu.
  destruct (add_player_piece _ _ _) as [[] bm|bm]; [| |done].
  - intros H. by apply (obind_true_not_false _ (λ g, g)) in H.
  - simpl in Hu. subst bm. intros [= <-]. apply set_board_manager_id.
Qed.

Lemma handle_moving_false (g : Game) (position : Z) (g' : Game) :
  handle_moving g position = Returned false g' → g' = g.
Proof.
  unfold handle_moving, on_board_manager.
  destruct (selected_piece g) as [selected|].
  - destruct (position =? selected); [done|].
    pose proof (move_player_piece_untouched (board_manager g) selected position
                  (player_symbol (current g))) as Hu.
    destruct (move_player_piece _ _ _ _) as [[] bm|bm]; [| |done].
    + intros H. by apply (obind_true_not_false _ (λ g, set_selected_piece g None)) in H.
    + simpl in Hu. subst bm. intros [= <-]. apply set_board_manager_id.
  - destruct (who_on_position _ _) as [c|]; [|done]. cbn [read].
    destruct (String.eqb c _); [|congruence].
    destruct (get_empty_adjacent_positions _ _) as [[|a adj]|]; cbn [read]; congruence.
Qed.

Lemma handle_flying_false (g : Game) (position : Z) (g' : Game) :
  handle_flying g position = Returned false g' → g' = g.
Proof.
  unfold handle_flying, on_board_manager.
  destruct (selected_piece g) as [selected|].
  - destruct (position =? selected); [done|].
    pose proof (fly_player_piece_untouched (board_manager g) selected position
                  (player_symbol (current g))) as Hu.
    destruct (fly_player_piece _ _ _ _) as [[] bm|bm]; [| |done].
    + intros H. by apply (obind_true_not_false _ (λ g, set_selected_piece g None)) in H.
    + simpl in Hu. subst bm. intros [= <-]. apply set_board_manager_id.
  - destruct (who_on_position _ _) as [c|]; [|done]. cbn [read].
    destruct (String.eqb c _); congruence.
Qed.

Lemma handle_removing_piece_false (g : Game) (position : Z) (g' : Game) :
  handle_removing_piece g position = Returned false g' → g' = g.
Proof.
  unfold handle_removing_piece, on_board_manager.
  destruct (get_allowed_removals g) as [allowed|]; [|done]. cbn [read].
  destruct (contains allowed position); [|congruence].
  pose proof (remove_player_piece_untouched (board_manager g) position) as Hu.
  destruct (remove_player_piece _ _) as [[] bm|bm]; [| |done].
  - destruct (check_win_condition _); [|done]. cbn [read].
    intros H. by apply (obind_true_not_false _ (λ g, g)) in H.
  - simpl in Hu. subst bm. intros [= <-]. apply set_board_manager_id.
Qed.

(** C3 (amended). When [handle_action] returns [False], the board, both
    players' counters, the current player, the phase and the selected
    piece are as before the call. The session log is as before only in the
    phase [GAME_OVER]; in every other phase it has gained the snapshot
    (board copy, current player, phase, position) that [record_game_action]
    appended before the action was tried. *)
Theorem handle_action_rejected (g : Game) (position : Z) (g' : Game) :
  handle_action g position = Returned false g' →
  player1 g' = player1 g ∧ player2 g' = player2 g
  ∧ board_manager g' = board_manager g
  ∧ current_player g' = current_player g
  ∧ current_phase g' = current_phase g
  ∧ selected_piece g' = selected_piece g
  ∧ legal_moves g' = legal_moves g
  ∧ game_history g'
    = match current_phase g with
      | GAME_OVER => game_history g
      | _ => game_history g
             ++ [mkSnapshot (board (board_manager g)) (current_player g)
                            (current_phase g) position]
      end.
Proof.
  unfold handle_action. intros H.
  assert (g' = after_rejection g position) as ->.
  { unfold after_rejection. destruct (current_phase g).
    - by apply handle_placing_false in H.
    - by apply handle_moving_false in H.
    - by apply handle_flying_false in H.
    - by apply handle_removing_piece_false in H.
    - congruence. }
  unfold after_rejection.
  destruct (current_phase g) eqn:E; cbn; rewrite ?E; done.
Qed.

Lemma handle_action_rejected_witness :
  handle_action placed_game 0 = Returned false (record_game_action placed_game 0)
  ∧ board_manager (record_game_action placed_game 0) = board_manager placed_game
  ∧ game_history (record_game_action placed_game 0)
    = game_history placed_game
      ++ [mkSnapshot (board (board_manager placed_game)) Player2 PLACING 0].
Proof.
  pose proof (handle_action_rejected placed_game 0 (record_game_action placed_game 0) eq_refl)
    as (_ & _ & Hb & _ & _ & _ & _ & Hh).
  split; [reflexivity|]. split; [exact Hb | exact Hh].
Defined.

(** C3, as stated, fails: O's placement on the occupied cell 0 is rejected,
    and the log holds two snapshots where it held one. *)
Lemma rejected_action_is_logged :
  handle_action placed_game 0 = Returned false (record_game_action placed_game 0)
  ∧ length (game_history placed_game) = 1%nat
  ∧ length (game_history (record_game_action placed_game 0)) = 2%nat.
Proof. done. Qed.

Lemma getitem_off_board (b : list string) (p : Z) :
  length b = 24%nat → off_board p → getitem b p = IndexError.
Proof. intros Hlen Hp. apply getitem_outside. rewrite Hlen. unfold off_board in Hp. lia. Qed.

Lemma removal_list_in_board (b : list string) (sym : string) (p : Z) :
  p ∈ removal_list b sym → 0 ≤ p < Z.of_nat (length b).
Proof.
  unfold removal_list.
  destruct (List.filter (λ p, negb (protected b sym p)) _) as [|x xs] eqn:E.
  - by intros [? _]%elem_of_players_positions.
  - rewrite <- E. by intros [[? _]%elem_of_players_positions _]%elem_of_List_filter.
Qed.

(** C2 (amended). On a 24-cell board, for every position below -24 or
    above 23, [handle_action] never applies the action: it returns [False]
    or raises [IndexError], and either way the board, the counters, the
    current player, the phase and the selected piece are as before, the
    log having gained the recorded snapshot unless the phase is
    [GAME_OVER]. It returns [False] in the phases [GAME_OVER] and
    [REMOVING_PIECE], and raises in [PLACING] and, with no piece selected,
    in [MOVING] and [FLYING]. *)
Theorem handle_action_off_board (g : Game) (position : Z) :
  board_ok (board_manager g) → selection_ok g → off_board position →
  (handle_action g position = Returned false (after_rejection g position)
   ∨ handle_action g position = Raised (after_rejection g position))
  ∧ (current_phase g = GAME_OVER ∨ current_phase g = REMOVING_PIECE →
     handle_action g position = Returned false (after_rejection g position))
  ∧ (current_phase g = PLACING
     ∨ (selected_piece g = None ∧ (current_phase g = MOVING ∨ current_phase g = FLYING)) →
     handle_action g position = Raised (after_rejection g position)).
Proof.
  intros Hlen Hsel Hoff.
  pose proof (getitem_off_board _ position Hlen Hoff) as Hget.
  assert (Hselected : ∀ s, selected_piece g = Some s →
            (position =? s) = false ∧ ∃ c, getitem (board (board_manager g)) s = Ok c).
  { intros s Hs. specialize (Hsel s Hs). split.
    - apply Z.eqb_neq. unfold off_board in Hoff. lia.
    - apply getitem_in_range. rewrite Hlen. lia. }
  unfold handle_action, after_rejection.
  destruct (current_phase g) eqn:Hphase.
  - (* PLACING *)
    assert (handle_placing (record_game_action g position) position
            = Raised (record_game_action g position)) as ->.
    { unfold handle_placing, add_player_piece, is_position_empty.
      cbn [record_game_action set_game_history board_manager].
      by rewrite Hget. }
    split; [by right|]. split; [intros [|]; done | done].
  - (* MOVING *)
    assert (Hmove :
      (selected_piece g = None →
       handle_moving (record_game_action g position) position
       = Raised (record_game_action g position))
      ∧ (handle_moving (record_game_action g position) position
         = Returned false (record_game_action g position)
         ∨ handle_moving (record_game_action g position) position
           = Raised (record_game_action g position))).
    { unfold handle_moving, who_on_position, move_player_piece, is_position_empty.
      cbn [record_game_action set_game_history board_manager selected_piece].
      destruct (selected_piece g) as [s|] eqn:Hs.
      - split; [done|]. destruct (Hselected s eq_refl) as [-> [c ->]].
        cbn [read]. destruct (String.eqb c _); [|by left].
        rewrite Hget. by right.
      - rewrite Hget. split; [done | by right]. }
    destruct Hmove as [Hnone Hany].
    split; [done|]. split; [intros [|]; done|].
    intros [|[Hs _]]; [done | by apply Hnone].
  - (* FLYING *)
    assert (Hfly :
      (selected_piece g = None →
       handle_flying (record_game_action g position) position
       = Raised (record_game_action g position))
      ∧ (handle_flying (record_game_action g position) position
         = Returned false (record_game_action g position)
         ∨ handle_flying (record_game_action g position) position
           = Raised (record_game_action g position))).
    { unfold handle_flying, who_on_position, fly_player_piece, is_position_empty.
      cbn [record_game_action set_game_history board_manager selected_piece].
      destruct (selected_piece g) as [s|] eqn:Hs.
      - split; [done|]. destruct (Hselected s eq_refl) as [-> [c ->]].
        cbn [read]. destruct (String.eqb c _); [|by left].
        rewrite Hget. by right.
      - rewrite Hget. split; [done | by right]. }
    destruct Hfly as [Hnone Hany].
    split; [done|]. split; [intros [|]; done|].
    intros [|[Hs _]]; [done | by apply Hnone].
  - (* REMOVING_PIECE *)
    assert (handle_removing_piece (record_game_action g position) position
            = Returned false (record_game_action g position)) as ->.
    { unfold handle_removing_piece.
      rewrite get_allowed_removals_spec by done. cbn [read].
      destruct (contains _ position) eqn:Hc; [|done].
      apply contains_true, removal_list_in_board in Hc.
      cbn [record_game_action set_game_history board_manager] in Hc.
      rewrite Hlen in Hc. unfold off_board in Hoff. lia. }
    split; [by left|]. split; [done | intros [|[_ [|]]]; done].
  - (* GAME_OVER *)
    split; [by left|]. split; [done | intros [|[_ [|]]]; done].
Qed.

Lemma handle_action_off_board_witness :
  handle_action new_game 24 = Raised (after_rejection new_game 24).
Proof.
  refine (proj2 (proj2 (handle_action_off_board new_game 24 _ _ _)) _).
  - reflexivity.
  - intros s Hs. discriminate Hs.
  - right. reflexivity.
  - left. reflexivity.
Defined.

(** C2, as stated, fails: on a fresh game the position 24 raises
    [IndexError] after the snapshot was logged, and the position -1 is
    accepted as the cell 23 by Python's negative indexing. *)
Lemma off_board_position_raises :
  handle_action new_game 24 = Raised (record_game_action new_game 24)
  ∧ ∃ g', handle_action new_game (-1) = Returned true g'
          ∧ board (board_manager g') !! 23%nat = Some "X".
Proof. split; [reflexivity|]. eexists. split; reflexivity. Qed.

(** ** The turn after a placement, a move or a flight (C5) *)

Lemma material_loss_wins_on_material (g : Game) :
  material_loss g = wins_on_material g (current_player g).
Proof. done. Qed.

Lemma phase_for_set_current_phase (g : Game) (ph : GamePhase) :
  phase_for (set_current_phase g ph) = phase_for g.
Proof. done. Qed.

Lemma turn_result_spec (g : Game) (mill : bool) :
  let g' := turn_result g mill in
  wins_on_material g' (current_player g) = material_loss g
  ∧ (material_loss g = true →
     current_phase g' = GAME_OVER ∧ current_player g' = current_player g)
  ∧ (material_loss g = false → mill = true →
     current_phase g' = REMOVING_PIECE ∧ current_player g' = current_player g)
  ∧ (material_loss g = false → mill = false →
     current_player g' = other (current_player g) ∧ current_phase g' = phase_for g').
Proof.
  unfold turn_result. destruct (material_loss g) eqn:Hm, mill; cbn zeta;
    (split; [exact Hm|]); repeat split; intros; try done.
Qed.

Lemma relocate_result (bm : BoardManager) (p q : Z) (sym : string) (bm' : BoardManager) :
  relocate bm p q sym = Returned true bm' →
  length (board bm') = length (board bm) ∧ getitem (board bm') q = Ok sym.
Proof.
  unfold relocate, setitem.
  destruct (py_index _ p) as [k1|]; [|done]. cbn [read].
  rewrite length_insert.
  destruct (py_index _ q) as [k2|] eqn:Hk2; [|done]. cbn [read].
  intros [= <-]. cbn [board]. rewrite !length_insert. split; [done|].
  apply getitem_Ok. exists k2. rewrite !length_insert. split; [done|].
  apply list_lookup_insert_eq. rewrite length_insert. by apply py_index_lt in Hk2.
Qed.

Lemma move_player_piece_result (bm : BoardManager) (p q : Z) (sym : string)
    (bm' : BoardManager) :
  move_player_piece bm p q sym = Returned true bm' →
  length (board bm') = length (board bm) ∧ getitem (board bm') q = Ok sym.
Proof.
  unfold move_player_piece.
  destruct (getitem (board bm) p) as [c|]; [|done]. cbn [read].
  destruct (String.eqb c sym); [|done].
  destruct (is_position_empty bm q) as [[]|]; try done. cbn [read].
  destruct (getitem adjacent_arrays p) as [adj|]; [|done]. cbn [read].
  destruct (contains adj q); [|done]. apply relocate_result.
Qed.

Lemma fly_player_piece_result (bm : BoardManager) (p q : Z) (sym : string)
    (bm' : BoardManager) :
  fly_player_piece bm p q sym = Returned true bm' →
  length (board bm') = length (board bm) ∧ getitem (board bm') q = Ok sym.
Proof.
  unfold fly_player_piece.
  destruct (getitem (board bm) p) as [c|]; [|done]. cbn [read].
  destruct (String.eqb c sym); [|done].
  destruct (is_position_empty bm q) as [[]|]; try done. cbn [read].
  apply relocate_result.
Qed.

Lemma add_player_piece_result (bm : BoardManager) (q : Z) (sym : string)
    (bm' : BoardManager) :
  add_player_piece bm q sym = Returned true bm' →
  length (board bm') = length (board bm) ∧ getitem (board bm') q = Ok sym.
Proof.
  unfold add_player_piece, is_position_empty, setitem.
  destruct (getitem (board bm) q) as [c|] eqn:Hc; [|done]. cbn [rbind read].
  destruct (String.eqb c "."); [|done].
  destruct (py_index _ q) as [k|] eqn:Hk; [|done]. cbn [read].
  intros [= <-]. cbn [board]. rewrite length_insert. split; [done|].
  apply getitem_Ok. exists k. rewrite length_insert. split; [done|].
  apply list_lookup_insert_eq. by apply py_index_lt in Hk.
Qed.

Lemma place_piece_hand (p : Player) :
  0 ≤ pieces_in_hand p → 0 ≤ pieces_in_hand (snd (place_piece p))
  ∧ player_symbol (snd (place_piece p)) = player_symbol p.
Proof.
  unfold place_piece. intros H0.
  destruct (Z.ltb_spec 0 (pieces_in_hand p)); cbn; (split; [lia | done]).
Qed.

(** The state in which [finalize_turn] runs after a successful
    relocation, and the state it leaves. *)
Lemma successful_relocation (g : Game) (position : Z) (g' : Game) :
  board_ok (board_manager g) → hands_ok g → relocating g position →
  handle_action g position = Returned true g' →
  ∃ gm,
    current_player gm = current_player g
    ∧ board_ok (board_manager gm) ∧ hands_ok gm
    ∧ player_symbol (current gm) = player_symbol (current g)
    ∧ getitem (board (board_manager gm)) position = Ok (player_symbol (current g))
    ∧ let r := turn_result gm (protected (board (board_manager gm))
                                 (player_symbol (current g)) position) in
      g' = r ∨ g' = set_selected_piece r None.
Proof.
  intros Hlen Hhands Hrel. unfold handle_action.
  destruct Hrel as [->|[Hph (s & Hs & Hne)]].
  - (* placing *)
    unfold handle_placing, on_board_manager.
    cbn [record_game_action set_game_history board_manager current].
    set (g1 := record_game_action g position).
    destruct (add_player_piece _ _ _) as [[] bm|bm] eqn:Hadd; [|done..].
    apply add_player_piece_result in Hadd as [Hlen' Hget].
    set (g2 := set_player _ _ _).
    assert (Hcur : current_player g2 = current_player g).
    { unfold g2, set_player. by destruct g as [? ? ? []]. }
    assert (Hb2 : board_manager g2 = bm).
    { unfold g2, set_player. by destruct g as [? ? ? []]. }
    destruct (place_piece_hand (current g)) as [Hh Hsym].
    { destruct Hhands. unfold current, player. by destruct (current_player g). }
    assert (Hhands2 : hands_ok g2 ∧ player_symbol (current g2) = player_symbol (current g)).
    { destruct Hhands. unfold hands_ok, g2, set_player, current, player in *.
      destruct g as [? ? ? []]; cbn in *; done. }
    destruct Hhands2 as [Hhands2 Hsym2].
    rewrite (finalize_turn_spec g2 position (player_symbol (current g)));
      [| by rewrite Hb2; unfold board_ok; rewrite Hlen' | done | by rewrite Hb2].
    cbn [obind]. intros [= <-]. exists g2.
    rewrite Hb2. split_and!; try done.
    + unfold board_ok. by rewrite Hlen'.
    + by left.
  - (* moving or flying *)
    assert (Hneq : (position =? s) = false) by (apply Z.eqb_neq; congruence).
    assert (Hcommon : ∀ bm, length (board bm) = length (board (board_manager g)) →
              getitem (board bm) position = Ok (player_symbol (current g)) →
              obind (finalize_turn (set_board_manager (record_game_action g position) bm)
                       position)
                    (λ _ g2, Returned true (set_selected_piece g2 None))
              = Returned true g' →
              ∃ gm,
                current_player gm = current_player g
                ∧ board_ok (board_manager gm) ∧ hands_ok gm
                ∧ player_symbol (current gm) = player_symbol (current g)
                ∧ getitem (board (board_manager gm)) position
                  = Ok (player_symbol (current g))
                ∧ let r := turn_result gm (protected (board (board_manager gm))
                                             (player_symbol (current g)) position) in
                  g' = r ∨ g' = set_selected_piece r None).
    { intros bm Hlen' Hget.
      set (gm := set_board_manager (record_game_action g position) bm).
      rewrite (finalize_turn_spec gm position (player_symbol (current g)));
        [| by unfold board_ok; cbn; rewrite Hlen' | done | done].
      cbn [obind]. intros [= <-]. exists gm. split_and!; try done.
      - unfold board_ok. cbn. by rewrite Hlen'.
      - by right. }
    destruct Hph as [->| ->].
    + unfold handle_moving, on_board_manager.
      cbn [record_game_action set_game_history board_manager current selected_piece].
      rewrite Hs, Hneq.
      destruct (move_player_piece _ _ _ _) as [[] bm|bm] eqn:Hmove; [|done..].
      apply move_player_piece_result in Hmove as [Hlen' Hget].
      by apply Hcommon.
    + unfold handle_flying, on_board_manager.
      cbn [record_game_action set_game_history board_manager current selected_piece].
      rewrite Hs, Hneq.
      destruct (fly_player_piece _ _ _ _) as [[] bm|bm] eqn:Hfly; [|done..].
      apply fly_player_piece_result in Hfly as [Hlen' Hget].
      by apply Hcommon.
Qed.

Lemma turn_outcome_deselect (actor : PlayerRef) (sym : string) (position : Z) (g' : Game) :
  turn_outcome actor sym position g' →
  turn_outcome actor sym position (set_selected_piece g' None).
Proof. done. Qed.

Lemma turn_outcome_turn_result (gm : Game) (position : Z) :
  board_ok (board_manager gm) → in_board position →
  getitem (board (board_manager gm)) position = Ok (player_symbol (current gm)) →
  turn_outcome (current_player gm) (player_symbol (current gm)) position
    (turn_result gm (protected (board (board_manager gm))
                       (player_symbol (current gm)) position)).
Proof.
  intros Hlen Hpos Hget.
  set (sym := player_symbol (current gm)) in *.
  set (m := protected (board (board_manager gm)) sym position).
  destruct (turn_result_frame gm m) as (_ & _ & Hb & _ & _).
  destruct (turn_result_spec gm m) as (Hw & Hover & Hmill & Hswitch).
  unfold turn_outcome. cbn zeta. rewrite Hb, Hw.
  assert (Hcell : board (board_manager gm) !! Z.to_nat position = Some sym).
  { destruct (who_on_position_in_board _ Hlen position Hpos) as (c & Hc & Hw').
    unfold who_on_position in Hw'. congruence. }
  assert (Hprot : m = true ↔ in_completed_mill (board (board_manager gm)) sym position)
    by apply protected_true.
  split_and!.
  - done.
  - unfold is_position_part_of_mill, who_on_position. rewrite Hb.
    fold (who_on_position (board_manager gm) position).
    fold (is_position_part_of_mill gm position).
    rewrite (is_position_part_of_mill_spec gm position sym Hlen Hget).
    fold (protected (board (board_manager gm)) sym position). fold m.
    rewrite <- Hprot. split; [by intros ?%Ok_inj | by intros ->].
  - done.
  - intros Hm Hin. apply Hmill; [done | by apply Hprot].
  - intros Hm Hnot. apply Hswitch; [done|].
    destruct m; [|done]. exfalso. by apply Hnot, Hprot.
Qed.

(** C5 (amended). After a successful placement, move or flight to a
    position in [0, 23], that position holds the actor's piece, and:
    when both hands are empty and the actor's opponent has fewer than
    three pieces on the board, the phase is [GAME_OVER] and the current
    player is unchanged; otherwise, when the position is part of a
    completed mill of the actor, the phase is [REMOVING_PIECE] and the
    current player is unchanged; otherwise the current player is switched
    and the phase is the one computed for the new current player. *)
Theorem turn_after_relocation (g : Game) (position : Z) (g' : Game) :
  board_ok (board_manager g) → hands_ok g → in_board position →
  relocating g position →
  handle_action g position = Returned true g' →
  turn_outcome (current_player g) (player_symbol (current g)) position g'.
Proof.
  intros Hlen Hhands Hpos Hrel Hrun.
  destruct (successful_relocation g position g' Hlen Hhands Hrel Hrun)
    as (gm & Hcur & Hlen' & _ & Hsym & Hget & Hg').
  rewrite <- Hcur, <- Hsym. rewrite <- Hsym in Hget, Hg'.
  destruct Hg' as [-> | ->].
  - by apply turn_outcome_turn_result.
  - by apply turn_outcome_deselect, turn_outcome_turn_result.
Qed.

Lemma turn_after_relocation_witness :
  handle_action before_mill_game 2 = Returned true mill_game
  ∧ turn_outcome Player1 "X" 2 mill_game.
Proof.
  split; [vm_compute; reflexivity|].
  apply (turn_after_relocation before_mill_game 2 mill_game).
  - reflexivity.
  - split; vm_compute; discriminate.
  - split; vm_compute; [discriminate | reflexivity].
  - left. reflexivity.
  - vm_compute. reflexivity.
Defined.

(** C5, as stated, fails: the move from 14 to 2 completes the mill
    [0, 1, 2] and the phase becomes [GAME_OVER], not [REMOVING_PIECE]; the
    move from 14 to 13 completes no mill and the current player is not
    switched. In both cases [finalize_turn] found the win condition first. *)
Lemma game_over_before_mill_check :
  (∃ g', handle_action endgame 2 = Returned true g'
         ∧ is_position_part_of_mill g' 2 = Ok true
         ∧ current_phase g' = GAME_OVER ∧ current_player g' = Player1)
  ∧ (∃ g', handle_action endgame 13 = Returned true g'
           ∧ is_position_part_of_mill g' 13 = Ok false
           ∧ current_phase g' = GAME_OVER ∧ current_player g' = Player1).
Proof. split; eexists; (split; [vm_compute; reflexivity|]); by vm_compute. Qed.

(** The same in the state the calls [endgame_calls] reach from a new
    game. *)
Lemma game_over_before_mill_check_reachable :
  ∃ g', handle_action (run new_game endgame_calls) 2 = Returned true g'
        ∧ is_position_part_of_mill g' 2 = Ok true
        ∧ current_phase g' = GAME_OVER ∧ current_player g' = Player1.
Proof. eexists. split; [vm_compute; reflexivity|]. by vm_compute. Qed.

(** ** Win by blocking (C1) *)

(** C1 fails on the code. In [blockade_game] the opponent has pieces on
    the board and none of them has an allowed move, yet
    [check_win_condition] returns [False]: the test
    [pieces_in_hand >= 0 or ...] after the loop holds for every hand, so
    the [return True] of the win by blocking is never reached. *)
Theorem blockade_is_not_a_win :
  get_players_positions (board_manager blockade_game)
    (player_symbol (opponent_player blockade_game)) = Ok [0; 1; 2; 14]
  ∧ Forall (λ pos, get_allowed_moves blockade_game pos = Ok []) [0; 1; 2; 14]
  ∧ pieces_in_hand (current blockade_game) = 0
  ∧ pieces_in_hand (opponent_player blockade_game) = 0
  ∧ check_win_condition blockade_game = Ok false.
Proof. split_and!; try reflexivity. repeat constructor. Qed.

(** ** Occupied cells and the players' counters (C4) *)

Lemma count_cells_insert (P : string → bool) (b : list string) (k : nat) (c v : string) :
  b !! k = Some c →
  count_cells P (<[k := v]> b)
  = count_cells P b - (if P c then 1 else 0) + (if P v then 1 else 0).
Proof.
  revert k. induction b as [|x b IH]; intros [|k] Hk; simplify_eq/=.
  - lia.
  - rewrite (IH k Hk). lia.
Qed.

Lemma count_cells_nonneg (P : string → bool) (b : list string) : 0 ≤ count_cells P b.
Proof. induction b as [|x b IH]; simpl; [done|]. destruct (P x); lia. Qed.

Lemma count_cells_pos (P : string → bool) (b : list string) (k : nat) (c : string) :
  b !! k = Some c → P c = true → 0 < count_cells P b.
Proof.
  revert k. induction b as [|x b IH]; intros [|k] Hk Hc; simplify_eq/=.
  - rewrite Hc. pose proof (count_cells_nonneg P b). lia.
  - specialize (IH k Hk Hc). destruct (P x); lia.
Qed.

Lemma count_cells_replicate_false (P : string → bool) (n : nat) (c : string) :
  P c = false → count_cells P (replicate n c) = 0.
Proof. intros Hc. induction n as [|n IH]; simpl; [done|]. rewrite Hc, IH. done. Qed.

Lemma counts_ok_frame (g g' : Game) :
  player1 g' = player1 g → player2 g' = player2 g →
  board_manager g' = board_manager g →
  counts_ok g → counts_ok g'.
Proof.
  intros H1 H2 Hb [? ? Hs ? Hp ?].
  assert (Hpl : ∀ r, player g' r = player g r) by (intros []; done).
  split; unfold hands_ok, cell_count_invariant in *; rewrite ?H1, ?H2, ?Hb; try done.
  - intros r. rewrite Hpl. apply Hs.
  - intros r. rewrite Hpl. apply Hp.
Qed.

Lemma consistent_frame (g g' : Game) :
  player1 g' = player1 g → player2 g' = player2 g →
  board_manager g' = board_manager g →
  current_player g' = current_player g → current_phase g' = current_phase g →
  consistent g → consistent g'.
Proof.
  intros H1 H2 Hb Hc Hph [Hcounts Hplacing]. split.
  - by apply (counts_ok_frame g).
  - unfold current, player in *. rewrite Hph, Hc, H1, H2. done.
Qed.

Lemma phase_for_placing (g : Game) :
  phase_for g = PLACING → 0 < pieces_in_hand (current g).
Proof.
  unfold phase_for. destruct (material_loss g); [done|].
  destruct (Z.ltb_spec 0 (pieces_in_hand (current g))); [done|].
  by destruct (_ =? 3).
Qed.

Lemma consistent_turn_result (g : Game) (mill : bool) :
  counts_ok g → consistent (turn_result g mill).
Proof.
  intros Hcounts. destruct (turn_result_frame g mill) as (H1 & H2 & Hb & _ & _).
  split; [by apply (counts_ok_frame g)|].
  unfold turn_result. destruct (material_loss g); [done|]. destruct mill; [done|].
  cbn [current_phase set_current_phase]. intros Hph%phase_for_placing. done.
Qed.

Lemma consistent_new_game (player_1 player_2 : Player) :
  player_symbol player_1 ≠ "." → player_symbol player_2 ≠ "." →
  player_symbol player_1 ≠ player_symbol player_2 →
  consistent (Game_init player_1 player_2).
Proof.
  intros Hs1 Hs2 Hd.
  assert (Hnone : ∀ sym, sym ≠ "." → pieces_of sym make_new_board = 0).
  { intros sym Hsym. unfold pieces_of, make_new_board.
    apply count_cells_replicate_false. unfold is_piece_of.
    apply String.eqb_neq. congruence. }
  split; [split|].
  - reflexivity.
  - split; cbn -[make_new_board]; lia.
  - by intros [].
  - done.
  - intros []; apply Hnone; done.
  - reflexivity.
  - intros _. cbn -[make_new_board]. lia.
Qed.

Lemma player_set_player (g : Game) (r : PlayerRef) (p : Player) :
  player (set_player g r p) r = p
  ∧ player (set_player g r p) (other r) = player g (other r)
  ∧ board_manager (set_player g r p) = board_manager g
  ∧ current_player (set_player g r p) = current_player g
  ∧ current_phase (set_player g r p) = current_phase g.
Proof. by destruct r. Qed.

(** The counters after the board changed from [b] to [b'] and the
    player [r] got the counters [hand] and [onboard]. *)
Lemma counts_ok_update (g : Game) (r : PlayerRef) (b' : list string) (hand onboard : Z) :
  counts_ok g →
  length b' = 24%nat → 0 ≤ hand →
  pieces_of (player_symbol (player g r)) b' = onboard →
  pieces_of (player_symbol (player g (other r))) b'
  = pieces_on_board (player g (other r)) →
  occupied_cells b' = onboard + pieces_on_board (player g (other r)) →
  counts_ok (set_player (set_board_manager g (mkBoard b')) r
                        (with_counters (player g r) hand onboard)).
Proof.
  intros [Hlen [Hh1 Hh2] Hsym Hdist Hpieces Hocc] Hlen' Hhand Hmine Htheirs Hocc'.
  destruct g as [p1 p2 bm cur ph sel hist lm].
  destruct r; cbn in *.
  - split; cbn; try done.
    + intros []; [apply (Hsym Player1) | apply (Hsym Player2)].
    + by intros [].
  - split; cbn; try done.
    + intros []; [apply (Hsym Player1) | apply (Hsym Player2)].
    + by intros [].
    + unfold cell_count_invariant, occupied_cells in *. cbn. lia.
Qed.

Lemma handle_placing_consistent (g : Game) (position : Z) :
  consistent g → current_phase g = PLACING →
  consistent (final_state (handle_placing g position)).
Proof.
  intros Hcons Hph. pose proof Hcons as [Hc Hpl]. specialize (Hpl Hph).
  pose proof Hc as [Hlen Hhands Hsym Hdist Hpieces Hocc].
  unfold handle_placing, on_board_manager, add_player_piece, is_position_empty.
  destruct (getitem (board (board_manager g)) position) as [c|] eqn:Hget;
    cbn [rbind read]; [|by rewrite set_board_manager_id].
  destruct (String.eqb_spec c ".") as [->|Hne]; [|by rewrite set_board_manager_id].
  destruct (setitem_after_getitem _ position (player_symbol (current g)) _ Hget)
    as (k & Hk & Hcell & ->). cbn [read].
  set (b' := <[k := player_symbol (current g)]> (board (board_manager g))).
  set (g1 := set_board_manager g (mkBoard b')).
  change (current g1) with (current g). change (current_player g1) with (current_player g).
  unfold place_piece. apply Z.ltb_lt in Hpl as Hpl'. rewrite Hpl'. cbn [snd].
  assert (Hlen' : length b' = 24%nat) by (unfold b'; by rewrite length_insert).
  assert (Hget' : getitem b' position = Ok (player_symbol (current g))).
  { apply getitem_Ok. exists k. rewrite Hlen', <- Hlen. split; [done|].
    apply list_lookup_insert_eq. by apply py_index_lt in Hk. }
  assert (Hcounts : counts_ok (set_player g1 (current_player g)
            (with_counters (current g) (pieces_in_hand (current g) - 1)
                           (pieces_on_board (current g) + 1)))).
  { unfold current in *.
    apply counts_ok_update; try done; try lia; unfold b', pieces_of, occupied_cells.
    - rewrite (count_cells_insert _ _ _ _ _ Hcell). unfold is_piece_of.
      rewrite String.eqb_refl.
      assert (String.eqb "." (player_symbol (player g (current_player g))) = false) as ->.
      { apply String.eqb_neq. intros E. by apply (Hsym (current_player g)). }
      rewrite <- (Hpieces (current_player g)). unfold pieces_of, is_piece_of. lia.
    - rewrite (count_cells_insert _ _ _ _ _ Hcell). unfold is_piece_of.
      assert (String.eqb "." (player_symbol (player g (other (current_player g)))) = false)
        as ->.
      { apply String.eqb_neq. intros E. by apply (Hsym (other (current_player g))). }
      assert (String.eqb (player_symbol (player g (current_player g)))
                (player_symbol (player g (other (current_player g)))) = false) as ->.
      { apply String.eqb_neq. destruct (current_player g); cbn; congruence. }
      rewrite <- (Hpieces (other (current_player g))). unfold pieces_of, is_piece_of. lia.
    - rewrite (count_cells_insert _ _ _ _ _ Hcell). unfold is_occupied.
      assert (String.eqb (player_symbol (player g (current_player g))) "." = false) as ->.
      { apply String.eqb_neq. apply (Hsym (current_player g)). }
      cbn. unfold cell_count_invariant, occupied_cells, is_occupied in *.
      destruct (current_player g); cbn; lia. }
  set (g2 := set_player _ _ _) in *.
  assert (Hb2 : board_manager g2 = mkBoard b').
  { unfold g2. by destruct (current_player g). }
  rewrite (finalize_turn_spec g2 position (player_symbol (current g)));
    [| by destruct Hcounts | by destruct Hcounts | by rewrite Hb2].
  cbn [obind final_state]. by apply consistent_turn_result.
Qed.

Lemma relocate_counts (bm : BoardManager) (p q : Z) (sym : string) (bm' : BoardManager) :
  getitem (board bm) p = Ok sym → getitem (board bm) q = Ok "." → sym ≠ "." →
  relocate bm p q sym = Returned true bm' →
  ∀ P, count_cells P (board bm') = count_cells P (board bm).
Proof.
  intros (k1 & Hk1 & Hc1)%getitem_Ok (k2 & Hk2 & Hc2)%getitem_Ok Hsym.
  unfold relocate, setitem. rewrite Hk1. cbn [read]. rewrite length_insert, Hk2. cbn [read].
  intros [= <-] P. cbn [board].
  assert (k1 ≠ k2) by (intros ->; congruence).
  rewrite (count_cells_insert P _ k2 "." sym) by (by rewrite list_lookup_insert_ne).
  rewrite (count_cells_insert P _ k1 sym ".") by done. lia.
Qed.

Lemma move_player_piece_counts (bm : BoardManager) (p q : Z) (sym : string)
    (bm' : BoardManager) :
  sym ≠ "." → move_player_piece bm p q sym = Returned true bm' →
  ∀ P, count_cells P (board bm') = count_cells P (board bm).
Proof.
  intros Hsym. unfold move_player_piece, is_position_empty.
  destruct (getitem (board bm) p) as [c|] eqn:Hc; [|done]. cbn [read].
  destruct (String.eqb_spec c sym) as [->|]; [|done].
  destruct (getitem (board bm) q) as [d|] eqn:Hd; [|done]. cbn [rbind read].
  destruct (String.eqb_spec d ".") as [->|]; [|done].
  destruct (getitem adjacent_arrays p) as [adj|]; [|done]. cbn [read].
  destruct (contains adj q); [|done]. by apply relocate_counts.
Qed.

Lemma fly_player_piece_counts (bm : BoardManager) (p q : Z) (sym : string)
    (bm' : BoardManager) :
  sym ≠ "." → fly_player_piece bm p q sym = Returned true bm' →
  ∀ P, count_cells P (board bm') = count_cells P (board bm).
Proof.
  intros Hsym. unfold fly_player_piece, is_position_empty.
  destruct (getitem (board bm) p) as [c|] eqn:Hc; [|done]. cbn [read].
  destruct (String.eqb_spec c sym) as [->|]; [|done].
  destruct (getitem (board bm) q) as [d|] eqn:Hd; [|done]. cbn [rbind read].
  destruct (String.eqb_spec d ".") as [->|]; [|done].
  by apply relocate_counts.
Qed.

Lemma counts_ok_same_counts (g : Game) (bm' : BoardManager) :
  counts_ok g → length (board bm') = 24%nat →
  (∀ P, count_cells P (board bm') = count_cells P (board (board_manager g))) →
  counts_ok (set_board_manager g bm').
Proof.
  intros [Hlen Hhands Hsym Hdist Hpieces Hocc] Hlen' Hsame. split; try done.
  - intros r. unfold pieces_of. cbn [set_board_manager board_manager].
    rewrite Hsame. apply (Hpieces r).
  - unfold cell_count_invariant, occupied_cells in *.
    cbn [set_board_manager board_manager]. by rewrite Hsame.
Qed.

Lemma consistent_deselect (g : Game) (s : option Z) :
  consistent g → consistent (set_selected_piece g s).
Proof. by apply consistent_frame. Qed.

(** The second step of a move or of a flight, given what the board
    method did. *)
Lemma relocation_consistent (g : Game) (position : Z) (o : outcome BoardManager bool) :
  consistent g →
  untouched (board_manager g) o →
  (∀ bm', o = Returned true bm' →
     length (board bm') = length (board (board_manager g))
     ∧ getitem (board bm') position = Ok (player_symbol (current g))
     ∧ ∀ P, count_cells P (board bm') = count_cells P (board (board_manager g))) →
  consistent (final_state
    (on_board_manager g o (λ moved g1,
       if moved then
         obind (finalize_turn g1 position) (λ _ g2,
           Returned true (set_selected_piece g2 None))
       else Returned false g1))).
Proof.
  intros Hcons Hu Hok. unfold on_board_manager.
  destruct o as [[] bm'|bm']; cbn in Hu.
  - destruct (Hok bm' eq_refl) as (Hlen' & Hget & Hsame).
    pose proof Hcons as [Hc _]. pose proof Hc as [Hlen Hhands _ _ _ _].
    assert (Hc' : counts_ok (set_board_manager g bm')).
    { apply counts_ok_same_counts; [done | by rewrite Hlen' | done]. }
    rewrite (finalize_turn_spec _ position (player_symbol (current g)));
      [| by destruct Hc' | done | done].
    cbn [obind final_state]. by apply consistent_deselect, consistent_turn_result.
  - subst bm'. by rewrite set_board_manager_id.
  - subst bm'. by rewrite set_board_manager_id.
Qed.

Lemma handle_moving_consistent (g : Game) (position : Z) :
  consistent g → consistent (final_state (handle_moving g position)).
Proof.
  intros Hcons. pose proof Hcons as [[_ _ Hsym _ _ _] _].
  unfold handle_moving. destruct (selected_piece g) as [s|].
  - destruct (position =? s); [by apply consistent_deselect|].
    apply relocation_consistent; [done | apply move_player_piece_untouched |].
    intros bm' Hmove. destruct (move_player_piece_result _ _ _ _ _ Hmove) as [? ?].
    split_and!; [done..|].
    by apply (move_player_piece_counts _ _ _ _ _ (Hsym (current_player g)) Hmove).
  - destruct (who_on_position _ _) as [c|]; [|done]. cbn [read].
    destruct (String.eqb c _); [|done].
    destruct (get_empty_adjacent_positions _ _) as [[|a adj]|]; cbn [read final_state];
      [done | by apply consistent_deselect | done].
Qed.

Lemma handle_flying_consistent (g : Game) (position : Z) :
  consistent g → consistent (final_state (handle_flying g position)).
Proof.
  intros Hcons. pose proof Hcons as [[_ _ Hsym _ _ _] _].
  unfold handle_flying. destruct (selected_piece g) as [s|].
  - destruct (position =? s); [by apply consistent_deselect|].
    apply relocation_consistent; [done | apply fly_player_piece_untouched |].
    intros bm' Hfly. destruct (fly_player_piece_result _ _ _ _ _ Hfly) as [? ?].
    split_and!; [done..|].
    by apply (fly_player_piece_counts _ _ _ _ _ (Hsym (current_player g)) Hfly).
  - destruct (who_on_position _ _) as [c|]; [|done]. cbn [read].
    destruct (String.eqb c _); cbn [final_state]; [by apply consistent_deselect | done].
Qed.

Lemma elem_of_removal_list (b : list string) (sym : string) (p : Z) :
  p ∈ removal_list b sym → occupies b sym p.
Proof.
  unfold removal_list.
  destruct (List.filter (λ p, negb (protected b sym p)) _) as [|x xs] eqn:E.
  - by intros ?%elem_of_players_positions.
  - rewrite <- E. by intros [?%elem_of_players_positions _]%elem_of_List_filter.
Qed.

Lemma handle_removing_piece_consistent (g : Game) (position : Z) :
  consistent g → consistent (final_state (handle_removing_piece g position)).
Proof.
  intros Hcons. pose proof Hcons as [Hc _].
  pose proof Hc as [Hlen Hhands Hsym Hdist Hpieces Hocc].
  unfold handle_removing_piece. rewrite get_allowed_removals_spec by done. cbn [read].
  destruct (contains _ position) eqn:Hin; [|done].
  apply contains_true, elem_of_removal_list in Hin as [Hpos Hcell].
  set (r := other (current_player g)) in *.
  change (opponent_player g) with (player g r) in *.
  set (sym := player_symbol (player g r)) in *.
  rewrite Hlen in Hpos.
  assert (Hk : py_index (length (board (board_manager g))) position
               = Some (Z.to_nat position)) by (apply py_index_nonneg; rewrite Hlen; lia).
  assert (Hne : String.eqb sym "." = false) by (apply String.eqb_neq, Hsym).
  unfold on_board_manager, remove_player_piece, is_position_empty, getitem, setitem.
  rewrite Hk, Hcell. cbn [rbind read]. rewrite Hne. cbn [negb read].
  set (b' := <[Z.to_nat position := "."]> (board (board_manager g))).
  change (opponent_player (set_board_manager g (mkBoard b'))) with (player g r).
  change (current_player (set_board_manager g (mkBoard b'))) with (current_player g).
  fold r.
  assert (Hpositive : 0 < pieces_on_board (player g r)).
  { rewrite <- (Hpieces r). apply (count_cells_pos _ _ _ _ Hcell).
    unfold is_piece_of. apply String.eqb_refl. }
  unfold remove_piece. apply Z.ltb_lt in Hpositive as Hpositive'.
  rewrite Hpositive'. cbn [snd].
  assert (Hlen' : length b' = 24%nat) by (unfold b'; by rewrite length_insert).
  assert (Hget' : getitem b' position = Ok ".").
  { apply getitem_Ok. exists (Z.to_nat position). rewrite Hlen', <- Hlen.
    split; [done|]. apply list_lookup_insert_eq. rewrite Hlen. lia. }
  assert (Hcounts : counts_ok (set_player (set_board_manager g (mkBoard b')) r
            (with_counters (player g r) (pieces_in_hand (player g r))
                           (pieces_on_board (player g r) - 1)))).
  { apply counts_ok_update; try done; unfold b', pieces_of, occupied_cells.
    - destruct Hhands. unfold r. by destruct (current_player g).
    - rewrite (count_cells_insert _ _ _ _ _ Hcell). unfold is_piece_of. fold sym.
      rewrite String.eqb_refl.
      assert (String.eqb "." sym = false) as ->.
      { apply String.eqb_neq. intros E. by apply (Hsym r). }
      rewrite <- (Hpieces r). unfold pieces_of, is_piece_of. fold sym. lia.
    - rewrite (count_cells_insert _ _ _ _ _ Hcell). unfold is_piece_of.
      assert (String.eqb "." (player_symbol (player g (other r))) = false) as ->.
      { apply String.eqb_neq. intros E. by apply (Hsym (other r)). }
      assert (String.eqb sym (player_symbol (player g (other r))) = false) as ->.
      { apply String.eqb_neq. unfold sym, r. destruct (current_player g); cbn; congruence. }
      rewrite <- (Hpieces (other r)). unfold pieces_of, is_piece_of. lia.
    - rewrite (count_cells_insert _ _ _ _ _ Hcell). unfold is_occupied.
      rewrite Hne. cbn.
      unfold cell_count_invariant, occupied_cells, is_occupied in Hocc.
      unfold r. destruct (current_player g); cbn; lia. }
  set (g2 := set_player _ _ _) in *.
  assert (Hb2 : board_manager g2 = mkBoard b').
  { unfold g2, r. by destruct (current_player g). }
  rewrite check_win_condition_material by by destruct Hcounts. cbn [read].
  rewrite (finalize_turn_spec g2 position ".");
    [| by destruct Hcounts | by destruct Hcounts | by rewrite Hb2].
  cbn [obind final_state]. by apply consistent_turn_result.
Qed.

Lemma consistent_record_game_action (g : Game) (position : Z) :
  consistent g → consistent (record_game_action g position).
Proof. by apply consistent_frame. Qed.

Lemma handle_action_consistent (g : Game) (position : Z) :
  consistent g → consistent (final_state (handle_action g position)).
Proof.
  intros Hcons. unfold handle_action.
  pose proof (consistent_record_game_action g position Hcons) as Hrec.
  destruct (current_phase g) eqn:Hph.
  - by apply handle_placing_consistent.
  - by apply handle_moving_consistent.
  - by apply handle_flying_consistent.
  - by apply handle_removing_piece_consistent.
  - done.
Qed.

Lemma play_consistent (g : Game) (positions : list Z) :
  consistent g → consistent (final_state (play g positions)).
Proof.
  revert g. induction positions as [|p positions IH]; intros g Hcons; [done|].
  pose proof (handle_action_consistent g p Hcons) as Hstep.
  cbn [play]. destruct (handle_action g p) as [ok g'|g']; [by apply IH | done].
Qed.

(** C4 (amended). In a game of two players with distinct, non-empty
    symbols, the number of occupied cells equals the sum of the two
    players' [pieces_on_board] in the initial state and after every
    sequence of calls of [handle_action], in every phase, whether the last
    call returned or raised. [undo_action] is not covered: it restores the
    board and leaves the counters as they are. *)
Theorem cell_count_invariant_play (player_1 player_2 : Player) (positions : list Z) :
  player_symbol player_1 ≠ "." → player_symbol player_2 ≠ "." →
  player_symbol player_1 ≠ player_symbol player_2 →
  cell_count_invariant (Game_init player_1 player_2)
  ∧ cell_count_invariant (final_state (play (Game_init player_1 player_2) positions)).
Proof.
  intros Hs1 Hs2 Hd.
  pose proof (consistent_new_game player_1 player_2 Hs1 Hs2 Hd) as Hinit.
  split.
  - by destruct Hinit as [[] _].
  - by destruct (play_consistent _ positions Hinit) as [[] _].
Qed.

Lemma cell_count_invariant_play_witness :
  cell_count_invariant new_game
  ∧ cell_count_invariant (final_state (play new_game [0; 3; 1; 4; 2; 3])).
Proof.
  apply (cell_count_invariant_play player_X player_O [0; 3; 1; 4; 2; 3]);
    discriminate.
Defined.

(** C4, as stated, fails at [undo_action]: after X placed at 0 the
    invariant holds (one occupied cell, counters 1 and 0); undoing the
    placement empties the board and leaves the counters at 1 and 0. *)
Lemma undo_breaks_cell_count :
  occupied_cells (board (board_manager placed_game)) = 1
  ∧ pieces_on_board (player1 placed_game) + pieces_on_board (player2 placed_game) = 1
  ∧ ∃ g', undo_action placed_game = (true, g')
          ∧ occupied_cells (board (board_manager g')) = 0
          ∧ pieces_on_board (player1 g') + pieces_on_board (player2 g') = 1.
Proof. split_and!; [reflexivity..|]. eexists. split_and!; reflexivity. Qed.

(** ** Undo and the identity of the board lists (C9) *)

Lemma pop_app {A} (l : list A) (x : A) : pop (l ++ [x]) = Some (l, x).
Proof. induction l as [|y l IH]; simpl; [done|]. by rewrite IH. Qed.

Lemma pop_nil_inv {A} (l : list A) : pop l = None → l = [].
Proof. destruct l as [|x l]; [done|]. simpl. by destruct (pop l) as [[]|]. Qed.

Lemma copy_spec (σ : gmap Store.loc (list string)) (l : Store.loc) (cells : list string) :
  σ !! l = Some cells →
  let '(σ', l') := Store.copy σ l in
  (l' ∉ dom σ) ∧ l' ≠ l
  ∧ σ' !! l' = Some cells
  ∧ ∀ l0, l0 ∈ dom σ → σ' !! l0 = σ !! l0.
Proof.
  intros Hl. unfold Store.copy.
  pose proof (is_fresh (dom σ)) as Hfresh.
  assert (Hne : fresh (dom σ) ≠ l).
  { intros E. apply Hfresh. rewrite E. apply elem_of_dom. eauto. }
  split_and!; [done | done | |].
  - rewrite lookup_insert_eq. f_equal. by rewrite (lookup_total_correct _ _ _ Hl).
  - intros l0 Hl0. apply lookup_insert_ne. intros E. apply Hfresh. by rewrite E.
Qed.

(** C9. [undo_action] on an empty log returns [False] and leaves the
    whole game state as it is. On a log whose last entry is [last] it
    returns [True], removes that entry from the log, and sets the current
    player and the phase to the ones of [last]; the board becomes a new
    list object with the cells of the board of [last]: it is not the list
    of the snapshot nor any list that existed before, no existing list is
    changed, and a later write to the board leaves the list of the
    snapshot as it is. Counters and selected piece are as before. *)
Theorem undo_action_spec (h : Store.GameRef) :
  (Store.history h = [] → Store.undo_action h = (false, h))
  ∧ (∀ log last cells,
       Store.history h = log ++ [last] →
       Store.heap h !! Store.ref_board last = Some cells →
       ∃ h', Store.undo_action h = (true, h')
             ∧ Store.history h' = log
             ∧ Store.turn h' = Store.ref_player last
             ∧ Store.phase h' = Store.ref_phase last
             ∧ Store.heap h' !! Store.board_ref h' = Some cells
             ∧ Store.board_ref h' ≠ Store.ref_board last
             ∧ (Store.board_ref h' ∉ dom (Store.heap h))
             ∧ (∀ l, l ∈ dom (Store.heap h) → Store.heap h' !! l = Store.heap h !! l)
             ∧ (∀ k sym, Store.heap (Store.write_board h' k sym) !! Store.ref_board last
                         = Some cells)
             ∧ Store.first_player h' = Store.first_player h
             ∧ Store.second_player h' = Store.second_player h
             ∧ Store.selection h' = Store.selection h
             ∧ Store.moves h' = Store.moves h).
Proof.
  split.
  - intros Hempty. unfold Store.undo_action. by rewrite Hempty.
  - intros log last cells Hlog Hcells. unfold Store.undo_action.
    rewrite Hlog, pop_app.
    pose proof (copy_spec _ _ _ Hcells) as Hcopy.
    destruct (Store.copy _ _) as [σ' l'].
    destruct Hcopy as (Hfresh & Hne & Hnew & Hold).
    eexists. split; [reflexivity|]. cbn.
    split_and!; try done.
    intros k sym. rewrite lookup_insert_ne by done.
    rewrite Hold; [done|]. apply elem_of_dom. eauto.
Qed.

Lemma undo_action_spec_witness :
  ∃ h', Store.undo_action logged_game = (true, h')
        ∧ Store.history h' = []
        ∧ Store.turn h' = Player1
        ∧ Store.phase h' = PLACING
        ∧ Store.heap h' !! Store.board_ref h' = Some make_new_board
        ∧ Store.board_ref h' ≠ 2%positive.
Proof.
  destruct (proj2 (undo_action_spec logged_game) []
              (Store.mkSnapshotRef 2%positive Player1 PLACING 0) make_new_board)
    as (h' & Hrun & Hlog & Hturn & Hphase & Hboard & Hne & _).
  - reflexivity.
  - reflexivity.
  - exists h'. split_and!; assumption.
Defined.

(** The value model [undo_action] is what [Store.undo_action] does to the
    game the references denote. *)
Lemma undo_action_refines (h : Store.GameRef) :
  Store.live h →
  fst (undo_action (Store.game_of h)) = fst (Store.undo_action h)
  ∧ snd (undo_action (Store.game_of h)) = Store.game_of (snd (Store.undo_action h)).
Proof.
  intros [Hboard Hlog]. unfold undo_action, Store.undo_action.
  cbn [Store.game_of game_history].
  destruct (pop (Store.history h)) as [[log last]|] eqn:Hpop.
  - assert (Store.history h = log ++ [last]) as Hh.
    { clear Hlog. revert log Hpop. induction (Store.history h) as [|x l IH]; [done|].
      simpl. destruct (pop l) as [[l' y]|] eqn:E.
      - intros log [= <- <-]. simpl. f_equal. by apply IH.
      - intros log [= <- <-]. by rewrite (pop_nil_inv l E). }
    rewrite Hh, fmap_app. cbn [fmap list_fmap]. rewrite pop_app.
    assert (Hlast : Store.ref_board last ∈ dom (Store.heap h)).
    { apply Hlog. rewrite Hh. set_solver. }
    apply elem_of_dom in Hlast as [cells Hcells].
    pose proof (copy_spec _ _ _ Hcells) as Hcopy.
    destruct (Store.copy _ _) as [σ' l'].
    destruct Hcopy as (Hfresh & Hne & Hnew & Hold).
    split; [done|]. cbn. unfold Store.game_of. cbn.
    unfold set_current_phase, set_current_player, set_board_manager, set_game_history.
    cbn. rewrite (lookup_total_correct _ _ _ Hnew), (lookup_total_correct _ _ _ Hcells).
    f_equal. apply list_fmap_ext. intros i s Hs.
    unfold Store.snapshot_of. f_equal.
    assert (Hin : Store.ref_board s ∈ dom (Store.heap h)).
    { apply Hlog. rewrite Hh. apply elem_of_app. left. by apply list_elem_of_lookup_2 in Hs. }
    rewrite !lookup_total_alt, Hold; done.
  - apply pop_nil_inv in Hpop. rewrite Hpop. done.
Qed.

Lemma record_game_action_refines (h : Store.GameRef) (position : Z) :
  Store.live h →
  Store.game_of (Store.record_game_action h position)
  = record_game_action (Store.game_of h) position.
Proof.
  intros [Hboard Hlog]. unfold Store.record_game_action, record_game_action.
  apply elem_of_dom in Hboard as [cells Hcells].
  pose proof (copy_spec _ _ _ Hcells) as Hcopy.
  destruct (Store.copy _ _) as [σ' l'].
  destruct Hcopy as (Hfresh & Hne & Hnew & Hold).
  unfold Store.game_of, set_game_history. cbn.
  assert (Hb : σ' !! Store.board_ref h = Some cells).
  { rewrite Hold; [done|]. apply elem_of_dom. eauto. }
  rewrite (lookup_total_correct _ _ _ Hb), (lookup_total_correct _ _ _ Hcells).
  f_equal. rewrite fmap_app. f_equal.
  - apply list_fmap_ext. intros i s Hs. unfold Store.snapshot_of. f_equal.
    rewrite !lookup_total_alt, Hold; [done|].
    apply Hlog. by apply list_elem_of_lookup_2 in Hs.
  - cbn. unfold Store.snapshot_of. cbn. by rewrite (lookup_total_correct _ _ _ Hnew).
Qed.

Lemma record_game_action_unaliased (h : Store.GameRef) (position : Z) :
  Store.live h → unaliased h →
  Store.live (Store.record_game_action h position)
  ∧ unaliased (Store.record_game_action h position).
Proof.
  intros [Hboard Hlog] Hun. unfold Store.record_game_action, Store.copy.
  pose proof (is_fresh (dom (Store.heap h))) as Hfresh.
  split; [split|]; cbn.
  - set_solver.
  - intros s [Hs|Hs]%elem_of_app.
    + specialize (Hlog s Hs). set_solver.
    + apply list_elem_of_singleton in Hs as ->. cbn. set_solver.
  - intros s [Hs|Hs]%elem_of_app; [by apply Hun|].
    apply list_elem_of_singleton in Hs as ->. cbn. intros E. apply Hfresh. by rewrite E.
Qed.

Lemma undo_action_unaliased (h : Store.GameRef) :
  Store.live h →
  Store.live (snd (Store.undo_action h)) ∧ unaliased (snd (Store.undo_action h)).
Proof.
  intros [Hboard Hlog]. unfold Store.undo_action.
  destruct (pop (Store.history h)) as [[log last]|] eqn:Hpop.
  - assert (Hsub : ∀ s, s ∈ log → s ∈ Store.history h).
    { clear Hlog. revert log Hpop. induction (Store.history h) as [|x l IH]; [done|].
      simpl. destruct (pop l) as [[l' y]|] eqn:E.
      - intros log [= <- <-] s [->|Hs]%elem_of_cons; [left | right; by apply (IH l')].
      - intros log [= <- <-] s Hs. by apply elem_of_nil in Hs. }
    unfold Store.copy. pose proof (is_fresh (dom (Store.heap h))) as Hfresh.
    split; [split|]; cbn.
    + set_solver.
    + intros s Hs. specialize (Hlog s (Hsub s Hs)). set_solver.
    + intros s Hs E. cbn in E. apply Hfresh. rewrite <- E. by apply Hlog, Hsub.
  - apply pop_nil_inv in Hpop. cbn. split; [done|].
    intros s Hs. rewrite Hpop in Hs. by apply elem_of_nil in Hs.
Qed.


(** ** Well-formed states *)

Lemma wf_game_turn_result (g : Game) (mill : bool) :
  wf_game g → wf_game (turn_result g mill).
Proof.
  intros [Hb Hh Hs Hl].
  destruct (turn_result_frame g mill) as (H1 & H2 & Hbm & Hsel & Hhist).
  split; unfold hands_ok, selection_ok in *; rewrite ?H1, ?H2, ?Hbm, ?Hsel, ?Hhist; done.
Qed.

Lemma wf_game_deselect (g : Game) : wf_game g → wf_game (set_selected_piece g None).
Proof. intros [Hb Hh Hs Hl]. by split. Qed.

Lemma wf_game_select (g : Game) (position : Z) (c : string) :
  wf_game g → getitem (board (board_manager g)) position = Ok c →
  wf_game (set_selected_piece g (Some position)).
Proof.
  intros [Hb Hh Hs Hl] Hget%getitem_Ok_in_range. split; try done.
  intros s [= <-]. rewrite Hb in Hget. lia.
Qed.

Lemma wf_game_set_board (g : Game) (bm : BoardManager) :
  wf_game g → length (board bm) = 24%nat → wf_game (set_board_manager g bm).
Proof. intros [Hb Hh Hs Hl] Hlen. by split. Qed.

Lemma wf_game_set_player (g : Game) (r : PlayerRef) (p : Player) :
  wf_game g → 0 ≤ pieces_in_hand p → wf_game (set_player g r p).
Proof.
  intros [Hb [Hh1 Hh2] Hs Hl] Hp. destruct r; split; try done; by split.
Qed.

Lemma wf_game_record_game_action (g : Game) (position : Z) :
  wf_game g → wf_game (record_game_action g position).
Proof.
  intros [Hb Hh Hs Hl]. split; try done.
  cbn. apply Forall_app. split; [done|]. by repeat constructor.
Qed.

Lemma hand_of_player (g : Game) (r : PlayerRef) :
  hands_ok g → 0 ≤ pieces_in_hand (player g r).
Proof. intros [? ?]. by destruct r. Qed.

Lemma handle_placing_wf (g : Game) (position : Z) :
  wf_game g → wf_game (final_state (handle_placing g position)).
Proof.
  intros Hwf. unfold handle_placing, on_board_manager.
  pose proof (add_player_piece_untouched (board_manager g) position
                (player_symbol (current g))) as Hu.
  destruct (add_player_piece _ _ _) as [[] bm|bm] eqn:Hadd; cbn in Hu.
  - apply add_player_piece_result in Hadd as [Hlen Hget].
    pose proof Hwf as [Hb Hh _ _]. rewrite Hb in Hlen.
    set (g1 := set_board_manager g bm).
    set (g2 := set_player g1 _ _).
    assert (Hwf2 : wf_game g2).
    { apply wf_game_set_player; [by apply wf_game_set_board|].
      by apply place_piece_hand, hand_of_player. }
    assert (Hb2 : board_manager g2 = bm).
    { unfold g2, g1. by destruct (current_player (set_board_manager g bm)). }
    rewrite (finalize_turn_spec g2 position (player_symbol (current g)));
      [| by destruct Hwf2 | by destruct Hwf2 | by rewrite Hb2].
    cbn [obind final_state]. by apply wf_game_turn_result.
  - subst bm. by rewrite set_board_manager_id.
  - subst bm. by rewrite set_board_manager_id.
Qed.

Lemma relocation_wf (g : Game) (position : Z) (o : outcome BoardManager bool) :
  wf_game g →
  untouched (board_manager g) o →
  (∀ bm', o = Returned true bm' →
     length (board bm') = length (board (board_manager g))
     ∧ getitem (board bm') position = Ok (player_symbol (current g))) →
  wf_game (final_state
    (on_board_manager g o (λ moved g1,
       if moved then
         obind (finalize_turn g1 position) (λ _ g2,
           Returned true (set_selected_piece g2 None))
       else Returned false g1))).
Proof.
  intros Hwf Hu Hok. unfold on_board_manager.
  destruct o as [[] bm'|bm']; cbn in Hu.
  - destruct (Hok bm' eq_refl) as (Hlen' & Hget).
    pose proof Hwf as [Hb Hh _ _]. rewrite Hb in Hlen'.
    pose proof (wf_game_set_board g bm' Hwf Hlen') as Hwf'.
    rewrite (finalize_turn_spec _ position (player_symbol (current g)));
      [| by destruct Hwf' | done | done].
    cbn [obind final_state]. by apply wf_game_deselect, wf_game_turn_result.
  - subst bm'. by rewrite set_board_manager_id.
  - subst bm'. by rewrite set_board_manager_id.
Qed.

Lemma handle_moving_wf (g : Game) (position : Z) :
  wf_game g → wf_game (final_state (handle_moving g position)).
Proof.
  intros Hwf. unfold handle_moving. destruct (selected_piece g) as [s|].
  - destruct (position =? s); [by apply wf_game_deselect|].
    apply relocation_wf; [done | apply move_player_piece_untouched |].
    intros bm' Hmove. by apply move_player_piece_result in Hmove.
  - destruct (who_on_position _ _) as [c|] eqn:Hc; [|done]. cbn [read].
    destruct (String.eqb c _); [|done].
    destruct (get_empty_adjacent_positions _ _) as [[|a adj]|]; cbn [read final_state];
      [done | by apply (wf_game_select g position c) | done].
Qed.

Lemma handle_flying_wf (g : Game) (position : Z) :
  wf_game g → wf_game (final_state (handle_flying g position)).
Proof.
  intros Hwf. unfold handle_flying. destruct (selected_piece g) as [s|].
  - destruct (position =? s); [by apply wf_game_deselect|].
    apply relocation_wf; [done | apply fly_player_piece_untouched |].
    intros bm' Hfly. by apply fly_player_piece_result in Hfly.
  - destruct (who_on_position _ _) as [c|] eqn:Hc; [|done]. cbn [read].
    destruct (String.eqb c _); cbn [final_state];
      [by apply (wf_game_select g position c) | done].
Qed.

Lemma remove_player_piece_result (bm : BoardManager) (q : Z) (bm' : BoardManager) :
  remove_player_piece bm q = Returned true bm' →
  length (board bm') = length (board bm) ∧ getitem (board bm') q = Ok ".".
Proof.
  unfold remove_player_piece, is_position_empty, setitem.
  destruct (getitem (board bm) q) as [c|] eqn:Hc; [|done]. cbn [rbind read].
  destruct (String.eqb c "."); [done|]. cbn [negb].
  destruct (py_index _ q) as [k|] eqn:Hk; [|done]. cbn [read].
  intros [= <-]. cbn [board]. rewrite length_insert. split; [done|].
  apply getitem_Ok. exists k. rewrite length_insert. split; [done|].
  apply list_lookup_insert_eq. by apply py_index_lt in Hk.
Qed.

Lemma handle_removing_piece_wf (g : Game) (position : Z) :
  wf_game g → wf_game (final_state (handle_removing_piece g position)).
Proof.
  intros Hwf. pose proof Hwf as [Hb Hh _ _].
  unfold handle_removing_piece, on_board_manager.
  rewrite get_allowed_removals_spec by done. cbn [read].
  destruct (contains _ position); [|done].
  pose proof (remove_player_piece_untouched (board_manager g) position) as Hu.
  destruct (remove_player_piece _ _) as [[] bm|bm] eqn:Hrem; cbn in Hu.
  - apply remove_player_piece_result in Hrem as [Hlen Hget]. rewrite Hb in Hlen.
    set (g1 := set_board_manager g bm).
    set (g2 := set_player g1 _ _).
    assert (Hwf2 : wf_game g2).
    { apply wf_game_set_player; [by apply wf_game_set_board|].
      unfold remove_piece, opponent_player.
      destruct (0 <? _); cbn; apply (hand_of_player g1); done. }
    assert (Hb2 : board_manager g2 = bm).
    { unfold g2, g1. by destruct (current_player (set_board_manager g bm)). }
    rewrite check_win_condition_material by by destruct Hwf2. cbn [read].
    rewrite (finalize_turn_spec g2 position ".");
      [| by destruct Hwf2 | by destruct Hwf2 | by rewrite Hb2].
    cbn [obind final_state]. by apply wf_game_turn_result.
  - subst bm. by rewrite set_board_manager_id.
  - subst bm. by rewrite set_board_manager_id.
Qed.

Lemma wf_game_new_game (player_1 player_2 : Player) :
  wf_game (Game_init player_1 player_2).
Proof. split; [reflexivity | by split | by intros s | constructor]. Qed.

Lemma handle_action_wf (g : Game) (position : Z) :
  wf_game g → wf_game (final_state (handle_action g position)).
Proof.
  intros Hwf. unfold handle_action.
  pose proof (wf_game_record_game_action g position Hwf) as Hrec.
  destruct (current_phase g).
  - by apply handle_placing_wf.
  - by apply handle_moving_wf.
  - by apply handle_flying_wf.
  - by apply handle_removing_piece_wf.
  - done.
Qed.

Lemma pop_Forall {A} (P : A → Prop) (l log : list A) (x : A) :
  pop l = Some (log, x) → Forall P l → Forall P log ∧ P x.
Proof.
  revert log. induction l as [|y l IH]; [done|]. simpl.
  intros log Hpop [Hy Hl]%Forall_cons.
  destruct (pop l) as [[l' z]|] eqn:E.
  - injection Hpop as <- <-. destruct (IH l' eq_refl Hl) as [? ?].
    split; [by constructor | done].
  - injection Hpop as <- <-. split; [constructor | done].
Qed.

Lemma undo_action_wf (g : Game) : wf_game g → wf_game (snd (undo_action g)).
Proof.
  intros [Hb Hh Hs Hl]. unfold undo_action.
  destruct (pop (game_history g)) as [[log last]|] eqn:Hpop; [|by split].
  destruct (pop_Forall _ _ _ _ Hpop Hl) as [Hlog Hlast]. by split.
Qed.

(** Every state the calls of [handle_action] and [undo_action] reach from
    a new game is well-formed. *)
Lemma run_wf (g : Game) (calls : list Call) : wf_game g → wf_game (run g calls).
Proof.
  revert g. induction calls as [|[p|] calls IH]; intros g Hwf; cbn [run]; [done| |].
  - pose proof (handle_action_wf g p Hwf) as Hstep.
    destruct (handle_action g p) as [ok g'|g']; [by apply IH | done].
  - by apply IH, undo_action_wf.
Qed.

(** * Further properties of the engine *)

(** ** What a turn leaves alone *)

Lemma update_game_phase_frame (g : Game) :
  let g' := final_state (update_game_phase g) in
  player1 g' = player1 g ∧ player2 g' = player2 g
  ∧ board_manager g' = board_manager g
  ∧ current_player g' = current_player g
  ∧ selected_piece g' = selected_piece g
  ∧ game_history g' = game_history g.
Proof.
  unfold update_game_phase, read.
  destruct (check_win_condition g) as [[]|]; [done| |done].
  destruct (0 <? _); [done|]. by destruct (_ =? 3).
Qed.

Lemma finalize_turn_frame (g : Game) (position : Z) :
  let g' := final_state (finalize_turn g position) in
  player1 g' = player1 g ∧ player2 g' = player2 g
  ∧ board_manager g' = board_manager g
  ∧ selected_piece g' = selected_piece g
  ∧ game_history g' = game_history g.
Proof.
  unfold finalize_turn, read.
  destruct (check_win_condition g) as [[]|]; [done| |done].
  destruct (is_position_part_of_mill g position) as [[]|]; [done| |done].
  destruct (update_game_phase_frame (switch_player g)) as (? & ? & ? & ? & ? & ?).
  done.
Qed.

(** ** The win condition never raises and only sees material *)

(** X1. On a 24-cell board with non-negative hands [check_win_condition]
    returns, and it returns [True] exactly when both hands are empty and
    the opponent has fewer than three pieces on the board. *)
Theorem win_only_on_material (g : Game) :
  board_ok (board_manager g) → hands_ok g →
  ∃ won, check_win_condition g = Ok won
         ∧ (won = true ↔ pieces_in_hand (current g) = 0
                         ∧ pieces_in_hand (opponent_player g) = 0
                         ∧ pieces_on_board (opponent_player g) < 3).
Proof.
  intros Hlen Hhands. exists (material_loss g).
  split; [by apply check_win_condition_material|].
  unfold material_loss. rewrite !andb_true_iff, !Z.eqb_eq, Z.ltb_lt. tauto.
Qed.

Lemma win_only_on_material_witness :
  ∃ won, check_win_condition endgame = Ok won
         ∧ (won = true ↔ pieces_in_hand (current endgame) = 0
                         ∧ pieces_in_hand (opponent_player endgame) = 0
                         ∧ pieces_on_board (opponent_player endgame) < 3).
Proof.
  apply (win_only_on_material endgame).
  - reflexivity.
  - split; vm_compute; discriminate.
Defined.

(** ** Flying, placing and removing on the board *)

(** X5. For positions in [0, 23] of a 24-cell board [fly_player_piece]
    returns; it returns [True] exactly when the cell [from_position] holds
    the symbol and the cell [to_position] is empty, whatever their
    distance. On success the cell [to_position] holds the symbol, the cell
    [from_position] is empty when the two positions differ, and every
    other cell is as before; on failure the board is unchanged. *)
Theorem fly_player_piece_spec (bm : BoardManager) (from_position to_position : Z)
    (sym : string) :
  board_ok bm → in_board from_position → in_board to_position →
  ∃ ok bm',
    fly_player_piece bm from_position to_position sym = Returned ok bm'
    ∧ (ok = true ↔ board bm !! Z.to_nat from_position = Some sym
                   ∧ board bm !! Z.to_nat to_position = Some ".")
    ∧ (ok = true →
       length (board bm') = length (board bm)
       ∧ board bm' !! Z.to_nat to_position = Some sym
       ∧ (from_position ≠ to_position →
          board bm' !! Z.to_nat from_position = Some ".")
       ∧ ∀ q, q ≠ Z.to_nat from_position → q ≠ Z.to_nat to_position →
              board bm' !! q = board bm !! q)
    ∧ (ok = false → bm' = bm).
Proof.
  intros Hlen Hf Ht. unfold fly_player_piece.
  destruct (who_on_position_in_board bm Hlen _ Hf) as (c & Hc & Hgc).
  unfold who_on_position in Hgc. rewrite Hgc. cbn [read].
  rewrite (is_position_empty_in_board bm Hlen _ Ht). cbn [read].
  destruct (String.eqb_spec c sym) as [->|Hne].
  2:{ exists false, bm. split; [done|]. split; [|done].
      split; [done|]. intros [? _]. congruence. }
  destruct (holds (board bm) "." to_position) eqn:Hempty.
  2:{ exists false, bm. split; [done|]. split; [|done].
      split; [done|]. intros [_ He%holds_true]. congruence. }
  apply holds_true in Hempty.
  rewrite (relocate_in_board bm _ _ sym Hlen Hf Ht).
  eexists true, _. split; [reflexivity|]. split; [done|]. split; [intros _|done].
  cbn [board]. unfold board_ok, in_board in *.
  split; [by rewrite !length_insert|]. split; [|split].
  - apply list_lookup_insert_eq. rewrite length_insert. lia.
  - intros Hneq. rewrite list_lookup_insert_ne by lia.
    apply list_lookup_insert_eq. lia.
  - intros q Hq1 Hq2. by rewrite !list_lookup_insert_ne.
Qed.

Lemma fly_player_piece_spec_witness :
  ∃ ok bm',
    fly_player_piece (board_manager mill_game) 0 23 "X" = Returned ok bm'
    ∧ (ok = true ↔ board (board_manager mill_game) !! Z.to_nat 0 = Some "X"
                   ∧ board (board_manager mill_game) !! Z.to_nat 23 = Some ".").
Proof.
  destruct (fly_player_piece_spec (board_manager mill_game) 0 23 "X")
    as (ok & bm' & Hrun & Hiff & _).
  - reflexivity.
  - unfold in_board. lia.
  - unfold in_board. lia.
  - exists ok, bm'. split; [exact Hrun | exact Hiff].
Defined.

Lemma mkBoard_board (bm : BoardManager) : mkBoard (board bm) = bm.
Proof. by destruct bm. Qed.

(** X6. Placing and removing undo each other on the board: when
    [add_player_piece] puts a piece at a position, [remove_player_piece]
    at that position gives the board back; and when [remove_player_piece]
    takes away the piece [sym], [add_player_piece] of [sym] there gives
    the board back. *)
Theorem add_remove_round_trip (bm bm' : BoardManager) (position : Z) (sym : string) :
  sym ≠ "." →
  (add_player_piece bm position sym = Returned true bm' →
   remove_player_piece bm' position = Returned true bm)
  ∧ (getitem (board bm) position = Ok sym →
     remove_player_piece bm position = Returned true bm' →
     add_player_piece bm' position sym = Returned true bm).
Proof.
  intros Hsym. apply String.eqb_neq in Hsym as Hsym'. split.
  - unfold add_player_piece, is_position_empty.
    destruct (getitem (board bm) position) as [c|] eqn:Hc; [|done]. cbn [rbind read].
    destruct (String.eqb_spec c ".") as [->|]; [|done].
    destruct (setitem_after_getitem _ position sym _ Hc) as (k & Hk & Hcell & ->).
    cbn [read]. intros [= <-].
    unfold remove_player_piece, is_position_empty, getitem, setitem. cbn [board].
    rewrite length_insert, Hk, list_lookup_insert_eq by (by apply py_index_lt in Hk).
    cbn [rbind read]. rewrite Hsym'. cbn [negb read].
    rewrite list_insert_insert_eq, list_insert_id by done. by rewrite mkBoard_board.
  - intros Hc. unfold remove_player_piece, is_position_empty.
    rewrite Hc. cbn [rbind read]. rewrite Hsym'. cbn [negb].
    destruct (setitem_after_getitem _ position "." _ Hc) as (k & Hk & Hcell & ->).
    cbn [read]. intros [= <-].
    unfold add_player_piece, is_position_empty, getitem, setitem. cbn [board].
    rewrite length_insert, Hk, list_lookup_insert_eq by (by apply py_index_lt in Hk).
    cbn [rbind read]. cbn [String.eqb Ascii.eqb Bool.eqb]. cbn [read].
    rewrite list_insert_insert_eq, list_insert_id by done. by rewrite mkBoard_board.
Qed.

Lemma add_remove_round_trip_witness :
  ∃ bm', add_player_piece (board_manager mill_game) 7 "O" = Returned true bm'
         ∧ remove_player_piece bm' 7 = Returned true (board_manager mill_game).
Proof.
  eexists. split; [reflexivity|].
  apply (proj1 (add_remove_round_trip (board_manager mill_game) _ 7 "O" ltac:(discriminate))).
  reflexivity.
Defined.

(** ** Moves can be taken back: the adjacency table is symmetric *)

Lemma adjacent_arrays_symmetric (p q : Z) (adj : list Z) :
  in_board p → getitem adjacent_arrays p = Ok adj → contains adj q = true →
  in_board q ∧ ∃ adj', getitem adjacent_arrays q = Ok adj' ∧ contains adj' p = true.
Proof.
  unfold in_board. intros Hp Hadj Hq.
  position_cases p; apply Ok_inj in Hadj; subst adj;
    apply contains_true in Hq; apply list_elem_of_In in Hq; simpl in Hq;
    repeat (destruct Hq as [<-|Hq]; [split; [lia|]; eexists; split; reflexivity|]);
    destruct Hq.
Qed.

(** X7. A successful move can be taken back: after [move_player_piece]
    moved a piece from a position in [0, 23] to [to_position], the move
    from [to_position] to [from_position] succeeds and gives the board
    back. *)
Theorem move_round_trip (bm bm' : BoardManager) (from_position to_position : Z)
    (sym : string) :
  sym ≠ "." → in_board from_position →
  move_player_piece bm from_position to_position sym = Returned true bm' →
  move_player_piece bm' to_position from_position sym = Returned true bm.
Proof.
  intros Hsym Hf. apply String.eqb_neq in Hsym as Hsym'.
  unfold move_player_piece at 1. unfold is_position_empty.
  destruct (getitem (board bm) from_position) as [c|] eqn:Hc; [|done]. cbn [read].
  destruct (String.eqb_spec c sym) as [->|]; [|done].
  destruct (getitem (board bm) to_position) as [d|] eqn:Hd; [|done]. cbn [rbind read].
  destruct (String.eqb_spec d ".") as [->|]; [|done].
  destruct (getitem adjacent_arrays from_position) as [adj|] eqn:Hadj; [|done].
  cbn [read]. destruct (contains adj to_position) eqn:Hcont; [|done].
  destruct (adjacent_arrays_symmetric _ _ _ Hf Hadj Hcont) as (Ht & adj' & Hadj' & Hcont').
  apply getitem_Ok in Hc as (k1 & Hk1 & Hc1). apply getitem_Ok in Hd as (k2 & Hk2 & Hc2).
  assert (Hne : k1 ≠ k2) by (intros ->; congruence).
  pose proof (py_index_lt _ _ _ Hk1). pose proof (py_index_lt _ _ _ Hk2).
  unfold relocate, setitem. rewrite Hk1. cbn [read]. rewrite length_insert, Hk2.
  cbn [read]. intros [= <-].
  set (b2 := <[k2 := sym]> (<[k1 := "."]> (board bm))).
  assert (Hlen2 : length b2 = length (board bm)) by (unfold b2; by rewrite !length_insert).
  assert (G1 : getitem b2 to_position = Ok sym).
  { apply getitem_Ok. exists k2. rewrite Hlen2. split; [done|].
    apply list_lookup_insert_eq. by rewrite length_insert. }
  assert (G2 : getitem b2 from_position = Ok ".").
  { apply getitem_Ok. exists k1. rewrite Hlen2. split; [done|].
    unfold b2. rewrite list_lookup_insert_ne by done. by apply list_lookup_insert_eq. }
  unfold move_player_piece, is_position_empty. cbn [board].
  rewrite G1. cbn [read]. rewrite String.eqb_refl, G2.
  cbn [rbind read String.eqb Ascii.eqb Bool.eqb]. cbn [read].
  rewrite Hadj'. cbn [read]. rewrite Hcont'.
  unfold relocate, setitem. cbn [board]. rewrite Hlen2, Hk2. cbn [read].
  rewrite length_insert, Hlen2, Hk1. cbn [read]. f_equal.
  etransitivity; [|apply mkBoard_board]. f_equal. unfold b2.
  rewrite list_insert_insert_eq.
  rewrite (list_insert_insert_ne _ k1 k2) by done.
  rewrite list_insert_insert_eq.
  rewrite (list_insert_id _ k2) by (by rewrite list_lookup_insert_ne).
  by rewrite list_insert_id.
Qed.

Lemma move_round_trip_witness :
  ∃ bm', move_player_piece (board_manager mill_game) 2 14 "X" = Returned true bm'
         ∧ move_player_piece bm' 14 2 "X" = Returned true (board_manager mill_game).
Proof.
  eexists. split; [reflexivity|].
  apply (move_round_trip (board_manager mill_game) _ 2 14 "X").
  - discriminate.
  - unfold in_board. lia.
  - reflexivity.
Defined.

(** ** Negative positions *)

Lemma py_index_shift (len : nat) (i : Z) :
  - Z.of_nat len ≤ i < 0 → py_index len i = py_index len (i + Z.of_nat len).
Proof.
  intros H. rewrite py_index_negative by done.
  rewrite py_index_nonneg by lia. f_equal. lia.
Qed.

Lemma getitem_shift {A} (l : list A) (i : Z) :
  - Z.of_nat (length l) ≤ i < 0 → getitem l i = getitem l (i + Z.of_nat (length l)).
Proof. intros H. unfold getitem. by rewrite py_index_shift. Qed.

Lemma setitem_shift {A} (l : list A) (i : Z) (x : A) :
  - Z.of_nat (length l) ≤ i < 0 → setitem l i x = setitem l (i + Z.of_nat (length l)) x.
Proof. intros H. unfold setitem. by rewrite py_index_shift. Qed.

Lemma adjacent_arrays_nonneg (p q : Z) (adj : list Z) :
  getitem adjacent_arrays p = Ok adj → q < 0 → contains adj q = false.
Proof.
  intros Hadj Hq. apply not_true_is_false. intros Hc.
  assert (Hp : in_board p ∨ in_board (p + 24)).
  { apply getitem_Ok_in_range in Hadj. unfold in_board.
    change (Z.of_nat (length adjacent_arrays)) with 24 in Hadj. lia. }
  assert (∃ p', in_board p' ∧ getitem adjacent_arrays p' = Ok adj) as (p' & Hp' & Hadj').
  { destruct Hp as [Hp|Hp]; [by exists p|]. exists (p + 24). split; [done|].
    rewrite <- Hadj. symmetry. apply (getitem_shift adjacent_arrays).
    change (Z.of_nat (length adjacent_arrays)) with 24. unfold in_board in Hp.
    apply getitem_Ok_in_range in Hadj.
    change (Z.of_nat (length adjacent_arrays)) with 24 in Hadj.
    destruct (Z.lt_ge_cases p 0); [lia|]. lia. }
  destruct (adjacent_arrays_symmetric _ _ _ Hp' Hadj' Hc) as [Hin _].
  unfold in_board in Hin. lia.
Qed.

(** X8. The board methods read a position [p] in [-24, -1] as the
    position [p + 24]: on a 24-cell board [is_position_empty],
    [who_on_position], [get_empty_adjacent_positions], [add_player_piece],
    [remove_player_piece] and [fly_player_piece] (in either argument) do
    at [p] what they do at [p + 24], and so does [move_player_piece] when
    [p] is the position moved from. A move to [p] never succeeds: no
    adjacency list holds a negative position. *)
Theorem negative_position_aliases (bm : BoardManager) (p : Z) (sym : string) :
  board_ok bm → -24 ≤ p < 0 →
  is_position_empty bm p = is_position_empty bm (p + 24)
  ∧ who_on_position bm p = who_on_position bm (p + 24)
  ∧ get_empty_adjacent_positions bm p = get_empty_adjacent_positions bm (p + 24)
  ∧ add_player_piece bm p sym = add_player_piece bm (p + 24) sym
  ∧ remove_player_piece bm p = remove_player_piece bm (p + 24)
  ∧ (∀ q, fly_player_piece bm p q sym = fly_player_piece bm (p + 24) q sym)
  ∧ (∀ q, fly_player_piece bm q p sym = fly_player_piece bm q (p + 24) sym)
  ∧ (∀ q, move_player_piece bm p q sym = move_player_piece bm (p + 24) q sym)
  ∧ (∀ q, untouched bm (move_player_piece bm q p sym)
          ∧ ∀ bm', move_player_piece bm q p sym = Returned true bm' → False).
Proof.
  intros Hlen Hp.
  assert (Hget : getitem (board bm) p = getitem (board bm) (p + 24)).
  { rewrite (getitem_shift (board bm) p); rewrite Hlen; [done | lia]. }
  assert (Hset : ∀ x, setitem (board bm) p x = setitem (board bm) (p + 24) x).
  { intros x. rewrite (setitem_shift (board bm) p); rewrite Hlen; [done | lia]. }
  assert (Hset' : ∀ (b : list string) x,
            length b = 24%nat → setitem b p x = setitem b (p + 24) x).
  { intros b x Hb. rewrite (setitem_shift b p); rewrite Hb; [done | lia]. }
  assert (Hadj : getitem adjacent_arrays p = getitem adjacent_arrays (p + 24)).
  { apply (getitem_shift adjacent_arrays).
    change (Z.of_nat (length adjacent_arrays)) with 24. lia. }
  assert (Hrel1 : ∀ q, relocate bm p q sym = relocate bm (p + 24) q sym).
  { intros q. unfold relocate. by rewrite Hset. }
  assert (Hrel2 : ∀ q, relocate bm q p sym = relocate bm q (p + 24) sym).
  { intros q. unfold relocate.
    destruct (setitem (board bm) q ".") as [b1|] eqn:Hb1; [|done]. cbn [read].
    rewrite Hset'; [done|]. apply setitem_length in Hb1. by rewrite Hb1. }
  split_and!.
  - unfold is_position_empty. by rewrite Hget.
  - done.
  - unfold get_empty_adjacent_positions. by rewrite Hadj.
  - unfold add_player_piece, is_position_empty. by rewrite Hget, Hset.
  - unfold remove_player_piece, is_position_empty. by rewrite Hget, Hset.
  - intros q. unfold fly_player_piece. by rewrite Hget, Hrel1.
  - intros q. unfold fly_player_piece, is_position_empty. by rewrite Hget, Hrel2.
  - intros q. unfold move_player_piece. by rewrite Hget, Hadj, Hrel1.
  - intros q. split; [apply move_player_piece_untouched|].
    intros bm'. unfold move_player_piece.
    destruct (getitem (board bm) q) as [c|]; [|done]. cbn [read].
    destruct (String.eqb c sym); [|done].
    destruct (is_position_empty bm p) as [[]|]; try done. cbn [read].
    destruct (getitem adjacent_arrays q) as [adj|] eqn:Hq; [|done]. cbn [read].
    rewrite (adjacent_arrays_nonneg q p adj Hq) by lia. done.
Qed.

Lemma negative_position_aliases_witness :
  add_player_piece (board_manager mill_game) (-1) "O"
  = add_player_piece (board_manager mill_game) (-1 + 24) "O".
Proof.
  refine (proj1 (proj2 (proj2 (proj2
    (negative_position_aliases (board_manager mill_game) (-1) "O" _ _))))).
  - reflexivity.
  - lia.
Defined.

(** ** The handlers return on every position a 24-cell list accepts *)

Lemma get_empty_adjacent_positions_indexable (bm : BoardManager) (p : Z) :
  board_ok bm → indexable p →
  ∃ adj, getitem adjacent_arrays p = Ok adj ∧ Forall in_board adj
         ∧ get_empty_adjacent_positions bm p
           = Ok (List.filter (holds (board bm) ".") adj).
Proof.
  intros Hlen Hp.
  assert (∃ p', in_board p' ∧ getitem adjacent_arrays p = getitem adjacent_arrays p')
    as (p' & Hp' & Hadj).
  { unfold indexable, in_board in *. destruct (Z.lt_ge_cases p 0).
    - exists (p + 24). split; [lia|]. apply (getitem_shift adjacent_arrays).
      change (Z.of_nat (length adjacent_arrays)) with 24. lia.
    - exists p. split; [lia | done]. }
  destruct (adjacent_arrays_spec p' Hp') as (adj & Hadj' & Hin & _).
  destruct (get_empty_adjacent_positions_in_board bm Hlen p' Hp') as (adj2 & Hadj2 & Hres).
  assert (adj2 = adj) as -> by congruence.
  exists adj. rewrite Hadj. split; [done|]. split; [done|].
  unfold get_empty_adjacent_positions in *. by rewrite Hadj.
Qed.

Lemma getitem_indexable (b : list string) (p : Z) :
  length b = 24%nat → indexable p → ∃ c, getitem b p = Ok c.
Proof. intros Hlen Hp. apply getitem_in_range. rewrite Hlen. unfold indexable in Hp. lia. Qed.

(** After the board changed at [position], the turn is finalized and the
    handler returns [True]. *)
Lemma finalize_returns (g : Game) (position : Z) (c : string) (k : Game → Game) :
  board_ok (board_manager g) → hands_ok g →
  getitem (board (board_manager g)) position = Ok c →
  obind (finalize_turn g position) (λ _ g2, Returned true (k g2))
  = Returned true (k (turn_result g (protected (board (board_manager g)) c position))).
Proof. intros Hlen Hh Hc. by rewrite (finalize_turn_spec g position c). Qed.

Lemma handle_placing_returns (g : Game) (position : Z) (c : string) :
  wf_game g → getitem (board (board_manager g)) position = Ok c →
  ∃ g', handle_placing g position = Returned (String.eqb c ".") g'.
Proof.
  intros Hwf Hc. unfold handle_placing, on_board_manager.
  destruct (add_player_piece _ _ _) as [[] bm|bm] eqn:Hadd.
  - assert (String.eqb c "." = true) as ->.
    { revert Hadd. unfold add_player_piece, is_position_empty. rewrite Hc.
      cbn [rbind read]. by destruct (String.eqb c "."). }
    apply add_player_piece_result in Hadd as [Hlen Hget].
    pose proof Hwf as [Hb Hh _ _]. rewrite Hb in Hlen.
    set (g2 := set_player _ _ _).
    assert (Hwf2 : wf_game g2).
    { apply wf_game_set_player; [by apply wf_game_set_board|].
      by apply place_piece_hand, hand_of_player. }
    assert (Hb2 : board_manager g2 = bm).
    { unfold g2. by destruct (current_player (set_board_manager g bm)). }
    rewrite (finalize_returns g2 position (player_symbol (current g)) (λ g, g));
      [eauto | by destruct Hwf2 | by destruct Hwf2 | by rewrite Hb2].
  - assert (String.eqb c "." = false) as ->; [|eauto].
    revert Hadd. unfold add_player_piece, is_position_empty, setitem. rewrite Hc.
    cbn [rbind read]. destruct (String.eqb c "."); [|done].
    apply getitem_Ok in Hc as (k & -> & _). done.
  - exfalso. revert Hadd. unfold add_player_piece, is_position_empty, setitem.
    rewrite Hc. cbn [rbind read]. destruct (String.eqb c "."); [|done].
    apply getitem_Ok in Hc as (k & -> & _). done.
Qed.

(** What the second step of a move or of a flight returns, given what the
    board method returns on the reads that succeed. *)
Lemma relocation_returns (g : Game) (position : Z) (o : outcome BoardManager bool)
    (ok : bool) :
  wf_game g →
  (∃ bm', o = Returned ok bm') →
  (∀ bm', o = Returned true bm' →
     length (board bm') = length (board (board_manager g))
     ∧ getitem (board bm') position = Ok (player_symbol (current g))) →
  ∃ g', on_board_manager g o (λ moved g1,
          if moved then
            obind (finalize_turn g1 position) (λ _ g2,
              Returned true (set_selected_piece g2 None))
          else Returned false g1) = Returned ok g'.
Proof.
  intros Hwf [bm' ->] Hok. unfold on_board_manager. destruct ok; [|eauto].
  destruct (Hok bm' eq_refl) as [Hlen Hget].
  pose proof Hwf as [Hb Hh _ _]. rewrite Hb in Hlen.
  rewrite (finalize_returns _ position (player_symbol (current g))); [eauto|done..].
Qed.

Lemma move_player_piece_returns (bm : BoardManager) (s position : Z) (sym c d : string)
    (adj : list Z) :
  getitem (board bm) s = Ok c → getitem (board bm) position = Ok d →
  getitem adjacent_arrays s = Ok adj →
  ∃ bm', move_player_piece bm s position sym
         = Returned (String.eqb c sym && String.eqb d "." && contains adj position) bm'.
Proof.
  intros Hc Hd Hadj. unfold move_player_piece, is_position_empty.
  rewrite Hc, Hd, Hadj. cbn [rbind read].
  destruct (String.eqb c sym); [|by eauto]. cbn [read andb].
  destruct (String.eqb d "."); [|by eauto]. cbn [read andb].
  destruct (contains adj position); [|by eauto].
  destruct (relocate_after_reads bm s position sym c d Hc Hd) as [bm' ->]. eauto.
Qed.

Lemma fly_player_piece_returns (bm : BoardManager) (s position : Z) (sym c d : string) :
  getitem (board bm) s = Ok c → getitem (board bm) position = Ok d →
  ∃ bm', fly_player_piece bm s position sym
         = Returned (String.eqb c sym && String.eqb d ".") bm'.
Proof.
  intros Hc Hd. unfold fly_player_piece, is_position_empty.
  rewrite Hc, Hd. cbn [rbind read].
  destruct (String.eqb c sym); [|by eauto]. cbn [read andb].
  destruct (String.eqb d "."); [|by eauto].
  destruct (relocate_after_reads bm s position sym c d Hc Hd) as [bm' ->]. eauto.
Qed.

Lemma handle_moving_returns (g : Game) (position : Z) :
  wf_game g → indexable position → ∃ ok g', handle_moving g position = Returned ok g'.
Proof.
  intros Hwf Hp. pose proof Hwf as [Hb Hh Hsel _].
  destruct (getitem_indexable _ position Hb Hp) as [d Hd].
  unfold handle_moving. destruct (selected_piece g) as [s|] eqn:Hs.
  - destruct (position =? s); [eauto|].
    destruct (getitem_indexable _ s Hb (Hsel s Hs)) as [c Hc].
    destruct (get_empty_adjacent_positions_indexable _ s Hb (Hsel s Hs))
      as (adj & Hadj & _ & _).
    eexists. apply relocation_returns; [done | |].
    + apply (move_player_piece_returns _ _ _ _ c d adj); done.
    + intros bm' Hm. by apply move_player_piece_result in Hm.
  - unfold who_on_position. rewrite Hd. cbn [read].
    destruct (String.eqb d _); [|eauto].
    destruct (get_empty_adjacent_positions_indexable _ position Hb Hp)
      as (adj & _ & _ & ->). cbn [read].
    destruct (List.filter _ adj); eauto.
Qed.

Lemma handle_flying_returns (g : Game) (position : Z) :
  wf_game g → indexable position → ∃ ok g', handle_flying g position = Returned ok g'.
Proof.
  intros Hwf Hp. pose proof Hwf as [Hb Hh Hsel _].
  destruct (getitem_indexable _ position Hb Hp) as [d Hd].
  unfold handle_flying. destruct (selected_piece g) as [s|] eqn:Hs.
  - destruct (position =? s); [eauto|].
    destruct (getitem_indexable _ s Hb (Hsel s Hs)) as [c Hc].
    eexists. apply relocation_returns; [done | |].
    + apply (fly_player_piece_returns _ _ _ _ c d); done.
    + intros bm' Hm. by apply fly_player_piece_result in Hm.
  - unfold who_on_position. rewrite Hd. cbn [read].
    destruct (String.eqb d _); eauto.
Qed.

Lemma handle_removing_piece_returns (g : Game) (position : Z) :
  wf_game g → ∃ ok g', handle_removing_piece g position = Returned ok g'.
Proof.
  intros Hwf. pose proof Hwf as [Hb Hh _ _].
  unfold handle_removing_piece, on_board_manager.
  rewrite get_allowed_removals_spec by done. cbn [read].
  destruct (contains _ position) eqn:Hin; [|eauto].
  apply contains_true, elem_of_removal_list in Hin as [Hpos Hcell].
  destruct (getitem_nonneg _ _ Hpos) as (c & Hc & Hget).
  pose proof (remove_player_piece_untouched (board_manager g) position) as Hu.
  destruct (remove_player_piece _ _) as [[] bm|bm] eqn:Hrem.
  - apply remove_player_piece_result in Hrem as [Hlen Hget']. rewrite Hb in Hlen.
    set (g2 := set_player _ _ _).
    assert (Hwf2 : wf_game g2).
    { apply wf_game_set_player; [by apply wf_game_set_board|].
      unfold remove_piece, opponent_player.
      destruct (0 <? _); cbn; apply (hand_of_player (set_board_manager g bm)); done. }
    assert (Hb2 : board_manager g2 = bm).
    { unfold g2. by destruct (current_player (set_board_manager g bm)). }
    rewrite check_win_condition_material by by destruct Hwf2. cbn [read].
    rewrite (finalize_returns g2 position "." (λ g, g));
      [eauto | by destruct Hwf2 | by destruct Hwf2 | by rewrite Hb2].
  - eauto.
  - exfalso. revert Hrem. unfold remove_player_piece, is_position_empty, setitem.
    rewrite Hget. cbn [rbind read]. destruct (negb _); [|done].
    apply getitem_Ok in Hget as (k & -> & _). done.
Qed.

(** X2. In a well-formed state, [handle_action] returns a boolean on
    every position in [-24, 23]: no [IndexError] leaves the engine. *)
Theorem handle_action_returns (g : Game) (position : Z) :
  wf_game g → indexable position →
  ∃ ok g', handle_action g position = Returned ok g'.
Proof.
  intros Hwf Hp. unfold handle_action.
  pose proof (wf_game_record_game_action g position Hwf) as Hrec.
  destruct (current_phase g).
  - pose proof Hrec as [Hb _ _ _].
    destruct (getitem_indexable _ position Hb Hp) as [c Hc].
    destruct (handle_placing_returns _ position c Hrec Hc) as [g' Hg']. eauto.
  - by apply handle_moving_returns.
  - by apply handle_flying_returns.
  - by apply handle_removing_piece_returns.
  - eauto.
Qed.

Lemma handle_action_returns_witness :
  ∃ ok g', handle_action mill_game 3 = Returned ok g'.
Proof.
  apply (handle_action_returns mill_game 3).
  - split; [reflexivity | split; vm_compute; discriminate | intros s Hs; discriminate Hs
            | repeat constructor].
  - unfold indexable. lia.
Defined.

(** ** Counters and the log along a run *)

Lemma final_state_obind {A} (o : outcome Game A) (k : Game → Game) :
  final_state (obind o (λ _ g, Returned true (k g)))
  = match o with Returned _ g => k g | Raised g => g end.
Proof. by destruct o. Qed.

Lemma handler_frame_finalize (g0 g : Game) (position : Z) (k : Game → Game) :
  handler_frame g0 g →
  (∀ x, game_history (k x) = game_history x ∧ ∀ r, player (k x) r = player x r) →
  handler_frame g0 (final_state (obind (finalize_turn g position)
                                       (λ _ g2, Returned true (k g2)))).
Proof.
  intros [Hh Hp] Hk. rewrite final_state_obind.
  destruct (finalize_turn_frame g position) as (H1 & H2 & _ & _ & Hhist).
  assert (Hpl : ∀ r, player (final_state (finalize_turn g position)) r = player g r).
  { intros []; done. }
  destruct (finalize_turn g position) as [[] g2|g2]; cbn [final_state] in *.
  - destruct (Hk g2) as [Hk1 Hk2]. split; [congruence|].
    intros r. rewrite Hk2, Hpl. apply Hp.
  - split; [congruence|]. intros r. rewrite Hpl. apply Hp.
Qed.

Lemma handler_frame_refl (g : Game) : handler_frame g g.
Proof. split; [done|]. intros r. by left. Qed.

Lemma handler_frame_set_board (g : Game) (bm : BoardManager) :
  handler_frame g (set_board_manager g bm).
Proof. split; [done|]. intros []; by left. Qed.

Lemma handler_frame_select (g : Game) (s : option Z) :
  handler_frame g (set_selected_piece g s).
Proof. split; [done|]. intros []; by left. Qed.

Lemma handle_placing_frame (g : Game) (position : Z) :
  handler_frame g (final_state (handle_placing g position)).
Proof.
  unfold handle_placing, on_board_manager.
  destruct (add_player_piece _ _ _) as [[] bm|bm]; cbn [final_state];
    [|apply handler_frame_set_board..].
  apply handler_frame_finalize; [|done].
  split; [by destruct g as [? ? ? [] ? ? ? ?]|].
  intros r. unfold current, player_step.
  destruct g as [p1 p2 ? [] ? ? ? ?], r; cbn; auto.
Qed.

Lemma relocation_frame (g : Game) (position : Z) (o : outcome BoardManager bool) :
  handler_frame g (final_state
    (on_board_manager g o (λ moved g1,
       if moved then
         obind (finalize_turn g1 position) (λ _ g2,
           Returned true (set_selected_piece g2 None))
       else Returned false g1))).
Proof.
  unfold on_board_manager.
  destruct o as [[] bm|bm]; cbn [final_state]; [|apply handler_frame_set_board..].
  apply handler_frame_finalize; [apply handler_frame_set_board|].
  intros x. split; [done | by intros []].
Qed.

Lemma handle_moving_frame (g : Game) (position : Z) :
  handler_frame g (final_state (handle_moving g position)).
Proof.
  unfold handle_moving. destruct (selected_piece g) as [s|].
  - destruct (position =? s); [apply handler_frame_select | apply relocation_frame].
  - unfold read. destruct (who_on_position _ _) as [c|]; [|apply handler_frame_refl].
    destruct (String.eqb c _); [|apply handler_frame_refl].
    destruct (get_empty_adjacent_positions _ _) as [[|a adj]|];
      [apply handler_frame_refl | apply handler_frame_select | apply handler_frame_refl].
Qed.

Lemma handle_flying_frame (g : Game) (position : Z) :
  handler_frame g (final_state (handle_flying g position)).
Proof.
  unfold handle_flying. destruct (selected_piece g) as [s|].
  - destruct (position =? s); [apply handler_frame_select | apply relocation_frame].
  - unfold read. destruct (who_on_position _ _) as [c|]; [|apply handler_frame_refl].
    destruct (String.eqb c _); [apply handler_frame_select | apply handler_frame_refl].
Qed.

Lemma handle_removing_piece_frame (g : Game) (position : Z) :
  handler_frame g (final_state (handle_removing_piece g position)).
Proof.
  unfold handle_removing_piece, on_board_manager, read.
  destruct (get_allowed_removals g) as [allowed|]; [|apply handler_frame_refl].
  destruct (contains allowed position); [|apply handler_frame_refl].
  destruct (remove_player_piece _ _) as [[] bm|bm]; cbn [final_state];
    [|apply handler_frame_set_board..].
  set (g2 := set_player _ _ _).
  assert (Hframe : handler_frame g g2).
  { split; [by destruct g as [? ? ? [] ? ? ? ?]|].
    intros r. unfold g2, opponent_player, player_step.
    destruct g as [p1 p2 ? [] ? ? ? ?], r; cbn; auto. }
  destruct (check_win_condition g2); [|done].
  by apply (handler_frame_finalize g g2 position (λ x, x)).
Qed.

Lemma handle_action_frame (g : Game) (position : Z) :
  let g' := final_state (handle_action g position) in
  (∀ r, player_step (player g r) (player g' r))
  ∧ game_history g'
    = match current_phase g with
      | GAME_OVER => game_history g
      | _ => game_history g
             ++ [mkSnapshot (board (board_manager g)) (current_player g)
                            (current_phase g) position]
      end.
Proof.
  unfold handle_action.
  assert (Hrec : ∀ r, player (record_game_action g position) r = player g r)
    by (by intros []).
  destruct (current_phase g) eqn:Hph; cbn zeta.
  - destruct (handle_placing_frame (record_game_action g position) position) as [Hh Hp].
    split; [|by rewrite Hh; cbn; rewrite Hph]. intros r. rewrite <- Hrec. apply Hp.
  - destruct (handle_moving_frame (record_game_action g position) position) as [Hh Hp].
    split; [|by rewrite Hh; cbn; rewrite Hph]. intros r. rewrite <- Hrec. apply Hp.
  - destruct (handle_flying_frame (record_game_action g position) position) as [Hh Hp].
    split; [|by rewrite Hh; cbn; rewrite Hph]. intros r. rewrite <- Hrec. apply Hp.
  - destruct (handle_removing_piece_frame (record_game_action g position) position)
      as [Hh Hp].
    split; [|by rewrite Hh; cbn; rewrite Hph]. intros r. rewrite <- Hrec. apply Hp.
  - split; [|done]. intros r. by left.
Qed.

Lemma player_step_bounded (p p' : Player) :
  player_step p p' → counters_bounded p → counters_bounded p'.
Proof.
  unfold player_step, counters_bounded, place_piece, remove_piece.
  intros [->|[->| ->]] H; [done| |].
  - destruct (Z.ltb_spec 0 (pieces_in_hand p)); cbn; lia.
  - destruct (Z.ltb_spec 0 (pieces_on_board p)); cbn; lia.
Qed.

Lemma player_step_hand (p p' : Player) :
  player_step p p' → pieces_in_hand p' ≤ pieces_in_hand p.
Proof.
  unfold player_step, place_piece, remove_piece.
  intros [->|[->| ->]]; [done| |].
  - destruct (Z.ltb_spec 0 (pieces_in_hand p)); cbn; lia.
  - destruct (Z.ltb_spec 0 (pieces_on_board p)); cbn; lia.
Qed.

Lemma undo_action_players (g : Game) (r : PlayerRef) :
  player (snd (undo_action g)) r = player g r.
Proof. unfold undo_action. destruct (pop _) as [[]|]; by destruct r. Qed.

Lemma run_bounded (g : Game) (calls : list Call) (r : PlayerRef) :
  counters_bounded (player g r) → counters_bounded (player (run g calls) r).
Proof.
  revert g. induction calls as [|[p|] calls IH]; intros g Hg; cbn [run]; [done| |].
  - destruct (handle_action_frame g p) as [Hstep _]. specialize (Hstep r).
    apply player_step_bounded in Hstep; [|done].
    destruct (handle_action g p) as [ok g'|g']; [by apply IH | done].
  - apply IH. by rewrite undo_action_players.
Qed.

Lemma run_hand (g : Game) (calls : list Call) (r : PlayerRef) :
  pieces_in_hand (player (run g calls) r) ≤ pieces_in_hand (player g r).
Proof.
  revert g. induction calls as [|[p|] calls IH]; intros g; cbn [run]; [done| |].
  - destruct (handle_action_frame g p) as [Hstep _]. specialize (Hstep r).
    apply player_step_hand in Hstep.
    destruct (handle_action g p) as [ok g'|g']; cbn [final_state] in Hstep.
    + specialize (IH g'). lia.
    + done.
  - specialize (IH (snd (undo_action g))). by rewrite undo_action_players in IH.
Qed.

(** X3. Every state reached from a new game by calls of [handle_action]
    and [undo_action] is well-formed: the board has 24 cells, the hands
    are not negative, the selected piece, if any, is in [-24, 23], and
    every board recorded in the log has 24 cells. *)
Theorem reachable_wf (player_1 player_2 : Player) (calls : list Call) :
  wf_game (run (Game_init player_1 player_2) calls).
Proof. apply run_wf, wf_game_new_game. Qed.

(** X4. In every state reached from a new game by calls of
    [handle_action] and [undo_action], each player has between 0 and 9
    pieces in hand, no negative number of pieces on the board, and at most
    9 pieces in all; and no further call gives a piece back to a hand. *)
Theorem counters_stay_bounded (player_1 player_2 : Player) (calls more : list Call)
    (r : PlayerRef) :
  let g := run (Game_init player_1 player_2) calls in
  counters_bounded (player g r)
  ∧ pieces_in_hand (player (run g more) r) ≤ pieces_in_hand (player g r).
Proof.
  split; [|apply run_hand].
  apply run_bounded. unfold counters_bounded. destruct r; cbn; lia.
Qed.

(** X9. Undo after an action: in every phase but [GAME_OVER], whatever
    [handle_action] did at a position (accepted, rejected or raised),
    [undo_action] right after it returns [True] and gives back the board,
    the current player, the phase and the log of before the action; the
    counters and the selected piece stay as the action left them. *)
Theorem action_then_undo (g : Game) (position : Z) :
  current_phase g ≠ GAME_OVER →
  let g' := final_state (handle_action g position) in
  ∃ g'', undo_action g' = (true, g'')
         ∧ board_manager g'' = board_manager g
         ∧ current_player g'' = current_player g
         ∧ current_phase g'' = current_phase g
         ∧ game_history g'' = game_history g
         ∧ player1 g'' = player1 g' ∧ player2 g'' = player2 g'
         ∧ selected_piece g'' = selected_piece g'.
Proof.
  intros Hph g'. destruct (handle_action_frame g position) as [_ Hhist].
  fold g' in Hhist.
  assert (Hlog : game_history g'
                 = game_history g
                   ++ [mkSnapshot (board (board_manager g)) (current_player g)
                                  (current_phase g) position]).
  { rewrite Hhist. by destruct (current_phase g). }
  unfold undo_action. rewrite Hlog, pop_app. eexists. split; [reflexivity|].
  cbn. split_and!; try done. apply mkBoard_board.
Qed.

Lemma action_then_undo_witness :
  ∃ g'', undo_action (final_state (handle_action before_mill_game 2)) = (true, g'')
         ∧ board_manager g'' = board_manager before_mill_game
         ∧ pieces_in_hand (player1 g'') = pieces_in_hand (player1 before_mill_game) - 1.
Proof.
  destruct (action_then_undo before_mill_game 2 ltac:(discriminate))
    as (g'' & Hundo & Hboard & _ & _ & _ & Hp1 & _).
  exists g''. split; [exact Hundo|]. split; [exact Hboard|].
  rewrite Hp1. vm_compute. reflexivity.
Defined.

(** ** Removals and the end of the game *)

Lemma material_loss_turn_result (g : Game) (mill : bool) :
  current_phase (turn_result g mill) = GAME_OVER →
  material_loss (turn_result g mill) = true.
Proof.
  unfold turn_result. destruct (material_loss g) eqn:Hm; [by intros _|].
  destruct mill; [done|]. cbn [current_phase set_current_phase].
  unfold phase_for.
  destruct (material_loss (switch_player g)) eqn:Hs; [by intros _|].
  destruct (0 <? _); [done|]. by destruct (_ =? 3).
Qed.

(** The acting part of [handle_removing_piece] on an allowed position. *)
Lemma successful_removal (g : Game) (position : Z) (g' : Game) :
  wf_game g →
  handle_removing_piece g position = Returned true g' →
  let sym := player_symbol (opponent_player g) in
  let gm := set_player
              (set_board_manager g
                 (mkBoard (<[Z.to_nat position := "."]> (board (board_manager g)))))
              (other (current_player g)) (snd (remove_piece (opponent_player g))) in
  occupies (board (board_manager g)) sym position ∧ sym ≠ "."
  ∧ wf_game gm ∧ g' = turn_result gm false.
Proof.
  intros Hwf. pose proof Hwf as [Hb Hh _ _].
  unfold handle_removing_piece, on_board_manager.
  rewrite get_allowed_removals_spec by done. cbn [read].
  destruct (contains _ position) eqn:Hin; [|done].
  apply contains_true, elem_of_removal_list in Hin as [Hpos Hcell].
  pose proof Hpos as Hk. apply py_index_nonneg in Hk.
  unfold remove_player_piece, is_position_empty, getitem, setitem.
  rewrite Hk, Hcell. cbn [rbind read].
  destruct (String.eqb_spec (player_symbol (opponent_player g)) ".") as [E|Hne];
    [done|]. cbn [negb read].
  set (b' := <[Z.to_nat position := "."]> (board (board_manager g))).
  change (opponent_player (set_board_manager g (mkBoard b'))) with (opponent_player g).
  change (current_player (set_board_manager g (mkBoard b'))) with (current_player g).
  set (gm := set_player _ _ _).
  assert (Hlen' : length b' = 24%nat) by (unfold b'; by rewrite length_insert).
  assert (Hwf2 : wf_game gm).
  { apply wf_game_set_player; [by apply wf_game_set_board|].
    unfold remove_piece, opponent_player.
    destruct (0 <? _); cbn; apply (hand_of_player g); done. }
  assert (Hb2 : board_manager gm = mkBoard b').
  { unfold gm. by destruct (current_player g). }
  assert (Hget' : getitem b' position = Ok ".").
  { apply getitem_Ok. exists (Z.to_nat position). rewrite Hlen', <- Hb.
    split; [done|]. apply list_lookup_insert_eq. lia. }
  rewrite check_win_condition_material by by destruct Hwf2. cbn [read].
  rewrite (finalize_returns gm position "." (λ g, g));
    [| by destruct Hwf2 | by destruct Hwf2 | by rewrite Hb2].
  intros [= <-]. by split_and!.
Qed.

(** X10. A successful removal: when [handle_action] returns [True] in the
    phase [REMOVING_PIECE] of a well-formed state, the position held a
    piece of the opponent, its cell is now empty and no other cell
    changed, the opponent's [pieces_on_board] went down by one unless it
    was not positive, and the current player's counters are as before.
    The phase is then never [REMOVING_PIECE] again: when both hands are
    empty and the opponent has fewer than three pieces the phase is
    [GAME_OVER] with the same current player, and otherwise the opponent
    is the current player and the phase is the one computed for them. *)
Theorem removal_turn (g : Game) (position : Z) (g' : Game) :
  wf_game g → current_phase g = REMOVING_PIECE →
  handle_action g position = Returned true g' →
  let actor := current_player g in
  occupies (board (board_manager g)) (player_symbol (opponent_player g)) position
  ∧ board (board_manager g')
    = <[Z.to_nat position := "."]> (board (board_manager g))
  ∧ player g' actor = player g actor
  ∧ player g' (other actor) = snd (remove_piece (player g (other actor)))
  ∧ (wins_on_material g' actor = true →
     current_phase g' = GAME_OVER ∧ current_player g' = actor)
  ∧ (wins_on_material g' actor = false →
     current_player g' = other actor ∧ current_phase g' = phase_for g').
Proof.
  intros Hwf Hph. unfold handle_action. rewrite Hph. intros Hrun.
  apply successful_removal in Hrun; [|by apply wf_game_record_game_action].
  cbn zeta in Hrun. destruct Hrun as (Hocc & Hne & Hwfm & ->).
  set (gm := set_player _ _ _) in *.
  destruct (turn_result_frame gm false) as (H1 & H2 & Hb & _ & _).
  destruct (turn_result_spec gm false) as (Hw & Hover & _ & Hswitch).
  assert (Hcur : current_player gm = current_player g).
  { unfold gm. by destruct g as [? ? ? [] ? ? ? ?]. }
  assert (Hpl : ∀ r, player (turn_result gm false) r = player gm r) by (by intros []).
  rewrite Hcur in Hw, Hover, Hswitch. cbn zeta.
  split_and!.
  - done.
  - rewrite Hb. unfold gm. by destruct g as [? ? ? [] ? ? ? ?].
  - rewrite Hpl. unfold gm. by destruct g as [? ? ? [] ? ? ? ?].
  - rewrite Hpl. unfold gm, opponent_player. by destruct g as [? ? ? [] ? ? ? ?].
  - rewrite Hw. apply Hover.
  - rewrite Hw. intros Hm. by apply Hswitch.
Qed.

Lemma removal_turn_witness :
  ∃ g', handle_action mill_game 3 = Returned true g'
        ∧ board (board_manager g')
          = <[Z.to_nat 3 := "."]> (board (board_manager mill_game))
        ∧ player g' Player2 = snd (remove_piece (player mill_game Player2)).
Proof.
  assert (Hwf : wf_game mill_game).
  { split; [reflexivity | split; vm_compute; discriminate | intros s Hs; discriminate Hs
            | repeat constructor]. }
  eexists. split; [vm_compute; reflexivity|].
  destruct (removal_turn mill_game 3 _ Hwf eq_refl eq_refl) as (_ & Hb & _ & Hp & _).
  split; [exact Hb | exact Hp].
Defined.

(** ** Selecting and deselecting *)

Lemma handle_moving_select (g : Game) (position : Z) (c : string) (adj : list Z) :
  selected_piece g = None →
  who_on_position (board_manager g) position = Ok c →
  get_empty_adjacent_positions (board_manager g) position = Ok adj →
  let ok := String.eqb c (player_symbol (current g))
            && match adj with nil => false | cons _ _ => true end in
  handle_moving g position
  = Returned ok (if ok then set_selected_piece g (Some position) else g).
Proof.
  intros Hs Hc Hadj. unfold handle_moving. rewrite Hs, Hc. cbn [read].
  destruct (String.eqb c _); [|done]. rewrite Hadj. cbn [read]. by destruct adj.
Qed.

Lemma handle_flying_select (g : Game) (position : Z) (c : string) :
  selected_piece g = None →
  who_on_position (board_manager g) position = Ok c →
  let ok := String.eqb c (player_symbol (current g)) in
  handle_flying g position
  = Returned ok (if ok then set_selected_piece g (Some position) else g).
Proof.
  intros Hs Hc. unfold handle_flying. rewrite Hs, Hc. cbn [read].
  by destruct (String.eqb c _).
Qed.

Lemma deselect_record (g : Game) (position : Z) :
  selected_piece g = None →
  set_selected_piece
    (record_game_action (set_selected_piece g (Some position)) position) None
  = record_game_action g position.
Proof. destruct g as [? ? ? ? ? sel ? ?]. cbn. by intros ->. Qed.

(** X11. Selecting in the phase [MOVING]: with no piece selected, on a
    24-cell board and at a position in [0, 23], [handle_action] returns
    [True] exactly when the cell holds a piece of the current player and
    some adjacent cell is empty; it then sets the selected piece and
    changes nothing else but the log, and otherwise changes nothing but
    the log. Giving the same position again deselects: the state is the
    one before the selection, with two more snapshots in the log. *)
Theorem moving_selection (g : Game) (position : Z) :
  board_ok (board_manager g) → current_phase g = MOVING →
  selected_piece g = None → in_board position →
  let g1 := record_game_action g position in
  let b := board (board_manager g) in
  ∃ ok : bool,
    handle_action g position
    = Returned ok (if ok then set_selected_piece g1 (Some position) else g1)
    ∧ (ok = true ↔ b !! Z.to_nat position = Some (player_symbol (current g))
                   ∧ ∃ q, adjacent position q ∧ b !! Z.to_nat q = Some ".")
    ∧ handle_action (set_selected_piece g1 (Some position)) position
      = Returned true (record_game_action g1 position).
Proof.
  intros Hlen Hph Hsel Hpos. cbn zeta.
  destruct (who_on_position_in_board _ Hlen position Hpos) as (c & Hc & Hw).
  destruct (get_empty_adjacent_positions_in_board _ Hlen position Hpos)
    as (adj & Hadj & Hres).
  eexists. split; [|split].
  - unfold handle_action. rewrite Hph.
    apply (handle_moving_select (record_game_action g position) position c); done.
  - change (current (record_game_action g position)) with (current g).
    change (board_manager (record_game_action g position)) with (board_manager g).
    rewrite andb_true_iff, String.eqb_eq. split.
    + intros [-> Hne]. split; [done|].
      destruct (List.filter _ adj) as [|q qs] eqn:E; [done|].
      assert (Hq : q ∈ List.filter (holds (board (board_manager g)) ".") adj)
        by (rewrite E; left).
      apply elem_of_List_filter in Hq as [Hq Hhold%holds_true].
      exists q. split; [|done]. exists adj. split; [|done].
      apply getitem_Ok in Hadj as (k & Hk & Hl).
      rewrite py_index_nonneg in Hk by (unfold in_board in Hpos; simpl; lia).
      by injection Hk as <-.
    + intros [Hcell (q & (adj' & Hadj' & Hq) & Hempty)].
      split; [congruence|].
      assert (adj' = adj) as ->.
      { apply getitem_Ok in Hadj as (k & Hk & Hl).
        rewrite py_index_nonneg in Hk by (unfold in_board in Hpos; simpl; lia).
        injection Hk as <-. congruence. }
      assert (Hin : q ∈ List.filter (holds (board (board_manager g)) ".") adj).
      { apply elem_of_List_filter. split; [done | by apply holds_true]. }
      destruct (List.filter _ adj); [by apply elem_of_nil in Hin | done].
  - unfold handle_action. cbn [current_phase set_selected_piece record_game_action
                                set_game_history]. rewrite Hph.
    unfold handle_moving.
    cbn [selected_piece set_selected_piece record_game_action set_game_history].
    rewrite Z.eqb_refl. f_equal.
    rewrite <- (deselect_record (record_game_action g position) position); done.
Qed.

Lemma moving_selection_witness :
  ∃ ok : bool, handle_action blockade_game 4 = Returned ok
          (if ok then set_selected_piece (record_game_action blockade_game 4) (Some 4)
           else record_game_action blockade_game 4)
        ∧ (ok = true ↔ board (board_manager blockade_game) !! Z.to_nat 4 = Some "X"
                       ∧ ∃ q, adjacent 4 q
                              ∧ board (board_manager blockade_game) !! Z.to_nat q = Some ".").
Proof.
  destruct (moving_selection blockade_game 4) as (ok & Hrun & Hiff & _).
  - reflexivity.
  - reflexivity.
  - reflexivity.
  - unfold in_board. lia.
  - exists ok. split; [exact Hrun | exact Hiff].
Defined.

(** X12. Selecting in the phase [FLYING]: with no piece selected, on a
    24-cell board and at a position in [0, 23], [handle_action] returns
    [True] exactly when the cell holds a piece of the current player,
    whether or not a neighbour is empty; giving the same position again
    deselects. *)
Theorem flying_selection (g : Game) (position : Z) :
  board_ok (board_manager g) → current_phase g = FLYING →
  selected_piece g = None → in_board position →
  let g1 := record_game_action g position in
  ∃ ok : bool,
    handle_action g position
    = Returned ok (if ok then set_selected_piece g1 (Some position) else g1)
    ∧ (ok = true ↔ board (board_manager g) !! Z.to_nat position
                   = Some (player_symbol (current g)))
    ∧ handle_action (set_selected_piece g1 (Some position)) position
      = Returned true (record_game_action g1 position).
Proof.
  intros Hlen Hph Hsel Hpos. cbn zeta.
  destruct (who_on_position_in_board _ Hlen position Hpos) as (c & Hc & Hw).
  eexists. split; [|split].
  - unfold handle_action. rewrite Hph.
    apply (handle_flying_select (record_game_action g position) position c); done.
  - change (current (record_game_action g position)) with (current g).
    change (board_manager (record_game_action g position)) with (board_manager g).
    rewrite String.eqb_eq. split; congruence.
  - unfold handle_action. cbn [current_phase set_selected_piece record_game_action
                                set_game_history]. rewrite Hph.
    unfold handle_flying.
    cbn [selected_piece set_selected_piece record_game_action set_game_history].
    rewrite Z.eqb_refl. f_equal.
    rewrite <- (deselect_record (record_game_action g position) position); done.
Qed.

Lemma flying_selection_witness :
  ∃ ok : bool,
    handle_action flying_game 0 = Returned ok
      (if ok then set_selected_piece (record_game_action flying_game 0) (Some 0)
       else record_game_action flying_game 0)
    ∧ (ok = true ↔ board (board_manager flying_game) !! Z.to_nat 0 = Some "X").
Proof.
  destruct (flying_selection flying_game 0) as (ok & Hrun & Hiff & _).
  - reflexivity.
  - reflexivity.
  - reflexivity.
  - unfold in_board. lia.
  - exists ok. split; [exact Hrun | exact Hiff].
Defined.

(** ** The game ends on material only *)

Lemma handle_moving_select_shape (g : Game) (position : Z) (g' : Game) :
  selected_piece g = None → handle_moving g position = Returned true g' →
  g' = set_selected_piece g (Some position).
Proof.
  intros Hs. unfold handle_moving, read. rewrite Hs.
  destruct (who_on_position _ _) as [c|]; [|done].
  destruct (String.eqb c _); [|done].
  destruct (get_empty_adjacent_positions _ _) as [[|a adj]|]; congruence.
Qed.

Lemma handle_flying_select_shape (g : Game) (position : Z) (g' : Game) :
  selected_piece g = None → handle_flying g position = Returned true g' →
  g' = set_selected_piece g (Some position).
Proof.
  intros Hs. unfold handle_flying, read. rewrite Hs.
  destruct (who_on_position _ _) as [c|]; [|done].
  destruct (String.eqb c _); congruence.
Qed.

(** An accepted action either keeps the phase and the current player or
    ends in the state [finalize_turn] left. *)
Lemma accepted_action_shape (g : Game) (position : Z) (g' : Game) :
  wf_game g → handle_action g position = Returned true g' →
  (current_phase g' = current_phase g ∧ current_player g' = current_player g)
  ∨ ∃ gm mill, g' = turn_result gm mill ∨ g' = set_selected_piece (turn_result gm mill) None.
Proof.
  intros Hwf Hrun. pose proof Hwf as [Hb Hh _ _].
  destruct (current_phase g) eqn:Hph.
  - destruct (successful_relocation g position g' Hb Hh (or_introl Hph) Hrun)
      as (gm & _ & _ & _ & _ & _ & Hg'). right. eauto.
  - destruct (selected_piece g) as [s|] eqn:Hs.
    + destruct (Z.eq_dec s position) as [->|Hne].
      * left. revert Hrun. unfold handle_action, handle_moving. rewrite Hph.
        cbn [selected_piece record_game_action set_game_history]. rewrite Hs, Z.eqb_refl.
        intros [= <-]. by rewrite <- Hph.
      * assert (Hrel : relocating g position).
        { right. split; [by left|]. eauto. }
        destruct (successful_relocation g position g' Hb Hh Hrel Hrun)
          as (gm & _ & _ & _ & _ & _ & Hg'). right. eauto.
    + left. revert Hrun. unfold handle_action. rewrite Hph. intros Hrun.
      apply handle_moving_select_shape in Hrun as ->; [|done]. by rewrite <- Hph.
  - destruct (selected_piece g) as [s|] eqn:Hs.
    + destruct (Z.eq_dec s position) as [->|Hne].
      * left. revert Hrun. unfold handle_action, handle_flying. rewrite Hph.
        cbn [selected_piece record_game_action set_game_history]. rewrite Hs, Z.eqb_refl.
        intros [= <-]. by rewrite <- Hph.
      * assert (Hrel : relocating g position).
        { right. split; [by right|]. eauto. }
        destruct (successful_relocation g position g' Hb Hh Hrel Hrun)
          as (gm & _ & _ & _ & _ & _ & Hg'). right. eauto.
    + left. revert Hrun. unfold handle_action. rewrite Hph. intros Hrun.
      apply handle_flying_select_shape in Hrun as ->; [|done]. by rewrite <- Hph.
  - revert Hrun. unfold handle_action. rewrite Hph. intros Hrun.
    apply successful_removal in Hrun; [|by apply wf_game_record_game_action].
    destruct Hrun as (_ & _ & _ & Hg'). right. eauto.
  - revert Hrun. unfold handle_action. by rewrite Hph.
Qed.

Lemma rejected_state (g : Game) (position : Z) (g' : Game) :
  handle_action g position = Returned false g' → g' = after_rejection g position.
Proof.
  unfold handle_action, after_rejection. intros H. destruct (current_phase g).
  - by apply handle_placing_false in H.
  - by apply handle_moving_false in H.
  - by apply handle_flying_false in H.
  - by apply handle_removing_piece_false in H.
  - congruence.
Qed.

(** X13. The game ends on material only: when a call of [handle_action]
    in a well-formed state takes the game from another phase to
    [GAME_OVER], both hands are empty and the opponent of the current
    player has fewer than three pieces on the board. *)
Theorem game_over_only_on_material (g : Game) (position : Z) (ok : bool) (g' : Game) :
  wf_game g → current_phase g ≠ GAME_OVER →
  handle_action g position = Returned ok g' →
  current_phase g' = GAME_OVER →
  pieces_in_hand (current g') = 0
  ∧ pieces_in_hand (opponent_player g') = 0
  ∧ pieces_on_board (opponent_player g') < 3.
Proof.
  intros Hwf Hph Hrun Hover.
  assert (Hm : material_loss g' = true).
  { destruct ok.
    - destruct (accepted_action_shape g position g' Hwf Hrun)
        as [[Hsame _]|(gm & mill & [-> | ->])].
      + congruence.
      + by apply material_loss_turn_result.
      + by apply (material_loss_turn_result gm mill).
    - apply rejected_state in Hrun as ->. unfold after_rejection in Hover.
      destruct (current_phase g) eqn:E; cbn in Hover; congruence. }
  unfold material_loss in Hm.
  apply andb_true_iff in Hm as [[H1%Z.eqb_eq H2%Z.eqb_eq]%andb_true_iff H3%Z.ltb_lt].
  done.
Qed.

Lemma game_over_only_on_material_witness :
  ∃ g', handle_action endgame 2 = Returned true g'
        ∧ pieces_in_hand (current g') = 0
        ∧ pieces_in_hand (opponent_player g') = 0
        ∧ pieces_on_board (opponent_player g') < 3.
Proof.
  eexists. split; [vm_compute; reflexivity|].
  eapply (game_over_only_on_material endgame 2 true).
  - split; [reflexivity | split; vm_compute; discriminate
            | intros s [= <-]; lia | constructor].
  - discriminate.
  - vm_compute. reflexivity.
  - reflexivity.
Defined.

(** ** The moves offered are the moves accepted *)

Lemma get_empty_adjacent_positions_free (bm : BoardManager) (p : Z) :
  board_ok bm → indexable p →
  get_empty_adjacent_positions bm p = Ok (free_neighbours (board bm) p)
  ∧ getitem adjacent_arrays p = Ok (neighbours p)
  ∧ Forall in_board (neighbours p).
Proof.
  intros Hlen Hp.
  destruct (get_empty_adjacent_positions_indexable bm p Hlen Hp) as (adj & Hadj & Hin & Hres).
  unfold free_neighbours, neighbours. by rewrite Hadj.
Qed.

Lemma List_filter_true (xs : list Z) : List.filter (λ _, true) xs = xs.
Proof. induction xs as [|x xs IH]; simpl; [done | by rewrite IH]. Qed.

Lemma possible_legal_moves_spec (g : Game) :
  board_ok (board_manager g) → selection_ok g →
  possible_legal_moves g = Ok (list_to_set (legal_list g)).
Proof.
  intros Hlen Hsel. unfold possible_legal_moves, legal_list. cbn zeta.
  destruct (current_phase g).
  - by rewrite get_empty_positions_spec.
  - rewrite get_players_positions_spec. cbn [rbind].
    destruct (selected_piece g) as [s|] eqn:Hs.
    + destruct (get_empty_adjacent_positions_free _ s Hlen (Hsel s Hs)) as (-> & _ & _).
      done.
    + rewrite (collect_filter _
        (λ p, 0 <? Z.of_nat (length (free_neighbours (board (board_manager g)) p))));
        [done|].
      intros p [Hp _]%elem_of_players_positions.
      destruct (get_empty_adjacent_positions_free _ p Hlen) as (-> & _ & _); [|done].
      rewrite Hlen in Hp. unfold indexable. lia.
  - destruct (selected_piece g) as [s|].
    + by rewrite get_empty_positions_spec.
    + rewrite get_players_positions_spec. cbn [rbind].
      rewrite (collect_filter _ (λ _, true)) by done. cbn [app rbind].
      by rewrite List_filter_true.
  - by rewrite get_allowed_removals_spec.
  - done.
Qed.

Lemma handle_removing_piece_accepts (g : Game) (position : Z) :
  wf_game g → player_symbol (opponent_player g) ≠ "." →
  position ∈ removal_list (board (board_manager g)) (player_symbol (opponent_player g)) →
  ∃ g', handle_removing_piece g position = Returned true g'.
Proof.
  intros Hwf Hne Hin. pose proof Hwf as [Hb Hh _ _].
  unfold handle_removing_piece, on_board_manager.
  rewrite get_allowed_removals_spec by done. cbn [read].
  apply contains_true in Hin as Hc. rewrite Hc.
  apply elem_of_removal_list in Hin as [Hpos Hcell].
  pose proof Hpos as Hk. apply py_index_nonneg in Hk.
  unfold remove_player_piece, is_position_empty, getitem, setitem.
  rewrite Hk, Hcell. cbn [rbind read].
  apply String.eqb_neq in Hne. rewrite Hne. cbn [negb read].
  set (b' := <[Z.to_nat position := "."]> (board (board_manager g))).
  set (gm := set_player _ _ _).
  assert (Hlen' : length b' = 24%nat) by (unfold b'; by rewrite length_insert).
  assert (Hwf2 : wf_game gm).
  { apply wf_game_set_player; [by apply wf_game_set_board|].
    unfold remove_piece, opponent_player.
    destruct (0 <? _); cbn; apply (hand_of_player g); done. }
  assert (Hb2 : board_manager gm = mkBoard b').
  { unfold gm. by destruct g as [? ? ? [] ? ? ? ?]. }
  assert (Hget' : getitem b' position = Ok ".").
  { apply getitem_Ok. exists (Z.to_nat position). rewrite Hlen', <- Hb.
    split; [done|]. apply list_lookup_insert_eq. lia. }
  rewrite check_win_condition_material by by destruct Hwf2. cbn [read].
  rewrite (finalize_returns gm position "." (λ g, g));
    [eauto | by destruct Hwf2 | by destruct Hwf2 | by rewrite Hb2].
Qed.

Lemma getitem_cell (b : list string) (p : Z) (c : string) :
  0 ≤ p < Z.of_nat (length b) → b !! Z.to_nat p = Some c → getitem b p = Ok c.
Proof.
  intros Hp Hc. apply getitem_Ok. exists (Z.to_nat p).
  split; [by apply py_index_nonneg | done].
Qed.

(** What the second step returns, with the reads spelled out. *)
Lemma second_step_returns (g : Game) (s position : Z) (c d : string) :
  wf_game g → selected_piece g = Some s → s ≠ position →
  getitem (board (board_manager g)) s = Ok c →
  getitem (board (board_manager g)) position = Ok d →
  (∃ g', handle_moving g position
         = Returned (String.eqb c (player_symbol (current g)) && String.eqb d "."
                     && contains (neighbours s) position) g')
  ∧ (∃ g', handle_flying g position
           = Returned (String.eqb c (player_symbol (current g)) && String.eqb d ".") g').
Proof.
  intros Hwf Hs Hne Hc Hd. pose proof Hwf as [Hb _ Hsel _].
  assert (Hneq : (position =? s) = false) by (apply Z.eqb_neq; congruence).
  destruct (get_empty_adjacent_positions_free _ s Hb (Hsel s Hs)) as (_ & Hadj & _).
  split.
  - unfold handle_moving. rewrite Hs, Hneq.
    apply relocation_returns; [done | |].
    + by apply (move_player_piece_returns _ _ _ _ c d).
    + intros bm' Hm. by apply move_player_piece_result in Hm.
  - unfold handle_flying. rewrite Hs, Hneq.
    apply relocation_returns; [done | |].
    + by apply (fly_player_piece_returns _ _ _ _ c d).
    + intros bm' Hm. by apply fly_player_piece_result in Hm.
Qed.

Lemma occupies_getitem (b : list string) (sym : string) (p : Z) :
  occupies b sym p → getitem b p = Ok sym.
Proof. intros [Hp Hc]. by apply getitem_cell. Qed.

(** X14. Every position [possible_legal_moves] offers is accepted: in a
    well-formed state in which the selected piece, if any, is a piece of
    the current player and the opponent's symbol is not the empty cell,
    [handle_action] returns [True] on each of the offered positions. *)
Theorem legal_moves_are_accepted (g : Game) (moves : gset Z) (position : Z) :
  wf_game g → selection_owned g → player_symbol (opponent_player g) ≠ "." →
  possible_legal_moves g = Ok moves → position ∈ moves →
  ∃ g', handle_action g position = Returned true g'.
Proof.
  intros Hwf Hown Hopp Hmoves Hin. pose proof Hwf as [Hb _ Hsel _].
  rewrite possible_legal_moves_spec in Hmoves by done.
  apply Ok_inj in Hmoves as <-. apply elem_of_list_to_set in Hin.
  pose proof (wf_game_record_game_action g position Hwf) as Hwf1.
  set (g1 := record_game_action g position) in *.
  assert (Hfree : ∀ p, indexable p →
            get_empty_adjacent_positions (board_manager g1) p
            = Ok (free_neighbours (board (board_manager g)) p)).
  { intros p Hp. change (board_manager g1) with (board_manager g).
    by destruct (get_empty_adjacent_positions_free _ p Hb Hp) as (-> & _). }
  unfold handle_action, legal_list in *. fold g1. cbn zeta in Hin.
  destruct (current_phase g) eqn:Hph.
  - apply elem_of_players_positions, occupies_getitem in Hin.
    destruct (handle_placing_returns g1 position "." Hwf1 Hin) as [g' Hg']. eauto.
  - destruct (selected_piece g) as [s|] eqn:Hs.
    + apply elem_of_List_filter in Hin as [Hn Hempty%holds_true].
      destruct (get_empty_adjacent_positions_free _ s Hb (Hsel s Hs)) as (_ & _ & Hall).
      rewrite Forall_forall in Hall. specialize (Hall _ Hn).
      destruct (Z.eq_dec s position) as [->|Hne].
      * unfold handle_moving.
        change (selected_piece g1) with (selected_piece g). rewrite Hs, Z.eqb_refl. eauto.
      * destruct (second_step_returns g1 s position (player_symbol (current g)) "."
                    Hwf1 Hs Hne) as [[g' Hg'] _].
        { by apply Hown. }
        { apply getitem_cell; [|done]. change (board_manager g1) with (board_manager g).
          rewrite Hb. unfold in_board in Hall. lia. }
        change (current g1) with (current g) in Hg'.
        rewrite String.eqb_refl in Hg'. apply contains_true in Hn. rewrite Hn in Hg'.
        eauto.
    + apply elem_of_List_filter in Hin as [Hocc%elem_of_players_positions Hlen].
      pose proof (occupies_getitem _ _ _ Hocc) as Hget.
      assert (Hidx : indexable position).
      { destruct Hocc as [Hp _]. rewrite Hb in Hp. unfold indexable. lia. }
      rewrite (handle_moving_select g1 position (player_symbol (current g))
                 (free_neighbours (board (board_manager g)) position)); [|done..| by apply Hfree].
      change (current g1) with (current g). rewrite String.eqb_refl.
      destruct (free_neighbours _ position); [done | eauto].
  - destruct (selected_piece g) as [s|] eqn:Hs.
    + apply elem_of_players_positions in Hin. pose proof (occupies_getitem _ _ _ Hin) as Hd.
      destruct (Z.eq_dec s position) as [->|Hne].
      * unfold handle_flying.
        change (selected_piece g1) with (selected_piece g). rewrite Hs, Z.eqb_refl. eauto.
      * destruct (second_step_returns g1 s position (player_symbol (current g)) "."
                    Hwf1 Hs Hne) as [_ [g' Hg']]; [by apply Hown | done |].
        change (current g1) with (current g) in Hg'.
        rewrite String.eqb_refl in Hg'. eauto.
    + apply elem_of_players_positions in Hin. pose proof (occupies_getitem _ _ _ Hin) as Hget.
      rewrite (handle_flying_select g1 position (player_symbol (current g))); [|done..].
      change (current g1) with (current g). rewrite String.eqb_refl. eauto.
  - by apply (handle_removing_piece_accepts g1 position).
  - by apply elem_of_nil in Hin.
Qed.

Lemma legal_moves_are_accepted_witness :
  ∃ moves, possible_legal_moves endgame = Ok moves ∧ 13 ∈ moves
           ∧ ∃ g', handle_action endgame 13 = Returned true g'.
Proof.
  assert (Hwf : wf_game endgame).
  { split; [reflexivity | split; vm_compute; discriminate
            | intros s [= <-]; lia | constructor]. }
  assert (Hmoves : possible_legal_moves endgame
                   = Ok (list_to_set (legal_list endgame))).
  { by apply possible_legal_moves_spec; destruct Hwf. }
  assert (Hin : 13 ∈ (list_to_set (legal_list endgame) : gset Z)).
  { apply elem_of_list_to_set. vm_compute. apply list_elem_of_In. simpl. auto. }
  eexists. split; [exact Hmoves|]. split; [exact Hin|].
  apply (legal_moves_are_accepted endgame (list_to_set (legal_list endgame)) 13 Hwf);
    [|discriminate|exact Hmoves|exact Hin].
  intros s [= <-]. reflexivity.
Defined.

(** X15. Every accepted position was offered: when [handle_action]
    returns [True] at a position in [0, 23] of a well-formed state, the
    position is one [possible_legal_moves] offered, or it is the selected
    piece (giving it again deselects it). *)
Theorem accepted_moves_are_legal (g : Game) (moves : gset Z) (position : Z) (g' : Game) :
  wf_game g → in_board position →
  possible_legal_moves g = Ok moves →
  handle_action g position = Returned true g' →
  position ∈ moves ∨ selected_piece g = Some position.
Proof.
  intros Hwf Hpos Hmoves Hrun. pose proof Hwf as [Hb _ Hsel _].
  rewrite possible_legal_moves_spec in Hmoves by done.
  apply Ok_inj in Hmoves as <-. rewrite elem_of_list_to_set.
  pose proof (wf_game_record_game_action g position Hwf) as Hwf1.
  set (g1 := record_game_action g position) in *.
  destruct (who_on_position_in_board _ Hb position Hpos) as (d & Hcell & Hd).
  unfold who_on_position in Hd.
  assert (Hrange : 0 ≤ position < Z.of_nat (length (board (board_manager g)))).
  { rewrite Hb. unfold in_board in Hpos. lia. }
  assert (Hidx : indexable position) by (unfold indexable, in_board in *; lia).
  unfold handle_action, legal_list in *. fold g1 in Hrun. cbn zeta.
  destruct (current_phase g) eqn:Hph.
  - left. destruct (handle_placing_returns g1 position d Hwf1 Hd) as [g'' Hg''].
    rewrite Hg'' in Hrun. injection Hrun as Hd' _. apply String.eqb_eq in Hd' as ->.
    by apply elem_of_players_positions.
  - destruct (selected_piece g) as [s|] eqn:Hs.
    + destruct (Z.eq_dec s position) as [->|Hne]; [by right | left].
      destruct (getitem_indexable _ s Hb (Hsel s Hs)) as [c Hc].
      destruct (second_step_returns g1 s position c d Hwf1 Hs Hne Hc Hd) as [[g'' Hg''] _].
      rewrite Hg'' in Hrun. injection Hrun as Hok _.
      apply andb_true_iff in Hok as [[_ ->%String.eqb_eq]%andb_true_iff Hn%contains_true].
      apply elem_of_List_filter. split; [done | by apply holds_true].
    + left. destruct (get_empty_adjacent_positions_free _ position Hb Hidx) as (Hfree & _).
      rewrite (handle_moving_select g1 position d _ Hs Hd Hfree) in Hrun.
      injection Hrun as Hok _.
      apply andb_true_iff in Hok as [->%String.eqb_eq Hne].
      apply elem_of_List_filter. split; [by apply elem_of_players_positions|].
      by destruct (free_neighbours _ position).
  - destruct (selected_piece g) as [s|] eqn:Hs.
    + destruct (Z.eq_dec s position) as [->|Hne]; [by right | left].
      destruct (getitem_indexable _ s Hb (Hsel s Hs)) as [c Hc].
      destruct (second_step_returns g1 s position c d Hwf1 Hs Hne Hc Hd) as [_ [g'' Hg'']].
      rewrite Hg'' in Hrun. injection Hrun as Hok _.
      apply andb_true_iff in Hok as [_ ->%String.eqb_eq].
      by apply elem_of_players_positions.
    + left. rewrite (handle_flying_select g1 position d Hs Hd) in Hrun.
      injection Hrun as Hok _. apply String.eqb_eq in Hok as ->.
      by apply elem_of_players_positions.
  - left. revert Hrun. unfold handle_removing_piece.
    rewrite get_allowed_removals_spec by by destruct Hwf1. cbn [read].
    destruct (contains _ position) eqn:Hc; [|done]. intros _.
    by apply contains_true in Hc.
  - done.
Qed.

Lemma accepted_moves_are_legal_witness :
  ∃ moves, possible_legal_moves flying_game = Ok moves ∧ 23 ∈ moves.
Proof.
  assert (Hwf : wf_game flying_game).
  { split; [reflexivity | split; vm_compute; discriminate | intros s Hs; discriminate Hs
            | constructor]. }
  assert (Hmoves : possible_legal_moves flying_game
                   = Ok (list_to_set (legal_list flying_game))).
  { by apply possible_legal_moves_spec; destruct Hwf. }
  eexists. split; [exact Hmoves|].
  destruct (accepted_moves_are_legal flying_game (list_to_set (legal_list flying_game)) 23
              (final_state (handle_action flying_game 23))
              Hwf ltac:(unfold in_board; lia) Hmoves) as [Hin|Hsel].
  - vm_compute. reflexivity.
  - exact Hin.
  - discriminate Hsel.
Defined.

(** ** The position queries *)

Lemma filter_seq_sorted (f : Z → bool) (a n : nat) :
  StronglySorted Z.lt (List.filter f (map Z.of_nat (seq a n))).
Proof.
  revert a. induction n as [|n IH]; intros a; simpl; [constructor|].
  destruct (f (Z.of_nat a)); [|apply IH]. constructor; [apply IH|].
  apply Forall_forall. intros x [Hx _]%elem_of_List_filter.
  apply list_elem_of_fmap in Hx as (k & -> & Hk). apply elem_of_seq in Hk. lia.
Qed.

Lemma filter_seq_count (sym : string) (pre b : list string) :
  Z.of_nat (length (List.filter (holds (pre ++ b) sym)
                                (map Z.of_nat (seq (length pre) (length b)))))
  = pieces_of sym b.
Proof.
  revert pre. induction b as [|c b IH]; intros pre; [done|].
  cbn [length seq map List.filter]. unfold pieces_of. cbn [count_cells].
  fold (pieces_of sym b).
  assert (Hc : holds (pre ++ c :: b) sym (Z.of_nat (length pre)) = is_piece_of sym c).
  { unfold holds. by rewrite Nat2Z.id, list_lookup_middle. }
  rewrite Hc. specialize (IH (pre ++ [c])).
  rewrite <- app_assoc, length_app in IH. cbn [app length] in IH.
  replace (length pre + 1)%nat with (S (length pre)) in IH by lia.
  destruct (is_piece_of sym c); cbn [length]; lia.
Qed.

(** X16. [get_players_positions] never raises, whatever the board and the
    symbol: it returns, in increasing order and each one once, exactly the
    positions of the board that hold the symbol, as many as there are
    cells with the symbol; [get_empty_positions] is the same query for
    the symbol of the empty cell. *)
Theorem position_queries (bm : BoardManager) (sym : string) :
  ∃ positions,
    get_players_positions bm sym = Ok positions
    ∧ StronglySorted Z.lt positions
    ∧ (∀ p, p ∈ positions ↔ occupies (board bm) sym p)
    ∧ Z.of_nat (length positions) = pieces_of sym (board bm)
    ∧ get_empty_positions bm = get_players_positions bm ".".
Proof.
  eexists. split_and!.
  - apply get_players_positions_spec.
  - apply filter_seq_sorted.
  - intros p. apply elem_of_players_positions.
  - apply (filter_seq_count sym []).
  - by rewrite get_empty_positions_spec, get_players_positions_spec.
Qed.

(** ** Snapshots and later writes to the board *)

Lemma write_board_snapshots (h : Store.GameRef) (k : nat) (sym : string) :
  unaliased h →
  game_history (Store.game_of (Store.write_board h k sym))
  = game_history (Store.game_of h).
Proof.
  intros Hun. unfold Store.game_of, Store.write_board. cbn.
  apply list_fmap_ext. intros i s Hs. unfold Store.snapshot_of. f_equal.
  apply lookup_total_insert_ne. intros E. apply (Hun s); [|done].
  by apply list_elem_of_lookup_2 with i.
Qed.

(** X17. The snapshot that [record_game_action] appends holds a copy of
    the board: in a game whose references denote lists and whose logged
    snapshots do not share their list with the board, the log grows by
    one entry with the cells of the board, the current player, the phase
    and the position; the board is as it was; the snapshots still do not
    share their list with the board; and a later assignment to a cell of
    the board changes no entry of the log. *)
Theorem record_game_action_copies (h : Store.GameRef) (position : Z)
    (k : nat) (sym : string) :
  Store.live h → unaliased h →
  let h' := Store.record_game_action h position in
  game_history (Store.game_of h')
  = game_history (Store.game_of h)
    ++ [mkSnapshot (board (board_manager (Store.game_of h)))
                   (Store.turn h) (Store.phase h) position]
  ∧ board_manager (Store.game_of h') = board_manager (Store.game_of h)
  ∧ Store.live h' ∧ unaliased h'
  ∧ game_history (Store.game_of (Store.write_board h' k sym))
    = game_history (Store.game_of h').
Proof.
  intros Hlive Hun h'.
  pose proof (record_game_action_refines h position Hlive) as Href.
  destruct (record_game_action_unaliased h position Hlive Hun) as [Hlive' Hun'].
  fold h' in Href, Hlive', Hun'. split_and!; [by rewrite Href..|done|done|].
  by apply write_board_snapshots.
Qed.

Lemma record_game_action_copies_witness :
  game_history (Store.game_of
                  (Store.write_board (Store.record_game_action logged_game 3) 3 "O"))
  = game_history (Store.game_of (Store.record_game_action logged_game 3)).
Proof.
  assert (Hlive : Store.live logged_game).
  { split; [|intros s ->%list_elem_of_singleton]; apply elem_of_dom; eexists;
      vm_compute; reflexivity. }
  assert (Hun : unaliased logged_game).
  { intros s ->%list_elem_of_singleton. discriminate. }
  apply (record_game_action_copies logged_game 3 3 "O" Hlive Hun).
Defined.
